(** * Storage glue of the kan application: a shallow embedding

    The development follows the TypeScript sources:
    - [packages/shared/src/utils/s3.ts]: the storage facade
      ([getStorageDriver], [joinUrl], [generateDownloadUrl], [deleteObject]);
    - the upload file server (the [api/uploads] catch-all route);
    - the attachment downloader (the [api/download] route);
    - the health router ([health] and [stats] procedures).

    JavaScript strings are modelled as [string]: the bytes of their UTF-8
    encoding, so that U+00A0 is the two bytes 194 and 160.  The functions
    below inspect ASCII characters, and [trim] the white space of Unicode
    as well.  Environment variables
    are [option string]: [None] is [undefined].  Effects on the outside
    world (file system, upstream fetch, database) are answered by an
    explicit oracle and recorded in a trace of events. *)

From Stdlib Require Import String Ascii List Bool Arith Lia.
Import ListNotations.
Open Scope string_scope.
Open Scope nat_scope.

(** ** JavaScript string primitives *)
Module Js.

Definition slash : ascii := "/"%char.

(** Truthiness of a [string] value: every string but the empty one. *)
Definition nonEmpty (s : string) : bool :=
  match s with EmptyString => false | String _ _ => true end.

(** Truthiness of a [string | undefined] value. *)
Definition truthy (v : option string) : bool :=
  match v with Some s => nonEmpty s | None => false end.

(** [s.startsWith(p)] *)
Fixpoint startsWith (s p : string) : bool :=
  match p, s with
  | EmptyString, _ => true
  | String a p', String b s' => Ascii.eqb a b && startsWith s' p'
  | String _ _, EmptyString => false
  end.

(** [s.endsWith("/")] *)
Fixpoint endsWithSlash (s : string) : bool :=
  match s with
  | EmptyString => false
  | String c EmptyString => Ascii.eqb c slash
  | String _ r => endsWithSlash r
  end.

(** [s.startsWith("/")] *)
Definition startsWithSlash (s : string) : bool :=
  match s with
  | String c _ => Ascii.eqb c slash
  | EmptyString => false
  end.

(** [s.slice(0, -1)] *)
Fixpoint dropLast (s : string) : string :=
  match s with
  | EmptyString => EmptyString
  | String _ EmptyString => EmptyString
  | String c r => String c (dropLast r)
  end.

(** [s.slice(n)] *)
Fixpoint sliceFrom (n : nat) (s : string) : string :=
  match n, s with
  | O, _ => s
  | S n', String _ r => sliceFrom n' r
  | S _, EmptyString => EmptyString
  end.

(** [s.split("/")]: never the empty array. *)
Fixpoint splitSlash (s : string) : list string :=
  match s with
  | EmptyString => [EmptyString]
  | String c r =>
      if Ascii.eqb c slash then EmptyString :: splitSlash r
      else match splitSlash r with
           | h :: t => String c h :: t
           | [] => [String c EmptyString]
           end
  end.

(** [xs.join("/")] *)
Definition joinSlash (xs : list string) : string := String.concat "/" xs.

(** [s.replace(/^\/+/, "")] *)
Fixpoint stripLeadingSlashes (s : string) : string :=
  match s with
  | String c r => if Ascii.eqb c slash then stripLeadingSlashes r else s
  | EmptyString => EmptyString
  end.

(** [s.replace(/\/+$/, "")]: the maximal run of slashes at the end goes. *)
Fixpoint stripTrailingSlashes (s : string) : string :=
  match s with
  | EmptyString => EmptyString
  | String c r =>
      match stripTrailingSlashes r with
      | EmptyString => if Ascii.eqb c slash then EmptyString else String c EmptyString
      | r' => String c r'
      end
  end.

(** [s.toLowerCase()], on the ASCII letters.  Its results are only compared
    with ASCII constants (the driver names and the file extensions), into
    which no letter outside ASCII is lower-cased. *)
Definition lowerChar (c : ascii) : ascii :=
  let n := nat_of_ascii c in
  if (65 <=? n) && (n <=? 90) then ascii_of_nat (n + 32) else c.

Fixpoint toLowerCase (s : string) : string :=
  match s with
  | EmptyString => EmptyString
  | String c r => String (lowerChar c) (toLowerCase r)
  end.

(** The white space and line terminators that [trim] removes, by the bytes
    of their UTF-8 encoding: one byte for U+0009 to U+000D and U+0020; two
    bytes, 194 160, for U+00A0; three bytes for U+1680 (225 154 128),
    U+2000 to U+200A (226 128 128 to 226 128 138), U+2028 and U+2029
    (226 128 168 and 169), U+202F (226 128 175), U+205F (226 129 159),
    U+3000 (227 128 128) and U+FEFF (239 187 191).  A byte 160 where no
    UTF-8 sequence can hold it (at the start of the string, after white
    space or after an ASCII byte) is U+00A0 as well, the way a Latin-1
    string holds it. *)
Definition isSpace (c : ascii) : bool :=
  let n := nat_of_ascii c in
  (n =? 32) || ((9 <=? n) && (n <=? 13)) || (n =? 160).

Definition isSpace2 (c1 c2 : ascii) : bool :=
  (nat_of_ascii c1 =? 194) && (nat_of_ascii c2 =? 160).

Definition isSpace3 (c1 c2 c3 : ascii) : bool :=
  let a := nat_of_ascii c1 in
  let b := nat_of_ascii c2 in
  let c := nat_of_ascii c3 in
  ((a =? 225) && (b =? 154) && (c =? 128))
  || ((a =? 226) && (b =? 128)
      && (((128 <=? c) && (c <=? 138)) || (c =? 168) || (c =? 169) || (c =? 175)))
  || ((a =? 226) && (b =? 129) && (c =? 159))
  || ((a =? 227) && (b =? 128) && (c =? 128))
  || ((a =? 239) && (b =? 187) && (c =? 191)).

(** [s.trimStart()] *)
Fixpoint trimStart (s : string) : string :=
  match s with
  | EmptyString => EmptyString
  | String c1 r1 =>
      if isSpace c1 then trimStart r1
      else
        match r1 with
        | EmptyString => s
        | String c2 r2 =>
            if isSpace2 c1 c2 then trimStart r2
            else
              match r2 with
              | EmptyString => s
              | String c3 r3 => if isSpace3 c1 c2 c3 then trimStart r3 else s
              end
        end
  end.

(** A string of white space only. *)
Definition blank (s : string) : bool := negb (nonEmpty (trimStart s)).


(** Whether a white space tail may start at [c], the byte before it being
    [prev]: a byte 160 after a byte that is not ASCII is the end of a
    character that started before it. *)
Definition tailStart (prev c : ascii) : bool :=
  negb (nat_of_ascii c =? 160) || (nat_of_ascii prev <? 128).

(** The string up to its white space tail; [prev] is the byte before it. *)
Fixpoint trimEndAfter (prev : ascii) (s : string) : string :=
  match s with
  | EmptyString => EmptyString
  | String c r =>
      if blank s && tailStart prev c then EmptyString
      else String c (trimEndAfter c r)
  end.

(** [s.trimEnd()] *)
Definition trimEnd (s : string) : string :=
  match s with
  | EmptyString => EmptyString
  | String c r => if blank s then EmptyString else String c (trimEndAfter c r)
  end.

(** [s.trim()] *)
Definition trim (s : string) : string := trimEnd (trimStart s).

(** The character class of [/^[a-zA-Z0-9._-]+$/]. *)
Definition bucketChar (c : ascii) : bool :=
  let n := nat_of_ascii c in
  ((97 <=? n) && (n <=? 122)) || ((65 <=? n) && (n <=? 90))
  || ((48 <=? n) && (n <=? 57))
  || (n =? 46) || (n =? 95) || (n =? 45).

Fixpoint allChars (f : ascii -> bool) (s : string) : bool :=
  match s with
  | EmptyString => true
  | String c r => f c && allChars f r
  end.

(** [/^[a-zA-Z0-9._-]+$/.test(s)] *)
Definition bucketPattern (s : string) : bool := nonEmpty s && allChars bucketChar s.

(** The number of places where a slash follows a slash. *)
Fixpoint doubledSlashes (s : string) : nat :=
  match s with
  | String a (String b _ as r) =>
      (if Ascii.eqb a slash && Ascii.eqb b slash then 1 else 0) + doubledSlashes r
  | _ => 0
  end.

End Js.

(** ** The process environment *)

Record Env : Type := mkEnv {
  KAN_STORAGE_DRIVER : option string;
  KAN_STORAGE_DIR : option string;
  S3_ENDPOINT : option string;
  S3_ACCESS_KEY_ID : option string;
  S3_SECRET_ACCESS_KEY : option string;
  NEXT_PUBLIC_STORAGE_URL : option string;
  NEXT_PUBLIC_BASE_URL : option string;
  NEXT_PUBLIC_UPLOADS_PATH : option string
}.

Inductive StorageDriver : Type := s3 | fs.

Definition driverName (d : StorageDriver) : string :=
  match d with s3 => "s3" | fs => "fs" end.

(** ** [node:path], POSIX flavour

    [resolve] follows [posix.resolve] of Node's [lib/path.js]: the arguments
    are taken from the right until an absolute one is met (the working
    directory stands at index -1), each non-empty one is prepended with a
    ["/"], and the result is normalised segment by segment.  The working
    directory is an argument of the model. *)
Module NodePath.

Definition sep : string := "/".

Definition isAbsolute (p : string) : bool := Js.startsWithSlash p.

(** The loop of [resolve], from the last argument down to the working
    directory; [acc] is [resolvedPath].  The boolean is [resolvedAbsolute]. *)
Fixpoint collect (cwd : string) (argsFromRight : list string) (acc : string)
  : string * bool :=
  match argsFromRight with
  | [] =>
      if Js.nonEmpty cwd then (cwd ++ "/" ++ acc, isAbsolute cwd)%string
      else (acc, false)
  | p :: rest =>
      if Js.nonEmpty p then
        if isAbsolute p then (p ++ "/" ++ acc, true)%string
        else collect cwd rest (p ++ "/" ++ acc)%string
      else collect cwd rest acc
  end.

Definition isDot (s : string) : bool := String.eqb s ".".
Definition isDotDot (s : string) : bool := String.eqb s "..".

(** [normalizeString]: empty and ["."] segments are skipped, [".."] removes
    the segment before it; at the top it is dropped, or kept when
    [allowAboveRoot].  [stack] holds the segments kept so far, last first. *)
Fixpoint normalizeSegments (allowAboveRoot : bool) (stack segs : list string)
  : list string :=
  match segs with
  | [] => rev stack
  | seg :: rest =>
      if negb (Js.nonEmpty seg) || isDot seg then
        normalizeSegments allowAboveRoot stack rest
      else if isDotDot seg then
        match stack with
        | top :: below =>
            if isDotDot top then
              normalizeSegments allowAboveRoot
                (if allowAboveRoot then seg :: stack else stack) rest
            else normalizeSegments allowAboveRoot below rest
        | [] =>
            normalizeSegments allowAboveRoot
              (if allowAboveRoot then [seg] else []) rest
        end
      else normalizeSegments allowAboveRoot (seg :: stack) rest
  end.

Definition normalizeString (path : string) (allowAboveRoot : bool) : string :=
  Js.joinSlash (normalizeSegments allowAboveRoot [] (Js.splitSlash path)).

(** [path.resolve(...args)] *)
Definition resolve (cwd : string) (args : list string) : string :=
  let '(resolvedPath, resolvedAbsolute) := collect cwd (rev args) "" in
  let normalized := normalizeString resolvedPath (negb resolvedAbsolute) in
  if resolvedAbsolute then ("/" ++ normalized)%string
  else if Js.nonEmpty normalized then normalized else ".".

End NodePath.

(** ** Paths as the file system reads them *)

(** The components of a path: the non-empty pieces between slashes. *)
Definition components (p : string) : list string :=
  filter Js.nonEmpty (Js.splitSlash p).

(** A component that names a directory entry. *)
Definition plainName (s : string) : bool :=
  Js.nonEmpty s && negb (NodePath.isDot s) && negb (NodePath.isDotDot s).

(** A string without a slash, and a normalised path segment. *)
Definition noSlash (s : string) : bool :=
  Js.allChars (fun c => negb (Ascii.eqb c Js.slash)) s.

Definition segment (s : string) : bool := plainName s && noSlash s.

(** A part of a URL as [joinUrl] cleans it: not empty, and with no slash at
    either end. *)
Definition cleanPart (c : string) : Prop :=
  Js.nonEmpty c = true /\ Js.startsWithSlash c = false /\ Js.endsWithSlash c = false.

(** A string with no slash at either end; the empty string is one. *)
Definition bare (c : string) : Prop :=
  Js.startsWithSlash c = false /\ Js.endsWithSlash c = false.

(** [p] lies inside [root]: both are absolute paths, [p] has no ["."] or
    [".."] component and its components extend those of [root]. *)
Definition within (root p : string) : Prop :=
  NodePath.isAbsolute root = true /\
  NodePath.isAbsolute p = true /\
  Forall (fun c => plainName c = true) (components p) /\
  exists rest, components p = (components root ++ rest)%list.

(** [p] is a descendant of [root]: inside it, and not [root] itself. *)
Definition descendant (root p : string) : Prop :=
  NodePath.isAbsolute root = true /\
  NodePath.isAbsolute p = true /\
  Forall (fun c => plainName c = true) (components p) /\
  exists rest, rest <> [] /\ components p = (components root ++ rest)%list.

(** What is left of [ys] after the prefix [xs], when [xs] is a prefix. *)
Fixpoint afterPrefix (xs ys : list string) : option (list string) :=
  match xs, ys with
  | [], _ => Some ys
  | x :: xs', y :: ys' => if String.eqb x y then afterPrefix xs' ys' else None
  | _ :: _, [] => None
  end.

(** The two relations, decided. *)
Definition withinb (root p : string) : bool :=
  NodePath.isAbsolute root && NodePath.isAbsolute p
  && forallb plainName (components p)
  && match afterPrefix (components root) (components p) with
     | Some _ => true
     | None => false
     end.

Definition descendantb (root p : string) : bool :=
  NodePath.isAbsolute root && NodePath.isAbsolute p
  && forallb plainName (components p)
  && match afterPrefix (components root) (components p) with
     | Some (_ :: _) => true
     | _ => false
     end.

(** The root of the uploads: [path.resolve(storageDir, "uploads")]. *)
Definition uploadsRootOf (cwd : string) (e : Env) : string :=
  NodePath.resolve cwd
    [match KAN_STORAGE_DIR e with Some d => d | None => "" end; "uploads"].

(** ** Events and replies *)

Inductive Event : Type :=
| EvStat (p : string)
| EvCreateReadStream (p : string)
| EvUnlink (p : string)
| EvFetch (href : string).

(** The paths a trace touches on the file system. *)
Fixpoint fsPaths (t : list Event) : list string :=
  match t with
  | [] => []
  | EvStat p :: r | EvCreateReadStream p :: r | EvUnlink p :: r => p :: fsPaths r
  | EvFetch _ :: r => fsPaths r
  end.

Definition isFetch (e : Event) : bool :=
  match e with EvFetch _ => true | _ => false end.

(** What a handler answers: a JSON body with a status, an empty body, a
    streamed body (status 200), or an exception that leaves the handler. *)
Inductive Reply : Type :=
| Json (status : nat) (message : string)
| Ended (status : nat)
| Streamed (status : nat)
| Thrown (message : string).

Definition replyStatus (r : Reply) : option nat :=
  match r with
  | Json s _ | Ended s | Streamed s => Some s
  | Thrown _ => None
  end.

(** [fs.stat]: a regular file, something else, or a failure with its code. *)
Inductive StatResult : Type :=
| StatFile (size : nat)
| StatOther
| StatFails (code : option string).

(** A failing call, with the [code] property of the error when it has one. *)
Inductive CallResult : Type :=
| Done
| Fails (code : option string).

Definition codeIs (code : option string) (c : string) : bool :=
  match code with Some x => String.eqb x c | None => false end.

(** The result of a call that may throw. *)
Inductive Result (A : Type) : Type :=
| Ok (a : A)
| Throw (message : string).
Arguments Ok {A} a.
Arguments Throw {A} message.

(** Why a promise is rejected: with an [Error], of which the message is
    kept, or with a value that is not an [Error]. *)
Inductive Reason : Type :=
| ErrorWith (message : string)
| NotAnError.

(** A settled promise. *)
Inductive Settled (A : Type) : Type :=
| Fulfilled (value : A)
| Rejected (reason : Reason).
Arguments Fulfilled {A} value.
Arguments Rejected {A} reason.

(** How [deleteObject] ends: normally, with an error of its own, or with the
    error of the failed call, thrown again unchanged. *)
Inductive Outcome : Type :=
| Returns
| Raises (message : string)
| Rethrows (code : option string).

(** ** [packages/shared/src/utils/s3.ts] *)
Module S3Utils.

Definition normalizePublicPath (pathname : option string) (fallback : string)
  : string :=
  let trimmed := Js.trim (match pathname with Some p => p | None => "" end) in
  let value := if Js.nonEmpty trimmed then trimmed else fallback in
  if String.eqb value "/" then ""
  else
    let withLeadingSlash :=
      if Js.startsWithSlash value then value else ("/" ++ value)%string in
    if Js.endsWithSlash withLeadingSlash then Js.dropLast withLeadingSlash
    else withLeadingSlash.

(** [base.endsWith("/") ? base.slice(0, -1) : base] *)
Definition trimmedBase (base : string) : string :=
  if Js.endsWithSlash base then Js.dropLast base else base.

(** The [cleaned] array of [joinUrl]. *)
Definition cleaned (parts : list string) : list string :=
  filter Js.nonEmpty
    (map (fun p => Js.stripTrailingSlashes (Js.stripLeadingSlashes p))
       (filter Js.nonEmpty parts)).

Definition joinUrl (base : string) (parts : list string) : string :=
  match cleaned parts with
  | [] => trimmedBase base
  | cs => (trimmedBase base ++ "/" ++ Js.joinSlash cs)%string
  end.

Definition getStorageDriver (e : Env) : StorageDriver :=
  let explicit := option_map Js.toLowerCase (KAN_STORAGE_DRIVER e) in
  match explicit with
  | Some x =>
      if String.eqb x "fs" then fs
      else if String.eqb x "s3" then s3
      else if Js.truthy (S3_ENDPOINT e) then s3
      else if Js.truthy (KAN_STORAGE_DIR e) then fs
      else s3
  | None =>
      if Js.truthy (S3_ENDPOINT e) then s3
      else if Js.truthy (KAN_STORAGE_DIR e) then fs
      else s3
  end.

Definition getUploadsPublicPath (e : Env) : string :=
  normalizePublicPath (NEXT_PUBLIC_UPLOADS_PATH e) "/uploads".

(** [null] is [None]. *)
Definition getPublicObjectUrl (e : Env) (bucket key : string) : option string :=
  match NEXT_PUBLIC_STORAGE_URL e with
  | Some storageUrl =>
      if Js.nonEmpty storageUrl then
        Some (joinUrl storageUrl [getUploadsPublicPath e; bucket; key])
      else None
  | None => None
  end.

Section WithServices.

(** [getSignedUrl(client, new GetObjectCommand({Bucket, Key}), {expiresIn})]
    of the AWS SDK. *)
Variable getSignedUrl : Env -> string -> string -> nat -> Result string.

Definition generateDownloadUrl (e : Env) (bucket key : string)
  (expiresIn : nat) : Result string :=
  match getStorageDriver e with
  | fs =>
      match getPublicObjectUrl e bucket key with
      | Some url =>
          if Js.nonEmpty url then Ok url
          else Throw "Storage URL not configured"
      | None => Throw "Storage URL not configured"
      end
  | s3 => getSignedUrl e bucket key expiresIn
  end.

(** [unlink] of [node:fs/promises] and [client.send(new
    DeleteObjectCommand(...))]. *)
Variable unlink : string -> CallResult.
Variable sendDeleteObject : string -> string -> CallResult.

Definition deleteObject (cwd : string) (e : Env) (bucket key : string)
  : list Event * Outcome :=
  match getStorageDriver e with
  | fs =>
      match KAN_STORAGE_DIR e with
      | Some storageDir =>
          if Js.nonEmpty storageDir then
            let uploadsRoot := NodePath.resolve cwd [storageDir; "uploads"] in
            let candidate :=
              NodePath.resolve cwd
                (uploadsRoot :: bucket :: filter Js.nonEmpty (Js.splitSlash key)) in
            if negb (Js.startsWith candidate (uploadsRoot ++ NodePath.sep))
               && negb (String.eqb candidate uploadsRoot)
            then ([], Raises "Invalid storage key")
            else
              match unlink candidate with
              | Done => ([EvUnlink candidate], Returns)
              | Fails code =>
                  if codeIs code "ENOENT" then ([EvUnlink candidate], Returns)
                  else ([EvUnlink candidate], Rethrows code)
              end
          else ([], Raises "KAN_STORAGE_DIR is required for fs storage")
      | None => ([], Raises "KAN_STORAGE_DIR is required for fs storage")
      end
  | s3 =>
      match sendDeleteObject bucket key with
      | Done => ([], Returns)
      | Fails code => ([], Rethrows code)
      end
  end.

End WithServices.

End S3Utils.

(** A value of [req.query]: absent, a string, or an array of strings. *)
Inductive Query : Type :=
| QUndefined
| QString (s : string)
| QArray (xs : list string).

(** What becomes of a stream piped into the response. *)
Inductive StreamResult : Type :=
| StreamCompletes
| StreamErrorsBeforeHeaders
| StreamErrorsAfterHeaders.

(** [keyParts.some((p) => p.length === 0 || p === "." || p === "..")] *)
Definition badKeyPart (p : string) : bool :=
  negb (Js.nonEmpty p) || NodePath.isDot p || NodePath.isDotDot p.

(** ** The upload file server *)
Module UploadServer.

Record Request : Type := mkRequest {
  method : string;
  queryPath : Query
}.

Record World : Type := mkWorld {
  stat : string -> StatResult;
  createReadStream : string -> StreamResult
}.

(** [configuredDriver ?? (storageDir ? "fs" : s3Endpoint ? "s3" : "s3")] *)
Definition driver (e : Env) : string :=
  match KAN_STORAGE_DRIVER e with
  | Some configuredDriver => configuredDriver
  | None =>
      if Js.truthy (KAN_STORAGE_DIR e) then "fs"
      else if Js.truthy (S3_ENDPOINT e) then "s3" else "s3"
  end.

Definition parts (q : Query) : list string :=
  match q with
  | QArray xs => xs
  | QString s => [s]
  | QUndefined => []
  end.

Definition serve (cwd storageDir : string) (w : World) (req : Request)
  : list Event * Reply :=
  match parts (queryPath req) with
  | [] => ([], Json 400 "Invalid path")
  | bucket :: keyParts =>
      if negb (Js.nonEmpty bucket) || (length keyParts =? 0) then
        ([], Json 400 "Invalid path")
      else if negb (Js.bucketPattern bucket) then
        ([], Json 400 "Invalid bucket")
      else if existsb badKeyPart keyParts then
        ([], Json 400 "Invalid key")
      else
        let uploadsRoot := NodePath.resolve cwd [storageDir; "uploads"] in
        let filePath := NodePath.resolve cwd (uploadsRoot :: bucket :: keyParts) in
        if negb (Js.startsWith filePath (uploadsRoot ++ NodePath.sep)) then
          ([], Json 400 "Invalid path")
        else
          match stat w filePath with
          | StatFile _ =>
              if String.eqb (method req) "HEAD" then ([EvStat filePath], Ended 200)
              else
                match createReadStream w filePath with
                | StreamCompletes | StreamErrorsAfterHeaders =>
                    ([EvStat filePath; EvCreateReadStream filePath], Streamed 200)
                | StreamErrorsBeforeHeaders =>
                    ([EvStat filePath; EvCreateReadStream filePath],
                     Json 500 "Failed to read file")
                end
          | StatOther => ([EvStat filePath], Json 404 "Not found")
          | StatFails code =>
              if codeIs code "ENOENT" then ([EvStat filePath], Json 404 "Not found")
              else ([EvStat filePath], Json 500 "Internal server error")
          end
  end.

Definition handler (cwd : string) (e : Env) (w : World) (req : Request)
  : list Event * Reply :=
  if negb (String.eqb (method req) "GET") && negb (String.eqb (method req) "HEAD")
  then ([], Json 405 "Method not allowed")
  else if negb (String.eqb (driver e) "fs") then ([], Json 404 "Not found")
  else
    match KAN_STORAGE_DIR e with
    | Some storageDir =>
        if Js.nonEmpty storageDir then serve cwd storageDir w req
        else ([], Json 500 "KAN_STORAGE_DIR not configured")
    | None => ([], Json 500 "KAN_STORAGE_DIR not configured")
    end.

End UploadServer.

(** ** The attachment downloader *)
Module Downloader.

(** The fields of a parsed [URL] the handler reads. *)
Record Url : Type := mkUrl {
  href : string;
  protocol : string;
  origin : string;
  pathname : string
}.

Inductive FetchResult : Type :=
| FetchThrows
| FetchResponse (status : nat) (hasBody : bool).

(** [Response.ok]: the status is in the range 200-299. *)
Definition ok (status : nat) : bool := (200 <=? status) && (status <=? 299).

Record Request : Type := mkRequest {
  method : string;
  queryUrl : Query;
  queryFilename : Query
}.

(** The outside world of the handler.  [headersSentOnFailure] tells whether
    a pipeline that fails had already written to the response: then
    [res.status(...).json(...)] of the [catch] block throws
    [ERR_HTTP_HEADERS_SENT], which leaves the handler. *)
Record World : Type := mkWorld {
  stat : string -> StatResult;
  pipelineFile : string -> CallResult;
  fetch : Url -> FetchResult;
  pipelineUpstream : Url -> CallResult;
  headersSentOnFailure : bool
}.

Definition headersSentError : string := "ERR_HTTP_HEADERS_SENT".

Definition normalizeUploadsPath (pathname : option string) : string :=
  let trimmed := Js.trim (match pathname with Some p => p | None => "" end) in
  let value := if Js.nonEmpty trimmed then trimmed else "/uploads" in
  if String.eqb value "/" then ""
  else
    let withLeadingSlash :=
      if Js.startsWithSlash value then value else ("/" ++ value)%string in
    if Js.endsWithSlash withLeadingSlash then Js.dropLast withLeadingSlash
    else withLeadingSlash.

Definition getStorageDriver (e : Env) : string :=
  match KAN_STORAGE_DRIVER e with
  | Some configuredDriver => configuredDriver
  | None =>
      if Js.truthy (KAN_STORAGE_DIR e) then "fs"
      else if Js.truthy (S3_ENDPOINT e) then "s3" else "s3"
  end.

Section WithPlatform.

(** [new URL(s)] of the platform ([None] when it throws) and
    [decodeURIComponent] ([None] when it throws a [URIError]). *)
Variable parseUrl : string -> option Url.
Variable decodeURIComponent : string -> option string.

(** The origins of the two configured URLs that parse; the source keeps
    them in a [Set], of which only [size > 0] and [has] are used. *)
Definition getAllowedOrigins (e : Env) : list string :=
  let candidates :=
    filter Js.nonEmpty
      (flat_map (fun v => match v with Some s => [s] | None => [] end)
         [NEXT_PUBLIC_STORAGE_URL e; NEXT_PUBLIC_BASE_URL e]) in
  flat_map
    (fun candidate =>
       match parseUrl candidate with
       | Some u => [origin u]
       | None => []
       end)
    candidates.

Definition has (origins : list string) (o : string) : bool :=
  existsb (String.eqb o) origins.

Fixpoint decodeAll (xs : list string) : option (list string) :=
  match xs with
  | [] => Some []
  | x :: r =>
      match decodeURIComponent x with
      | Some d =>
          match decodeAll r with
          | Some ds => Some (d :: ds)
          | None => None
          end
      | None => None
      end
  end.

(** The branch that serves a file of the uploads directory, from the
    decoded path segments on. *)
Definition serveLocal (cwd storageDir : string) (w : World)
  (parts : list string) : list Event * Reply :=
  match parts with
  | [] => ([], Json 400 "Invalid upload path")
  | bucket :: keyParts =>
      if negb (Js.nonEmpty bucket) || (length keyParts =? 0) then
        ([], Json 400 "Invalid upload path")
      else if negb (Js.bucketPattern bucket) then
        ([], Json 400 "Invalid bucket")
      else if existsb badKeyPart keyParts then
        ([], Json 400 "Invalid key")
      else
        let uploadsRoot := NodePath.resolve cwd [storageDir; "uploads"] in
        let filePath := NodePath.resolve cwd (uploadsRoot :: bucket :: keyParts) in
        if negb (Js.startsWith filePath (uploadsRoot ++ NodePath.sep)) then
          ([], Json 400 "Invalid path")
        else
          match stat w filePath with
          | StatFile _ =>
              match pipelineFile w filePath with
              | Done =>
                  ([EvStat filePath; EvCreateReadStream filePath], Streamed 200)
              | Fails code =>
                  if headersSentOnFailure w then
                    ([EvStat filePath; EvCreateReadStream filePath],
                     Thrown headersSentError)
                  else if codeIs code "ENOENT" then
                    ([EvStat filePath; EvCreateReadStream filePath],
                     Json 404 "Not found")
                  else
                    ([EvStat filePath; EvCreateReadStream filePath],
                     Json 500 "Failed to download attachment")
              end
          | StatOther => ([EvStat filePath], Json 404 "Not found")
          | StatFails code =>
              if codeIs code "ENOENT" then ([EvStat filePath], Json 404 "Not found")
              else ([EvStat filePath], Json 500 "Failed to download attachment")
          end
  end.

(** The fallback: fetch from upstream and stream to the client. *)
Definition fetchUpstream (w : World) (parsedUrl : Url) : list Event * Reply :=
  match fetch w parsedUrl with
  | FetchThrows =>
      ([EvFetch (href parsedUrl)], Json 500 "Failed to download attachment")
  | FetchResponse status hasBody =>
      if negb (ok status) then
        ([EvFetch (href parsedUrl)], Json status "Failed to fetch attachment")
      else if negb hasBody then
        ([EvFetch (href parsedUrl)], Json 502 "Upstream returned no body")
      else
        match pipelineUpstream w parsedUrl with
        | Done => ([EvFetch (href parsedUrl)], Streamed 200)
        | Fails _ =>
            if headersSentOnFailure w then
              ([EvFetch (href parsedUrl)], Thrown headersSentError)
            else
              ([EvFetch (href parsedUrl)], Json 500 "Failed to download attachment")
        end
  end.

(** The handler wrapped by [withRateLimit]. *)
Definition handler (cwd : string) (e : Env) (w : World) (req : Request)
  : list Event * Reply :=
  if negb (String.eqb (method req) "GET") then
    ([], Json 405 "Method not allowed")
  else
    match queryUrl req with
    | QString url =>
        if negb (Js.nonEmpty url) then ([], Json 400 "url parameter is required")
        else
          match parseUrl url with
          | None => ([], Json 400 "Invalid url")
          | Some parsedUrl =>
              if negb (String.eqb (protocol parsedUrl) "http:")
                 && negb (String.eqb (protocol parsedUrl) "https:")
              then ([], Json 400 "Invalid url protocol")
              else
                let allowedOrigins := getAllowedOrigins e in
                if (0 <? length allowedOrigins)
                   && negb (has allowedOrigins (origin parsedUrl))
                then ([], Json 400 "Disallowed url")
                else if String.eqb (getStorageDriver e) "fs" then
                  match KAN_STORAGE_DIR e with
                  | Some storageDir =>
                      if Js.nonEmpty storageDir then
                        let uploadsPath :=
                          normalizeUploadsPath (NEXT_PUBLIC_UPLOADS_PATH e) in
                        if Js.nonEmpty uploadsPath
                           && Js.startsWith (pathname parsedUrl)
                                (uploadsPath ++ "/")
                        then
                          let remainder :=
                            Js.sliceFrom (String.length uploadsPath + 1)
                              (pathname parsedUrl) in
                          match decodeAll
                                  (filter Js.nonEmpty (Js.splitSlash remainder)) with
                          | Some parts => serveLocal cwd storageDir w parts
                          | None => ([], Thrown "URIError: URI malformed")
                          end
                        else fetchUpstream w parsedUrl
                      else ([], Json 500 "KAN_STORAGE_DIR not configured")
                  | None => ([], Json 500 "KAN_STORAGE_DIR not configured")
                  end
                else fetchUpstream w parsedUrl
          end
    | _ => ([], Json 400 "url parameter is required")
    end.

End WithPlatform.

End Downloader.

(** ** The health router *)
Module Health.

Inductive Status : Type := StatusOk | StatusError.
Inductive StorageStatus : Type :=
| StorageOk | StorageError | StorageNotConfigured.

Record HealthReport : Type := mkHealthReport {
  status : Status;
  database : Status;
  storage : StorageStatus
}.

(** The dependencies the checks reach: the database ([SELECT 1]), the
    file system and the object store ([HeadBucket] on a bucket name). *)
Record World : Type := mkWorld {
  dbExecuteSelect1 : CallResult;
  mkdirRecursive : string -> CallResult;
  access : string -> CallResult;
  headBucket : option string -> CallResult
}.

Definition succeeded (r : CallResult) : bool :=
  match r with Done => true | Fails _ => false end.

Definition checkDatabaseConnection (w : World) : bool :=
  succeeded (dbExecuteSelect1 w).

Section WithBuckets.

(** [env("NEXT_PUBLIC_AVATAR_BUCKET_NAME")] and
    [env("NEXT_PUBLIC_ATTACHMENTS_BUCKET_NAME")]. *)
Variables avatarBucketName attachmentsBucketName : option string.

Definition checkStorageConnection (cwd : string) (e : Env) (w : World) : bool :=
  match S3Utils.getStorageDriver e with
  | fs =>
      match KAN_STORAGE_DIR e with
      | Some storageDir =>
          if Js.nonEmpty storageDir then
            let uploadsRoot := NodePath.resolve cwd [storageDir; "uploads"] in
            if succeeded (mkdirRecursive w uploadsRoot) then
              succeeded (access w uploadsRoot)
            else false
          else false
      | None => false
      end
  | s3 =>
      if negb (Js.truthy (S3_ENDPOINT e))
         || negb (Js.truthy (S3_ACCESS_KEY_ID e))
         || negb (Js.truthy (S3_SECRET_ACCESS_KEY e))
      then true
      else if succeeded (headBucket w avatarBucketName) then
        succeeded (headBucket w attachmentsBucketName)
      else false
  end.

Definition storageConfigured (e : Env) : bool :=
  match S3Utils.getStorageDriver e with
  | fs => Js.truthy (KAN_STORAGE_DIR e)
  | s3 =>
      Js.truthy (S3_ENDPOINT e) && Js.truthy (S3_ACCESS_KEY_ID e)
      && Js.truthy (S3_SECRET_ACCESS_KEY e)
  end.

Definition health (cwd : string) (e : Env) (w : World) : HealthReport :=
  let dbHealthy := checkDatabaseConnection w in
  let storageHealthy := checkStorageConnection cwd e w in
  let configured := storageConfigured e in
  {| status :=
       if dbHealthy && (negb configured || storageHealthy)
       then StatusOk else StatusError;
     database := if dbHealthy then StatusOk else StatusError;
     storage :=
       if negb configured then StorageNotConfigured
       else if storageHealthy then StorageOk else StorageError |}.

End WithBuckets.

(** The object the [stats] query builds; a name bound past the end of the
    destructured array would be [undefined], here [None]. *)
Record StatsObject : Type := mkStatsObject {
  users : option nat;
  workspaces : option nat;
  boards : option nat;
  lists : option nat;
  cards : option nat;
  cardComments : option nat;
  checklistItems : option nat;
  checklists : option nat;
  labels : option nat;
  cardAttachments : option nat;
  cardActivities : option nat;
  activeMembers : option nat;
  activeInviteLinks : option nat;
  imports : option nat;
  cardActivityLogs : option nat
}.

(** The values of the promises, in their order, when all are fulfilled;
    otherwise the first rejection in the order of the array. *)
Fixpoint allInOrder (ps : list (Settled nat)) : Settled (list nat) :=
  match ps with
  | [] => Fulfilled []
  | Fulfilled v :: r =>
      match allInOrder r with
      | Fulfilled vs => Fulfilled (v :: vs)
      | Rejected reason => Rejected reason
      end
  | Rejected reason :: _ => Rejected reason
  end.

(** The first rejection among the promises at the positions [order]. *)
Fixpoint firstRejection (ps : list (Settled nat)) (order : list nat)
  : option Reason :=
  match order with
  | [] => None
  | i :: rest =>
      match nth_error ps i with
      | Some (Rejected reason) => Some reason
      | _ => firstRejection ps rest
      end
  end.

(** [Promise.all]: the values in the order of the promises, or the
    rejection that comes first in time.  [order] lists the positions of the
    promises in the order in which they settle; the promises it leaves out
    settle after the others, in the order of the array. *)
Definition promiseAll (ps : list (Settled nat)) (order : list nat)
  : Settled (list nat) :=
  match firstRejection ps order with
  | Some reason => Rejected reason
  | None => allInOrder ps
  end.

(** [error instanceof Error ? error.message : "Unknown error"] *)
Definition errorText (reason : Reason) : string :=
  match reason with
  | ErrorWith message => message
  | NotAnError => "Unknown error"
  end.

Section WithRepositories.

(** The database handle and the count queries of the repositories. *)
Variable Db : Type.
Variables userRepo_getCount workspaceRepo_getCount boardRepo_getCount
  listRepo_getCount cardRepo_getCount cardCommentRepo_getCount
  checklistRepo_getCountItems checklistRepo_getCount labelRepo_getCount
  cardAttachmentRepo_getCount cardActivityRepo_getCount
  memberRepo_getActiveCount inviteLinkRepo_getActiveCount
  importRepo_getCount : Db -> Settled nat.

(** The sixteen promises handed to [Promise.all]. *)
Definition countQueries (db : Db) : list (Settled nat) :=
  [ userRepo_getCount db;
    workspaceRepo_getCount db;
    boardRepo_getCount db;
    listRepo_getCount db;
    cardRepo_getCount db;
    cardCommentRepo_getCount db;
    checklistRepo_getCountItems db;
    checklistRepo_getCount db;
    labelRepo_getCount db;
    cardAttachmentRepo_getCount db;
    cardActivityRepo_getCount db;
    memberRepo_getActiveCount db;
    inviteLinkRepo_getActiveCount db;
    importRepo_getCount db;
    memberRepo_getActiveCount db;
    cardActivityRepo_getCount db ].

(** The fifteen names of the array pattern, bound by position. *)
Definition destructure (counts : list nat) : StatsObject :=
  let usersCount := nth_error counts 0 in
  let workspacesCount := nth_error counts 1 in
  let boardsCount := nth_error counts 2 in
  let listsCount := nth_error counts 3 in
  let cardsCount := nth_error counts 4 in
  let cardCommentsCount := nth_error counts 5 in
  let checklistItemsCount := nth_error counts 6 in
  let checklistsCount := nth_error counts 7 in
  let labelsCount := nth_error counts 8 in
  let cardAttachmentsCount := nth_error counts 9 in
  let cardActivitiesCount := nth_error counts 10 in
  let activeMembersCount := nth_error counts 11 in
  let activeInviteLinksCount := nth_error counts 12 in
  let importsCount := nth_error counts 13 in
  let cardActivityLogsCount := nth_error counts 14 in
  {| users := usersCount;
     workspaces := workspacesCount;
     boards := boardsCount;
     lists := listsCount;
     cards := cardsCount;
     cardComments := cardCommentsCount;
     checklistItems := checklistItemsCount;
     checklists := checklistsCount;
     labels := labelsCount;
     cardAttachments := cardAttachmentsCount;
     cardActivities := cardActivitiesCount;
     activeMembers := activeMembersCount;
     activeInviteLinks := activeInviteLinksCount;
     imports := importsCount;
     cardActivityLogs := cardActivityLogsCount |}.

(** The query; [order] is the order in which the sixteen promises settle. *)
Definition stats (order : list nat) (db : Db) : Result StatsObject :=
  match promiseAll (countQueries db) order with
  | Fulfilled counts => Ok (destructure counts)
  | Rejected reason =>
      Throw ("Failed to retrieve statistics: " ++ errorText reason)
  end.

End WithRepositories.

End Health.

(** ** Sample configurations and worlds *)
Module Sample.

Definition emptyEnv : Env := mkEnv None None None None None None None None.

(** No explicit driver, a storage directory and an S3 endpoint. *)
Definition envBoth : Env :=
  mkEnv None (Some "/data") (Some "http://minio:9000") None None None None None.

(** The file system driver with a public storage URL. *)
Definition envFs : Env :=
  mkEnv (Some "fs") (Some "/data") None None None
    (Some "https://kan.example") (Some "https://kan.example") None.

Definition envFsUrl (storageUrl : string) : Env :=
  mkEnv (Some "fs") (Some "/data") None None None (Some storageUrl) None None.

Definition cwd : string := "/srv/kan".

(** [new URL] on the URLs used below. *)
Definition parseUrl (s : string) : option Downloader.Url :=
  if String.eqb s "https://kan.example" then
    Some (Downloader.mkUrl "https://kan.example/" "https:" "https://kan.example" "/")
  else if String.eqb s "https://evil.example/x" then
    Some (Downloader.mkUrl "https://evil.example/x" "https:" "https://evil.example" "/x")
  else if String.eqb s "https://kan.example/uploads/avatars/a.png" then
    Some (Downloader.mkUrl "https://kan.example/uploads/avatars/a.png" "https:"
            "https://kan.example" "/uploads/avatars/a.png")
  else if String.eqb s "https://kan.example/uploads/avatars/x%2F..%2F..%2F..%2Fpasswd" then
    Some (Downloader.mkUrl
            "https://kan.example/uploads/avatars/x%2F..%2F..%2F..%2Fpasswd" "https:"
            "https://kan.example" "/uploads/avatars/x%2F..%2F..%2F..%2Fpasswd")
  else None.

(** [decodeURIComponent] on the segments used below. *)
Definition decodeURIComponent (s : string) : option string :=
  if String.eqb s "x%2F..%2F..%2F..%2Fpasswd" then Some "x/../../../passwd"
  else Some s.

(** A file system without files, where every call fails with [ENOENT]. *)
Definition emptyDisk : UploadServer.World :=
  UploadServer.mkWorld (fun _ => StatFails (Some "ENOENT"))
    (fun _ => StreamErrorsBeforeHeaders).

(** An upstream that answers every fetch with the given status. *)
Definition upstream (status : nat) : Downloader.World :=
  Downloader.mkWorld (fun _ => StatFails (Some "ENOENT"))
    (fun _ => Fails (Some "ENOENT"))
    (fun _ => Downloader.FetchResponse status true)
    (fun _ => Done) false.

Definition getEvilUrl : Downloader.Request :=
  Downloader.mkRequest "GET" (QString "https://evil.example/x") QUndefined.

(** [POST /api/uploads/avatars/../secret] *)
Definition postDotDot : UploadServer.Request :=
  UploadServer.mkRequest "POST" (QArray ["avatars"; ".."; "secret"]).

(** [GET /api/uploads/avatars/../secret] *)
Definition getDotDot : UploadServer.Request :=
  UploadServer.mkRequest "GET" (QArray ["avatars"; ".."; "secret"]).

(** U+00A0, U+2028 and the letter U+00E0, in UTF-8. *)
Definition noBreakSpace : string :=
  String (ascii_of_nat 194) (String (ascii_of_nat 160) EmptyString).

Definition lineSeparator : string :=
  String (ascii_of_nat 226)
    (String (ascii_of_nat 128) (String (ascii_of_nat 168) EmptyString)).

Definition aGrave : string :=
  String (ascii_of_nat 195) (String (ascii_of_nat 160) EmptyString).

(** [GET /api/uploads/avatars/x%2F..%2Fy]: the route hands the decoded
    segment over as one element of the path array. *)
Definition getHiddenDotDot : UploadServer.Request :=
  UploadServer.mkRequest "GET" (QArray ["avatars"; "x/../y"]).

(** A disk that holds the one file [/data/uploads/avatars/y]. *)
Definition diskWithY : UploadServer.World :=
  UploadServer.mkWorld
    (fun p => if String.eqb p "/data/uploads/avatars/y"
              then StatFile 7 else StatFails (Some "ENOENT"))
    (fun _ => StreamCompletes).

(** [GET /api/uploads/../secret.txt]: the bucket pattern admits [".."]. *)
Definition getParentBucket : UploadServer.Request :=
  UploadServer.mkRequest "GET" (QArray [".."; "secret.txt"]).

(** A download whose key hides a traversal behind [%2F]. *)
Definition getEncodedTraversal : Downloader.Request :=
  Downloader.mkRequest "GET"
    (QString "https://kan.example/uploads/avatars/x%2F..%2F..%2F..%2Fpasswd")
    QUndefined.

Definition unlinkIsDirectory (_ : string) : CallResult := Fails (Some "EISDIR").

Definition unlinkMissingAvatar : string -> CallResult :=
  fun p => if String.eqb p "/data/uploads/avatars/a.png"
           then Fails (Some "ENOENT") else Done.

(** Dependencies of the health check: all reachable, database down, file
    system refusing access. *)
Definition allUp : Health.World :=
  Health.mkWorld Done (fun _ => Done) (fun _ => Done) (fun _ => Done).

Definition databaseDown : Health.World :=
  Health.mkWorld (Fails None) (fun _ => Done) (fun _ => Done) (fun _ => Done).

Definition diskDenied : Health.World :=
  Health.mkWorld Done (fun _ => Fails (Some "EACCES")) (fun _ => Done)
    (fun _ => Done).

Definition noSignedUrl (_ : Env) (_ _ : string) (_ : nat) : Result string :=
  Throw "no object store".

Definition unlinkMissing (_ : string) : CallResult := Fails (Some "ENOENT").
Definition unlinkDenied (_ : string) : CallResult := Fails (Some "EACCES").
Definition sendNothing (_ _ : string) : CallResult := Done.

(** A database state is the table of its row counts. *)
Record Counts : Type := mkCounts {
  members : nat;
  activities : nat;
  others : nat
}.

Definition someCounts : Counts := mkCounts 3 7 1.

End Sample.

(** ** More of the sources

    The rest of [s3.ts], the content types of the two handlers, the edge
    middleware and the request context of the RPC layer. *)

(** *** More string primitives *)
Module JsMore.

Definition comma : ascii := ","%char.

(** [s.split(",")]: never the empty array. *)
Fixpoint splitComma (s : string) : list string :=
  match s with
  | EmptyString => [EmptyString]
  | String c r =>
      if Ascii.eqb c comma then EmptyString :: splitComma r
      else match splitComma r with
           | h :: t => String c h :: t
           | [] => [String c EmptyString]
           end
  end.

(** [xs[0]] of a non-empty array of strings. *)
Definition first (xs : list string) : string :=
  match xs with
  | x :: _ => x
  | [] => EmptyString
  end.

(** A run of [n] slashes. *)
Fixpoint slashes (n : nat) : string :=
  match n with
  | O => EmptyString
  | S n' => String Js.slash (slashes n')
  end.


End JsMore.

(** *** The rest of [packages/shared/src/utils/s3.ts] *)
Module S3Urls.

Section WithSigner.

(** [getSignedUrl] on a [PutObjectCommand] and on a [GetObjectCommand]. *)
Variable getSignedPutUrl : Env -> string -> string -> string -> nat -> Result string.
Variable getSignedUrl : Env -> string -> string -> nat -> Result string.

Definition generateUploadUrl (e : Env) (bucket key contentType : string)
  (expiresIn : nat) : Result string :=
  match S3Utils.getStorageDriver e with
  | fs => Throw "generateUploadUrl is not supported for fs storage"
  | s3 => getSignedPutUrl e bucket key contentType expiresIn
  end.

(** [env("NEXT_PUBLIC_AVATAR_BUCKET_NAME")] and
    [env("NEXT_PUBLIC_ATTACHMENTS_BUCKET_NAME")]. *)
Variables avatarBucketName attachmentsBucketName : option string.

(** [null] and [undefined] keys are [None]; the [null] result is [None]. *)
Definition generateAvatarUrl (e : Env) (imageKey : option string)
  (expiresIn : nat) : option string :=
  match imageKey with
  | None => None
  | Some key =>
      if negb (Js.nonEmpty key) then None
      else if Js.startsWith key "http://" || Js.startsWith key "https://" then
        Some key
      else
        match avatarBucketName with
        | None => None
        | Some bucket =>
            if negb (Js.nonEmpty bucket) then None
            else
              match S3Utils.getStorageDriver e with
              | fs => S3Utils.getPublicObjectUrl e bucket key
              | s3 =>
                  match S3Utils.generateDownloadUrl getSignedUrl e bucket key
                          expiresIn with
                  | Ok url => Some url
                  | Throw _ => None
                  end
              end
        end
  end.

Definition generateAttachmentUrl (e : Env) (attachmentKey : option string)
  (expiresIn : nat) : option string :=
  match attachmentKey with
  | None => None
  | Some key =>
      if negb (Js.nonEmpty key) then None
      else
        match attachmentsBucketName with
        | None => None
        | Some bucket =>
            if negb (Js.nonEmpty bucket) then None
            else
              match S3Utils.getStorageDriver e with
              | fs => S3Utils.getPublicObjectUrl e bucket key
              | s3 =>
                  match S3Utils.generateDownloadUrl getSignedUrl e bucket key
                          expiresIn with
                  | Ok url => Some url
                  | Throw _ => None
                  end
              end
        end
  end.

End WithSigner.

End S3Urls.

(** *** Content types of the two handlers *)
Module ContentType.

Section WithExtname.

(** [path.extname] of [node:path]. *)
Variable extname : string -> string.

(** [getContentType] of the upload file server. *)
Definition uploadGetContentType (filePath : string) : string :=
  let ext := Js.toLowerCase (extname filePath) in
  if String.eqb ext ".jpg" then "image/jpeg"
  else if String.eqb ext ".jpeg" then "image/jpeg"
  else if String.eqb ext ".png" then "image/png"
  else if String.eqb ext ".webp" then "image/webp"
  else if String.eqb ext ".gif" then "image/gif"
  else if String.eqb ext ".svg" then "image/svg+xml"
  else if String.eqb ext ".pdf" then "application/pdf"
  else if String.eqb ext ".txt" then "text/plain; charset=utf-8"
  else "application/octet-stream".

(** [getContentType] of the attachment downloader. *)
Definition downloadGetContentType (filePath : string) : string :=
  let ext := Js.toLowerCase (extname filePath) in
  if String.eqb ext ".jpg" then "image/jpeg"
  else if String.eqb ext ".jpeg" then "image/jpeg"
  else if String.eqb ext ".png" then "image/png"
  else if String.eqb ext ".webp" then "image/webp"
  else if String.eqb ext ".gif" then "image/gif"
  else if String.eqb ext ".svg" then "image/svg+xml"
  else if String.eqb ext ".pdf" then "application/pdf"
  else if String.eqb ext ".txt" then "text/plain; charset=utf-8"
  else if String.eqb ext ".json" then "text/plain; charset=utf-8"
  else "application/octet-stream".

End WithExtname.

End ContentType.

(** *** [apps/web/src/middleware.ts] *)
Module Middleware.

(** [null] is [None]. *)
Definition normalizeUploadsPath (pathname : option string) : option string :=
  let trimmed := Js.trim (match pathname with Some p => p | None => "" end) in
  let value := if Js.nonEmpty trimmed then trimmed else "/uploads" in
  if String.eqb value "/" then None
  else
    let withLeadingSlash :=
      if Js.startsWithSlash value then value else ("/" ++ value)%string in
    Some (if Js.endsWithSlash withLeadingSlash then Js.dropLast withLeadingSlash
          else withLeadingSlash).

(** What the middleware answers: a rewrite to another path of the same
    URL, a redirect to a path of the same origin, or [NextResponse.next()]. *)
Inductive Action : Type :=
| Rewrite (pathname : string)
| Redirect (pathname : string)
| Next.

(** [kanEnv] is [process.env.NEXT_PUBLIC_KAN_ENV]; [pathname] is
    [request.nextUrl.pathname]. *)
Definition middleware (e : Env) (kanEnv : option string) (pathname : string)
  : Action :=
  let fallThrough :=
    if String.eqb pathname "/" then
      if negb (match kanEnv with Some v => String.eqb v "cloud" | None => false end)
      then Redirect "/login" else Next
    else Next in
  match normalizeUploadsPath (NEXT_PUBLIC_UPLOADS_PATH e) with
  | Some uploadsPath =>
      if Js.nonEmpty uploadsPath then
        if String.eqb pathname uploadsPath
           || Js.startsWith pathname (uploadsPath ++ "/")
        then
          let remainder := Js.sliceFrom (String.length uploadsPath) pathname in
          Rewrite ("/api/uploads" ++ remainder)
        else fallThrough
      else fallThrough
  | None => fallThrough
  end.

End Middleware.

(** *** The request context of the RPC layer *)
Module Trpc.

(** A [Headers] object, read by lower-case name; [None] is [null]. *)
Definition Headers : Type := string -> option string.

Definition get (headers : Headers) (name : string) : option string := headers name.

Definition set (headers : Headers) (name value : string) : Headers :=
  fun n => if String.eqb n name then Some value else headers n.

(** The body of the loop of [normalizeForwardedHeaders], for one key. *)
Definition normalizeKey (headers : Headers) (key : string) : Headers :=
  match get headers key with
  | None => headers
  | Some raw =>
      if negb (Js.nonEmpty raw) then headers
      else
        let first := Js.trim (JsMore.first (JsMore.splitComma raw)) in
        if Js.nonEmpty first && negb (String.eqb first raw) then set headers key first
        else headers
  end.

Definition forwardedKeys : list string :=
  ["x-forwarded-proto"; "x-forwarded-host"; "x-forwarded-port"].

(** The headers are updated in place, one key after the other. *)
Definition normalizeForwardedHeaders (headers : Headers) : Headers :=
  fold_left normalizeKey forwardedKeys headers.

(** A procedure behind a middleware: its result, or the [TRPCError] with
    code [UNAUTHORIZED]. *)
Inductive Guarded (A : Type) : Type :=
| Proceeds (a : A)
| Unauthorized.
Arguments Proceeds {A} a.
Arguments Unauthorized {A}.

(** [ctx.headers.get("x-admin-api-key") !== env("KAN_ADMIN_API_KEY")]:
    the header is a string or [null], the variable a string or [undefined],
    and [null] differs from [undefined]. *)
Definition adminKeyDiffers (headers : Headers) (adminApiKey : option string) : bool :=
  match get headers "x-admin-api-key", adminApiKey with
  | Some given, Some expected => negb (String.eqb given expected)
  | _, _ => true
  end.

(** [enforceUserIsAdmin] *)
Definition enforceUserIsAdmin {A : Type} (headers : Headers)
  (adminApiKey : option string) (next : A) : Guarded A :=
  if adminKeyDiffers headers adminApiKey then Unauthorized else Proceeds next.

End Trpc.

(** *** More sample requests and worlds *)
Module SampleMore.

(** [GET /api/uploads/avatars/u1/a.png] and the same with [HEAD]. *)
Definition getAvatar : UploadServer.Request :=
  UploadServer.mkRequest "GET" (QArray ["avatars"; "u1"; "a.png"]).

Definition headAvatar : UploadServer.Request :=
  UploadServer.mkRequest "HEAD" (QArray ["avatars"; "u1"; "a.png"]).

(** A disk that holds the one file [/data/uploads/avatars/u1/a.png]. *)
Definition oneFile : UploadServer.World :=
  UploadServer.mkWorld
    (fun p => if String.eqb p "/data/uploads/avatars/u1/a.png"
              then StatFile 42 else StatFails (Some "ENOENT"))
    (fun _ => StreamCompletes).

Definition unlinkOneFile : string -> CallResult :=
  fun p => if String.eqb p "/data/uploads/avatars/u1/a.png"
           then Done else Fails (Some "ENOENT").

End SampleMore.

(** *** What a forwarded header becomes *)

(** The first comma-separated entry of a header value, trimmed, or the
    value itself when that entry is blank. *)
Definition firstForwarded (raw : string) : string :=
  let first := Js.trim (JsMore.first (JsMore.splitComma raw)) in
  if Js.nonEmpty first then first else raw.

(** Request headers as a proxy chain may leave them. *)
Definition proxiedHeaders : Trpc.Headers :=
  fun name =>
    if String.eqb name "x-forwarded-proto" then Some "http, https"
    else if String.eqb name "x-forwarded-host" then Some " kan.example ,10.0.0.7"
    else if String.eqb name "x-admin-api-key" then Some "s3cret"
    else None.

(** * Properties *)

(** ** Driver resolution *)

Lemma driverName_cases (d : StorageDriver) :
  driverName d = "s3" \/ driverName d = "fs".
Proof. destruct d; [left | right]; reflexivity. Qed.

(** The two handlers carry the same copy of the resolution logic. *)
Lemma local_drivers_agree (e : Env) :
  UploadServer.driver e = Downloader.getStorageDriver e.
Proof. reflexivity. Qed.

(** The shared resolver with no explicit driver: the endpoint wins over the
    directory, and [s3] is the default. *)
Lemma shared_driver_unset (e : Env) :
  KAN_STORAGE_DRIVER e = None ->
  (Js.truthy (S3_ENDPOINT e) = true -> S3Utils.getStorageDriver e = s3) /\
  (Js.truthy (S3_ENDPOINT e) = false -> Js.truthy (KAN_STORAGE_DIR e) = true ->
   S3Utils.getStorageDriver e = fs) /\
  (Js.truthy (S3_ENDPOINT e) = false -> Js.truthy (KAN_STORAGE_DIR e) = false ->
   S3Utils.getStorageDriver e = s3).
Proof.
  intros Hd. unfold S3Utils.getStorageDriver. rewrite Hd. simpl.
  repeat split; intros; repeat match goal with H : _ = _ |- _ => rewrite H end;
    reflexivity.
Qed.

(** The handlers' copy with no explicit driver: the directory alone decides. *)
Lemma local_driver_unset (e : Env) :
  KAN_STORAGE_DRIVER e = None ->
  UploadServer.driver e = if Js.truthy (KAN_STORAGE_DIR e) then "fs" else "s3".
Proof.
  intros Hd. unfold UploadServer.driver. rewrite Hd.
  destruct (Js.truthy (KAN_STORAGE_DIR e)); [reflexivity|].
  destruct (Js.truthy (S3_ENDPOINT e)); reflexivity.
Qed.

(** C3. With [KAN_STORAGE_DRIVER] unset and both [S3_ENDPOINT] and
    [KAN_STORAGE_DIR] set, the shared resolver answers [s3], as the claim
    says, but the upload file server and the attachment downloader answer
    ["fs"]: these two components do not resolve the driver as claimed. *)
Theorem handlers_prefer_directory_over_endpoint :
  KAN_STORAGE_DRIVER Sample.envBoth = None /\
  S3_ENDPOINT Sample.envBoth = Some "http://minio:9000" /\
  KAN_STORAGE_DIR Sample.envBoth = Some "/data" /\
  S3Utils.getStorageDriver Sample.envBoth = s3 /\
  UploadServer.driver Sample.envBoth = "fs" /\
  Downloader.getStorageDriver Sample.envBoth = "fs".
Proof. repeat split. Qed.

(** C4. Whenever no driver is configured and both the storage directory
    and the S3 endpoint are non-empty, the shared resolver and the resolvers
    of the two handlers return different drivers. *)
Theorem shared_and_local_driver_differ
  (c1 c2 : ascii) (dir endpoint : string) (k1 k2 u1 u2 u3 : option string) :
  let e := mkEnv None (Some (String c1 dir)) (Some (String c2 endpoint))
             k1 k2 u1 u2 u3 in
  S3Utils.getStorageDriver e = s3 /\
  UploadServer.driver e = "fs" /\
  Downloader.getStorageDriver e = "fs" /\
  driverName (S3Utils.getStorageDriver e) <> UploadServer.driver e /\
  driverName (S3Utils.getStorageDriver e) <> Downloader.getStorageDriver e.
Proof. cbn. repeat split; discriminate. Qed.

(** Where the copies agree: on an explicit driver spelled exactly ["fs"] or
    ["s3"], and, with no explicit driver, unless both the endpoint and the
    directory are set.  (The handlers read the variable as it is; the shared
    resolver lower-cases it and ignores other values.) *)
Lemma driver_agreement (e : Env) :
  driverName (S3Utils.getStorageDriver e) = UploadServer.driver e <->
  (KAN_STORAGE_DRIVER e = Some "fs" \/ KAN_STORAGE_DRIVER e = Some "s3" \/
   (KAN_STORAGE_DRIVER e = None /\
    (Js.truthy (S3_ENDPOINT e) = false \/ Js.truthy (KAN_STORAGE_DIR e) = false))).
Proof.
  unfold UploadServer.driver.
  destruct (KAN_STORAGE_DRIVER e) as [d|] eqn:Hd.
  - split.
    + intros H. destruct (driverName_cases (S3Utils.getStorageDriver e)) as [H1|H1];
        rewrite H1 in H; subst d; auto.
    + intros [H|[H|[H _]]]; try discriminate; injection H as ->;
        unfold S3Utils.getStorageDriver; rewrite Hd; reflexivity.
  - unfold S3Utils.getStorageDriver. rewrite Hd. simpl.
    destruct (Js.truthy (S3_ENDPOINT e)), (Js.truthy (KAN_STORAGE_DIR e)); simpl;
      split; intros H; try reflexivity; try discriminate; auto;
      destruct H as [H|[H|[_ [H|H]]]]; discriminate.
Qed.

(** ** The health endpoint *)

Section HealthFacts.

Variables avatarBucketName attachmentsBucketName : option string.

(** Storage counts as not configured exactly in the two situations the
    endpoint distinguishes. *)
Lemma storage_unconfigured_iff (e : Env) :
  Health.storageConfigured e = false <->
  (S3Utils.getStorageDriver e = fs /\ Js.truthy (KAN_STORAGE_DIR e) = false) \/
  (S3Utils.getStorageDriver e = s3 /\
   (Js.truthy (S3_ENDPOINT e) = false \/ Js.truthy (S3_ACCESS_KEY_ID e) = false \/
    Js.truthy (S3_SECRET_ACCESS_KEY e) = false)).
Proof.
  unfold Health.storageConfigured.
  destruct (S3Utils.getStorageDriver e).
  - rewrite !andb_false_iff. split.
    + intros [[H|H]|H]; right; auto.
    + intros [[H _]|[_ [H|[H|H]]]]; try discriminate; auto.
  - split.
    + intros H; left; auto.
    + intros [[_ H]|[H _]]; [assumption | discriminate].
Qed.

(** C5. The health report has status "ok" exactly when the database
    check succeeds and storage is either not configured (fs driver without
    [KAN_STORAGE_DIR], or s3 driver lacking one of its three variables) or
    its check succeeds; in every other case the status is "error". *)
Theorem health_status_ok_iff (cwd : string) (e : Env) (w : Health.World) :
  let r := Health.health avatarBucketName attachmentsBucketName cwd e w in
  let unconfigured :=
    (S3Utils.getStorageDriver e = fs /\ Js.truthy (KAN_STORAGE_DIR e) = false) \/
    (S3Utils.getStorageDriver e = s3 /\
     (Js.truthy (S3_ENDPOINT e) = false \/ Js.truthy (S3_ACCESS_KEY_ID e) = false \/
      Js.truthy (S3_SECRET_ACCESS_KEY e) = false)) in
  let good :=
    Health.checkDatabaseConnection w = true /\
    (unconfigured \/
     Health.checkStorageConnection avatarBucketName attachmentsBucketName cwd e w
     = true) in
  (Health.status r = Health.StatusOk <-> good) /\
  (Health.status r = Health.StatusError <-> ~ good).
Proof.
  cbv zeta. rewrite <- storage_unconfigured_iff.
  unfold Health.health. cbn [Health.status].
  destruct (Health.checkDatabaseConnection w);
    destruct (Health.storageConfigured e);
    destruct (Health.checkStorageConnection _ _ cwd e w); cbn;
    intuition (try discriminate; try congruence).
Qed.

End HealthFacts.

(** ** The stats endpoint *)

Lemma allInOrder_length (ps : list (Settled nat)) (vs : list nat) :
  Health.allInOrder ps = Fulfilled vs -> length vs = length ps.
Proof.
  revert vs. induction ps as [|[v|m] ps IH]; intros vs H; simpl in H.
  - injection H as <-. reflexivity.
  - destruct (Health.allInOrder ps) as [vs'|m']; [|discriminate].
    injection H as <-. simpl. f_equal. apply IH. reflexivity.
  - discriminate.
Qed.

Lemma allInOrder_nth (ps : list (Settled nat)) (vs : list nat) (i : nat) (v : nat) :
  Health.allInOrder ps = Fulfilled vs ->
  (nth_error vs i = Some v <-> nth_error ps i = Some (Fulfilled v)).
Proof.
  revert vs i. induction ps as [|[x|m] ps IH]; intros vs i H; simpl in H.
  - injection H as <-. destruct i; simpl; split; discriminate.
  - destruct (Health.allInOrder ps) as [vs'|m'] eqn:E; [|discriminate].
    injection H as <-. destruct i; simpl.
    + split; intros H; injection H as ->; reflexivity.
    + apply IH. reflexivity.
  - discriminate.
Qed.

Lemma allInOrder_all_fulfilled (ps : list (Settled nat)) :
  Forall (fun p => exists v, p = Fulfilled v) ps ->
  exists vs, Health.allInOrder ps = Fulfilled vs.
Proof.
  induction 1 as [|p ps [v ->] _ [vs IH]]; simpl.
  - eexists; reflexivity.
  - rewrite IH. eexists; reflexivity.
Qed.

Lemma firstRejection_none (ps : list (Settled nat)) (order : list nat) :
  Forall (fun p => exists v, p = Fulfilled v) ps ->
  Health.firstRejection ps order = None.
Proof.
  intros H. induction order as [|i order IH]; [reflexivity|].
  cbn [Health.firstRejection].
  destruct (nth_error ps i) as [[v|reason]|] eqn:E; try exact IH.
  apply nth_error_In in E. rewrite Forall_forall in H.
  destruct (H _ E) as [v Hv]. discriminate Hv.
Qed.

(** When [Promise.all] is fulfilled, no promise came first with a
    rejection, and the values are those of the promises in their order. *)
Lemma promiseAll_fulfilled (ps : list (Settled nat)) (order : list nat)
  (vs : list nat) :
  Health.promiseAll ps order = Fulfilled vs -> Health.allInOrder ps = Fulfilled vs.
Proof.
  unfold Health.promiseAll.
  destruct (Health.firstRejection ps order); [discriminate | trivial].
Qed.

Lemma promiseAll_length (ps : list (Settled nat)) (order : list nat)
  (vs : list nat) :
  Health.promiseAll ps order = Fulfilled vs -> length vs = length ps.
Proof. intros H. now apply allInOrder_length, promiseAll_fulfilled with order. Qed.

Lemma promiseAll_nth (ps : list (Settled nat)) (order : list nat)
  (vs : list nat) (i : nat) (v : nat) :
  Health.promiseAll ps order = Fulfilled vs ->
  (nth_error vs i = Some v <-> nth_error ps i = Some (Fulfilled v)).
Proof. intros H. now apply allInOrder_nth, promiseAll_fulfilled with order. Qed.

Lemma promiseAll_all_fulfilled (ps : list (Settled nat)) (order : list nat) :
  Forall (fun p => exists v, p = Fulfilled v) ps ->
  exists vs, Health.promiseAll ps order = Fulfilled vs.
Proof.
  intros H. unfold Health.promiseAll. rewrite (firstRejection_none ps order H).
  now apply allInOrder_all_fulfilled.
Qed.

Section StatsFacts.

Variable Db : Type.
Variables userRepo_getCount workspaceRepo_getCount boardRepo_getCount
  listRepo_getCount cardRepo_getCount cardCommentRepo_getCount
  checklistRepo_getCountItems checklistRepo_getCount labelRepo_getCount
  cardAttachmentRepo_getCount cardActivityRepo_getCount
  memberRepo_getActiveCount inviteLinkRepo_getActiveCount
  importRepo_getCount : Db -> Settled nat.

(** C7. Whenever the stats query answers, its [cardActivityLogs] field
    holds the result of [memberRepo.getActiveCount] (the fifteenth promise),
    so it equals [activeMembers]; the result of the sixteenth promise,
    [cardActivityRepo.getCount], is bound to no name and only reaches the
    [cardActivities] field through the eleventh promise. *)
Theorem stats_cardActivityLogs_is_activeMembers
  (order : list nat) (db : Db) (r : Health.StatsObject) :
  Health.stats Db userRepo_getCount workspaceRepo_getCount boardRepo_getCount
    listRepo_getCount cardRepo_getCount cardCommentRepo_getCount
    checklistRepo_getCountItems checklistRepo_getCount labelRepo_getCount
    cardAttachmentRepo_getCount cardActivityRepo_getCount
    memberRepo_getActiveCount inviteLinkRepo_getActiveCount
    importRepo_getCount order db = Ok r ->
  exists members activities : nat,
    memberRepo_getActiveCount db = Fulfilled members /\
    cardActivityRepo_getCount db = Fulfilled activities /\
    Health.cardActivityLogs r = Some members /\
    Health.activeMembers r = Some members /\
    Health.cardActivityLogs r = Health.activeMembers r /\
    Health.cardActivities r = Some activities.
Proof.
  unfold Health.stats.
  match goal with |- context [Health.promiseAll ?ps order] =>
    destruct (Health.promiseAll ps order) as [vs|m] eqn:E end; [|discriminate].
  intros H. injection H as <-.
  pose proof (promiseAll_length _ _ _ E) as Hlen. simpl in Hlen.
  destruct (nth_error vs 14) as [members|] eqn:E14;
    [|apply nth_error_None in E14; lia].
  destruct (nth_error vs 10) as [activities|] eqn:E10;
    [|apply nth_error_None in E10; lia].
  pose proof (proj1 (promiseAll_nth _ _ _ 14 members E) E14) as H14.
  pose proof (proj1 (promiseAll_nth _ _ _ 10 activities E) E10) as H10.
  simpl in H14, H10. injection H14 as H14. injection H10 as H10.
  assert (E11 : nth_error vs 11 = Some members).
  { apply (proj2 (promiseAll_nth _ _ _ 11 members E)). simpl. now rewrite H14. }
  exists members, activities. unfold Health.destructure.
  cbn [Health.cardActivityLogs Health.activeMembers Health.cardActivities].
  rewrite E14, E11, E10. repeat split; assumption || reflexivity.
Qed.

(** The query answers as soon as every count query does. *)
Lemma stats_total (order : list nat) (db : Db) :
  Forall (fun p => exists v, p = Fulfilled v)
    (Health.countQueries Db userRepo_getCount workspaceRepo_getCount
       boardRepo_getCount listRepo_getCount cardRepo_getCount
       cardCommentRepo_getCount checklistRepo_getCountItems
       checklistRepo_getCount labelRepo_getCount cardAttachmentRepo_getCount
       cardActivityRepo_getCount memberRepo_getActiveCount
       inviteLinkRepo_getActiveCount importRepo_getCount db) ->
  exists r,
    Health.stats Db userRepo_getCount workspaceRepo_getCount boardRepo_getCount
      listRepo_getCount cardRepo_getCount cardCommentRepo_getCount
      checklistRepo_getCountItems checklistRepo_getCount labelRepo_getCount
      cardAttachmentRepo_getCount cardActivityRepo_getCount
      memberRepo_getActiveCount inviteLinkRepo_getActiveCount
      importRepo_getCount order db = Ok r.
Proof.
  intros H. apply (promiseAll_all_fulfilled _ order) in H. destruct H as [vs H].
  unfold Health.stats. rewrite H. eexists; reflexivity.
Qed.

End StatsFacts.

(** A database with three active members and seven activity rows: the
    [cardActivityLogs] field reports three. *)
Lemma stats_cardActivityLogs_is_activeMembers_witness :
  let other := fun c : Sample.Counts => Fulfilled (Sample.others c) in
  let members := fun c : Sample.Counts => Fulfilled (Sample.members c) in
  let activities := fun c : Sample.Counts => Fulfilled (Sample.activities c) in
  exists r,
    Health.stats Sample.Counts other other other other other other other other
      other other activities members other other (seq 0 16) Sample.someCounts
    = Ok r /\
    Health.cardActivityLogs r = Some 3 /\
    Health.cardActivities r = Some 7 /\
    exists m a : nat,
      members Sample.someCounts = Fulfilled m /\
      activities Sample.someCounts = Fulfilled a /\
      Health.cardActivityLogs r = Some m /\
      Health.activeMembers r = Some m /\
      Health.cardActivityLogs r = Health.activeMembers r /\
      Health.cardActivities r = Some a.
Proof.
  intros other members activities.
  eexists. split; [reflexivity|]. split; [reflexivity|]. split; [reflexivity|].
  exact (stats_cardActivityLogs_is_activeMembers Sample.Counts
           other other other other other other other other other other
           activities members other other (seq 0 16) Sample.someCounts _ eq_refl).
Defined.

(** ** The attachment downloader: origins and upstream failures *)

Section DownloaderFacts.

Variable parseUrl : string -> option Downloader.Url.
Variable decodeURIComponent : string -> option string.

Lemma has_In (origins : list string) (o : string) :
  Downloader.has origins o = true <-> In o origins.
Proof.
  unfold Downloader.has. rewrite existsb_exists. split.
  - intros [x [Hin Heq]]. apply String.eqb_eq in Heq. now subst.
  - intros Hin. exists o. split; [assumption | apply String.eqb_refl].
Qed.

(** The local branch never fetches. *)
Lemma serveLocal_no_fetch (cwd storageDir : string) (w : Downloader.World)
  (parts : list string) :
  existsb isFetch (fst (Downloader.serveLocal cwd storageDir w parts)) = false.
Proof.
  unfold Downloader.serveLocal.
  repeat match goal with
         | |- context [match ?x with _ => _ end] => destruct x; try reflexivity
         end.
Qed.

(** The fallback answers a non-OK upstream with the upstream's status. *)
Lemma fetchUpstream_passthrough (w : Downloader.World) (u : Downloader.Url)
  (status : nat) (hasBody : bool) :
  Downloader.fetch w u = Downloader.FetchResponse status hasBody ->
  Downloader.ok status = false ->
  Downloader.fetchUpstream w u
  = ([EvFetch (Downloader.href u)], Json status "Failed to fetch attachment").
Proof.
  intros Hf Hok. unfold Downloader.fetchUpstream. rewrite Hf, Hok. reflexivity.
Qed.

(** C10. When the downloader reaches the upstream fetch and the upstream
    response is not OK, the reply carries exactly the upstream status. *)
Theorem downloader_passes_upstream_status
  (cwd : string) (e : Env) (w : Downloader.World) (req : Downloader.Request)
  (url : string) (u : Downloader.Url) (status : nat) (hasBody : bool) :
  Downloader.queryUrl req = QString url ->
  parseUrl url = Some u ->
  existsb isFetch
    (fst (Downloader.handler parseUrl decodeURIComponent cwd e w req)) = true ->
  Downloader.fetch w u = Downloader.FetchResponse status hasBody ->
  Downloader.ok status = false ->
  Downloader.handler parseUrl decodeURIComponent cwd e w req
  = ([EvFetch (Downloader.href u)], Json status "Failed to fetch attachment") /\
  replyStatus (snd (Downloader.handler parseUrl decodeURIComponent cwd e w req))
  = Some status.
Proof.
  intros Hq Hp Hfetch Hf Hok.
  pose proof (fetchUpstream_passthrough w u status hasBody Hf Hok) as Hup.
  unfold Downloader.handler in *. rewrite Hq in *. rewrite Hp in *.
  repeat match goal with
         | H : context [if ?c then _ else _] |- _ =>
             destruct c; try discriminate H
         | H : context [match ?x with Some _ => _ | None => _ end] |- _ =>
             destruct x; try discriminate H
         | H : existsb isFetch (fst (Downloader.serveLocal ?a ?b ?c ?d)) = true
           |- _ =>
             rewrite (serveLocal_no_fetch a b c d) in H; discriminate H
         end;
    rewrite Hup; split; reflexivity.
Qed.

(** C9. A GET request whose URL parses to an http or https URL is
    answered with 400, before any fetch or file access, when the allow-list
    derived from the two public URLs is not empty and lacks the URL's
    origin.  When the allow-list is empty no origin is rejected: the answer
    is never "Disallowed url", and under a driver other than fs the URL is
    fetched. *)
Theorem downloader_rejects_disallowed_origin
  (cwd : string) (e : Env) (w : Downloader.World) (req : Downloader.Request)
  (url : string) (u : Downloader.Url) :
  Downloader.method req = "GET" ->
  Downloader.queryUrl req = QString url ->
  parseUrl url = Some u ->
  Downloader.protocol u = "http:" \/ Downloader.protocol u = "https:" ->
  let allowed := Downloader.getAllowedOrigins parseUrl e in
  let result := Downloader.handler parseUrl decodeURIComponent cwd e w req in
  (allowed <> [] -> ~ In (Downloader.origin u) allowed ->
   fst result = [] /\ replyStatus (snd result) = Some 400) /\
  (allowed = [] ->
   snd result <> Json 400 "Disallowed url" /\
   (Js.nonEmpty url = true -> Downloader.getStorageDriver e <> "fs" ->
    result = Downloader.fetchUpstream w u /\
    fst result = [EvFetch (Downloader.href u)])).
Proof.
  intros Hm Hq Hp Hproto allowed result. subst result.
  assert (Hpr : negb (Downloader.protocol u =? "http:")%string
                && negb (Downloader.protocol u =? "https:")%string = false).
  { destruct Hproto as [-> | ->]; reflexivity. }
  assert (Hfetch : fst (Downloader.fetchUpstream w u) = [EvFetch (Downloader.href u)]
                   /\ snd (Downloader.fetchUpstream w u) <> Json 400 "Disallowed url").
  { unfold Downloader.fetchUpstream.
    destruct (Downloader.fetch w u) as [|status hasBody];
      [split; [reflexivity | discriminate]|].
    destruct (negb (Downloader.ok status)); [split; [reflexivity | discriminate]|].
    destruct (negb hasBody); [split; [reflexivity | discriminate]|].
    destruct (Downloader.pipelineUpstream w u);
      [|destruct (Downloader.headersSentOnFailure w)];
      (split; [reflexivity | discriminate]). }
  assert (Hlocal : forall dir parts,
             snd (Downloader.serveLocal cwd dir w parts) <> Json 400 "Disallowed url").
  { intros dir parts. unfold Downloader.serveLocal.
    repeat match goal with
           | |- context [match ?x with _ => _ end] => destruct x
           end; discriminate. }
  unfold Downloader.handler. rewrite Hm, Hq.
  cbn [String.eqb Ascii.eqb Bool.eqb negb].
  split.
  - intros Hne Hnot.
    destruct (Js.nonEmpty url); [|split; reflexivity]. cbn [negb].
    rewrite Hp, Hpr.
    assert (Hlen : (0 <? length (Downloader.getAllowedOrigins parseUrl e)) = true).
    { subst allowed.
      destruct (Downloader.getAllowedOrigins parseUrl e); [congruence | reflexivity]. }
    assert (Hhas : Downloader.has (Downloader.getAllowedOrigins parseUrl e)
                     (Downloader.origin u) = false).
    { destruct (Downloader.has _ _) eqn:E; [|reflexivity].
      apply has_In in E. contradiction. }
    rewrite Hlen, Hhas. split; reflexivity.
  - intros Hempty. subst allowed.
    destruct (Js.nonEmpty url) eqn:Hurl; cbn [negb];
      [|split; [discriminate | intros H; discriminate H]].
    rewrite Hp, Hpr, Hempty. cbn [length Nat.ltb Nat.leb andb].
    destruct (String.eqb_spec (Downloader.getStorageDriver e) "fs") as [Hfs|Hfs].
    + split; [|intros _ H; contradiction].
      destruct (KAN_STORAGE_DIR e) as [dir|]; [|discriminate].
      destruct (Js.nonEmpty dir); [|discriminate].
      destruct (Js.nonEmpty _ && Js.startsWith _ _); [|apply Hfetch].
      destruct (Downloader.decodeAll _ _); [apply Hlocal | discriminate].
    + split; [apply Hfetch|]. intros _ _. split; [reflexivity | apply Hfetch].
Qed.

End DownloaderFacts.

(** With neither public URL configured the allow-list is empty: a URL of any
    origin differs from every origin in it, and yet it is fetched. *)
Lemma empty_allow_list_admits_any_origin :
  exists u,
    Sample.parseUrl "https://evil.example/x" = Some u /\
    Downloader.protocol u = "https:" /\
    (forall o, In o (Downloader.getAllowedOrigins Sample.parseUrl Sample.emptyEnv) ->
               o <> Downloader.origin u) /\
    Downloader.handler Sample.parseUrl Sample.decodeURIComponent Sample.cwd
      Sample.emptyEnv (Sample.upstream 200) Sample.getEvilUrl
    = ([EvFetch "https://evil.example/x"], Streamed 200).
Proof.
  eexists. split; [reflexivity|]. split; [reflexivity|]. split.
  - intros o [].
  - reflexivity.
Qed.

Lemma downloader_rejects_disallowed_origin_witness :
  Downloader.getAllowedOrigins Sample.parseUrl Sample.envFs
  = ["https://kan.example"; "https://kan.example"] /\
  fst (Downloader.handler Sample.parseUrl Sample.decodeURIComponent Sample.cwd
         Sample.envFs (Sample.upstream 200) Sample.getEvilUrl) = [] /\
  replyStatus
    (snd (Downloader.handler Sample.parseUrl Sample.decodeURIComponent Sample.cwd
            Sample.envFs (Sample.upstream 200) Sample.getEvilUrl)) = Some 400.
Proof.
  split; [reflexivity|].
  apply (proj1 (downloader_rejects_disallowed_origin Sample.parseUrl
           Sample.decodeURIComponent Sample.cwd Sample.envFs (Sample.upstream 200)
           Sample.getEvilUrl "https://evil.example/x"
           (Downloader.mkUrl "https://evil.example/x" "https:"
              "https://evil.example" "/x")
           eq_refl eq_refl eq_refl (or_intror eq_refl))).
  - vm_compute. discriminate.
  - vm_compute. intros [H|[H|[]]]; discriminate H.
Defined.

Lemma downloader_passes_upstream_status_witness :
  Downloader.handler Sample.parseUrl Sample.decodeURIComponent Sample.cwd
    Sample.emptyEnv (Sample.upstream 403) Sample.getEvilUrl
  = ([EvFetch "https://evil.example/x"], Json 403 "Failed to fetch attachment") /\
  replyStatus
    (snd (Downloader.handler Sample.parseUrl Sample.decodeURIComponent Sample.cwd
            Sample.emptyEnv (Sample.upstream 403) Sample.getEvilUrl)) = Some 403.
Proof.
  apply (downloader_passes_upstream_status Sample.parseUrl
           Sample.decodeURIComponent Sample.cwd Sample.emptyEnv (Sample.upstream 403)
           Sample.getEvilUrl "https://evil.example/x"
           (Downloader.mkUrl "https://evil.example/x" "https:"
              "https://evil.example" "/x") 403 true);
    reflexivity.
Defined.

(** ** The upload file server: malformed keys *)

Lemma serve_bad_key (cwd storageDir : string) (w : UploadServer.World)
  (req : UploadServer.Request) (bucket : string) (keyParts : list string) :
  UploadServer.parts (UploadServer.queryPath req) = bucket :: keyParts ->
  existsb badKeyPart keyParts = true ->
  UploadServer.serve cwd storageDir w req
  = ([], Json 400
           (if negb (Js.nonEmpty bucket) then "Invalid path"
            else if negb (Js.bucketPattern bucket) then "Invalid bucket"
            else "Invalid key")).
Proof.
  intros Hparts Hbad. unfold UploadServer.serve. rewrite Hparts.
  destruct keyParts as [|k keyParts]; [discriminate Hbad|].
  cbn [length Nat.eqb]. rewrite orb_false_r.
  destruct (negb (Js.nonEmpty bucket)); [reflexivity|].
  destruct (negb (Js.bucketPattern bucket)); [reflexivity|].
  now rewrite Hbad.
Qed.

(** C2. A request to the upload file server whose path array holds, after
    the bucket, an element that is empty, ["."] or [".."] never reaches the
    file system, and is answered by the first check that applies: 405 when
    the method is neither GET nor HEAD; else 404 when the driver is not fs;
    else 500 when [KAN_STORAGE_DIR] is unset or empty; else 400, with
    "Invalid key" when the bucket is well formed. *)
Theorem upload_server_rejects_bad_key
  (cwd : string) (e : Env) (w : UploadServer.World) (req : UploadServer.Request)
  (bucket : string) (keyParts : list string) :
  UploadServer.parts (UploadServer.queryPath req) = bucket :: keyParts ->
  (exists p, In p keyParts /\ (p = "" \/ p = "." \/ p = "..")) ->
  let getOrHead :=
    UploadServer.method req = "GET" \/ UploadServer.method req = "HEAD" in
  let reply := snd (UploadServer.handler cwd e w req) in
  fst (UploadServer.handler cwd e w req) = [] /\
  (~ getOrHead -> reply = Json 405 "Method not allowed") /\
  (getOrHead -> UploadServer.driver e <> "fs" -> reply = Json 404 "Not found") /\
  (getOrHead -> UploadServer.driver e = "fs" ->
   Js.truthy (KAN_STORAGE_DIR e) = false ->
   reply = Json 500 "KAN_STORAGE_DIR not configured") /\
  (getOrHead -> UploadServer.driver e = "fs" ->
   Js.truthy (KAN_STORAGE_DIR e) = true ->
   replyStatus reply = Some 400 /\
   (Js.bucketPattern bucket = true -> reply = Json 400 "Invalid key")).
Proof.
  intros Hparts [p [Hin Hp]] getOrHead reply.
  assert (Hbad : existsb badKeyPart keyParts = true).
  { apply existsb_exists. exists p. split; [exact Hin|].
    destruct Hp as [->|[->| ->]]; reflexivity. }
  assert (Hreply : forall message,
             Js.bucketPattern bucket = true ->
             (if negb (Js.nonEmpty bucket) then "Invalid path"
              else if negb (Js.bucketPattern bucket) then "Invalid bucket"
              else "Invalid key") = message -> message = "Invalid key").
  { intros message Hb <-. unfold Js.bucketPattern in Hb |- *.
    destruct (Js.nonEmpty bucket); [|discriminate Hb].
    cbn [negb andb] in *. now rewrite Hb. }
  subst reply getOrHead. unfold UploadServer.handler.
  destruct (String.eqb_spec (UploadServer.method req) "GET") as [Hg|Hg];
    [|destruct (String.eqb_spec (UploadServer.method req) "HEAD") as [Hh|Hh]];
    cbn [negb andb].
  3:{ split; [reflexivity|]. split; [reflexivity|].
      split; [intros [H|H]; contradiction|].
      split; intros [H|H]; contradiction. }
  all: destruct (String.eqb_spec (UploadServer.driver e) "fs") as [Hd|Hd];
    cbn [negb].
  2,4: split; [reflexivity|]; split; [intros H; exfalso; apply H; auto|];
    split; [reflexivity|]; split; intros _ H; contradiction.
  all: destruct (KAN_STORAGE_DIR e) as [dir|]; cbn [Js.truthy];
    [destruct (Js.nonEmpty dir) eqn:Hdir|].
  1,4: rewrite (serve_bad_key cwd dir w req bucket keyParts Hparts Hbad);
    cbn [fst snd]; split; [reflexivity|];
    split; [intros H; exfalso; apply H; auto|];
    split; [intros _ H; contradiction|];
    split; [intros _ _ H; discriminate H|];
    intros _ _ _; split; [reflexivity|];
    intros Hb; f_equal; now apply Hreply.
  all: cbn [fst snd]; split; [reflexivity|];
    split; [intros H; exfalso; apply H; auto|];
    split; [intros _ H; contradiction|];
    split; [reflexivity|]; intros _ _ H; discriminate H.
Qed.

(** A POST request with a [".."] element in its key is answered with 405,
    not 400; and a GET request whose key hides a [".."] segment inside one
    element is resolved and served from the disk. *)
Lemma post_with_bad_key_is_405 :
  UploadServer.parts (UploadServer.queryPath Sample.postDotDot)
  = "avatars" :: [".."; "secret"] /\
  existsb badKeyPart [".."; "secret"] = true /\
  UploadServer.handler Sample.cwd Sample.envFs Sample.emptyDisk Sample.postDotDot
  = ([], Json 405 "Method not allowed") /\
  UploadServer.parts (UploadServer.queryPath Sample.getHiddenDotDot)
  = "avatars" :: ["x/../y"] /\
  In ".." (Js.splitSlash "x/../y") /\
  UploadServer.handler Sample.cwd Sample.envFs Sample.diskWithY
    Sample.getHiddenDotDot
  = ([EvStat "/data/uploads/avatars/y";
      EvCreateReadStream "/data/uploads/avatars/y"], Streamed 200).
Proof.
  split; [reflexivity|]. split; [reflexivity|]. split; [reflexivity|].
  split; [reflexivity|]. split; [cbn; auto|]. reflexivity.
Qed.

Lemma upload_server_rejects_bad_key_witness :
  UploadServer.handler Sample.cwd Sample.envFs Sample.emptyDisk Sample.getDotDot
  = ([], Json 400 "Invalid key") /\
  fst (UploadServer.handler Sample.cwd Sample.envFs Sample.emptyDisk Sample.getDotDot)
  = [] /\
  snd (UploadServer.handler Sample.cwd Sample.envFs Sample.emptyDisk Sample.getDotDot)
  = Json 400 "Invalid key".
Proof.
  split; [reflexivity|].
  destruct (upload_server_rejects_bad_key Sample.cwd Sample.envFs Sample.emptyDisk
              Sample.getDotDot "avatars" [".."; "secret"] eq_refl
              (ex_intro _ ".." (conj (or_introl eq_refl) (or_intror (or_intror eq_refl)))))
    as [Htrace [_ [_ [_ Hstatus]]]].
  split; [exact Htrace|].
  apply Hstatus; [left; reflexivity | reflexivity | reflexivity | reflexivity].
Defined.

(** ** Deciding the position of a path *)

Lemma afterPrefix_spec (xs ys rest : list string) :
  afterPrefix xs ys = Some rest <-> ys = (xs ++ rest)%list.
Proof.
  revert ys. induction xs as [|x xs IH]; intros ys; simpl.
  - split; [intros H; now injection H | intros ->; reflexivity].
  - destruct ys as [|y ys]; [split; discriminate|].
    destruct (String.eqb_spec x y) as [->|Hxy].
    + rewrite IH. split; [intros ->; reflexivity | intros H; now injection H].
    + split; [discriminate | intros H; injection H as H _; congruence].
Qed.

Lemma withinb_spec (root p : string) : withinb root p = true <-> within root p.
Proof.
  unfold withinb, within. rewrite !andb_true_iff, forallb_forall, Forall_forall.
  rewrite <- !and_assoc. apply and_iff_compat_l.
  destruct (afterPrefix (components root) (components p)) as [rest|] eqn:E.
  - apply afterPrefix_spec in E. split; [intros _; now exists rest | reflexivity].
  - split; [discriminate|]. intros [rest H]. apply afterPrefix_spec in H. congruence.
Qed.

Lemma descendantb_spec (root p : string) :
  descendantb root p = true <-> descendant root p.
Proof.
  unfold descendantb, descendant.
  rewrite !andb_true_iff, forallb_forall, Forall_forall.
  rewrite <- !and_assoc. apply and_iff_compat_l.
  destruct (afterPrefix (components root) (components p)) as [rest|] eqn:E.
  - apply afterPrefix_spec in E. destruct rest as [|r rest].
    + split; [discriminate|]. intros [rest' [Hne H]].
      rewrite E in H. apply app_inv_head in H. congruence.
    + split; [|reflexivity]. intros _. exists (r :: rest). split; [discriminate | exact E].
  - split; [discriminate|]. intros [rest [_ H]]. apply afterPrefix_spec in H. congruence.
Qed.

(** ** Splitting and joining paths *)

Lemma splitSlash_not_nil (s : string) : Js.splitSlash s <> [].
Proof.
  destruct s as [|c r]; simpl; [discriminate|].
  destruct (Ascii.eqb c Js.slash); [discriminate|].
  destruct (Js.splitSlash r); discriminate.
Qed.

Lemma splitSlash_noSlash (s : string) :
  Forall (fun x => noSlash x = true) (Js.splitSlash s).
Proof.
  induction s as [|c r IH]; simpl.
  - repeat constructor.
  - destruct (Ascii.eqb c Js.slash) eqn:E.
    + constructor; [reflexivity | assumption].
    + destruct (Js.splitSlash r) as [|h t].
      * constructor; [|constructor]. unfold noSlash; simpl. now rewrite E.
      * inversion IH as [|? ? Hh Ht]; subst. constructor; [|assumption].
        unfold noSlash in *; simpl. now rewrite E.
Qed.

Lemma splitSlash_single (a : string) :
  noSlash a = true -> Js.splitSlash a = [a].
Proof.
  unfold noSlash. induction a as [|c r IH]; simpl; intros H; [reflexivity|].
  apply andb_true_iff in H as [Hc Hr]. apply negb_true_iff in Hc.
  rewrite Hc, (IH Hr). reflexivity.
Qed.

Lemma splitSlash_app (a b : string) :
  noSlash a = true ->
  Js.splitSlash (a ++ String Js.slash b) = a :: Js.splitSlash b.
Proof.
  unfold noSlash. induction a as [|c r IH]; simpl; intros H.
  - reflexivity.
  - apply andb_true_iff in H as [Hc Hr]. apply negb_true_iff in Hc.
    rewrite Hc, (IH Hr). reflexivity.
Qed.

Lemma joinSlash_cons (x : string) (xs : list string) :
  Js.joinSlash (x :: xs)
  = (x ++ match xs with [] => "" | _ => String Js.slash (Js.joinSlash xs) end)%string.
Proof.
  unfold Js.joinSlash. destruct xs as [|y ys]; simpl.
  - clear. induction x as [|c r IH]; simpl; [reflexivity | now rewrite <- IH].
  - reflexivity.
Qed.

Lemma splitSlash_joinSlash (xs : list string) :
  xs <> [] -> Forall (fun x => noSlash x = true) xs ->
  Js.splitSlash (Js.joinSlash xs) = xs.
Proof.
  induction xs as [|x xs IH]; intros Hne Hall; [congruence|].
  inversion Hall as [|? ? Hx Hxs]; subst.
  rewrite joinSlash_cons. destruct xs as [|y ys].
  - assert (E : (x ++ "")%string = x).
    { clear. induction x as [|c r IHx]; simpl; [reflexivity | now rewrite IHx]. }
    rewrite E. now apply splitSlash_single.
  - rewrite splitSlash_app by assumption. f_equal. apply IH; [discriminate | assumption].
Qed.

Lemma segment_parts (x : string) :
  segment x = true -> plainName x = true /\ noSlash x = true /\ Js.nonEmpty x = true.
Proof.
  unfold segment, plainName. intros H.
  apply andb_true_iff in H as [H1 H2].
  pose proof H1 as H1'. apply andb_true_iff in H1 as [H1 _].
  apply andb_true_iff in H1 as [H1 _]. auto.
Qed.

Lemma filter_nonEmpty_segments (xs : list string) :
  Forall (fun x => segment x = true) xs -> filter Js.nonEmpty xs = xs.
Proof.
  induction 1 as [|x xs Hx _ IH]; simpl; [reflexivity|].
  destruct (segment_parts x Hx) as [_ [_ ->]]. now rewrite IH.
Qed.

(** The components of a normalised absolute path are its segments. *)
Lemma components_absolute (xs : list string) :
  Forall (fun x => segment x = true) xs ->
  components (String Js.slash (Js.joinSlash xs)) = xs.
Proof.
  intros Hall. unfold components. simpl.
  destruct xs as [|x xs].
  - reflexivity.
  - rewrite splitSlash_joinSlash.
    + now apply filter_nonEmpty_segments.
    + discriminate.
    + eapply Forall_impl; [|exact Hall]. intros a Ha. now apply segment_parts in Ha.
Qed.

(** ** [path.resolve] yields normalised absolute paths *)

Lemma normalizeSegments_segments (segs stack : list string) :
  Forall (fun x => noSlash x = true) segs ->
  Forall (fun x => segment x = true) stack ->
  Forall (fun x => segment x = true) (NodePath.normalizeSegments false stack segs).
Proof.
  revert stack. induction segs as [|seg rest IH]; intros stack Hsegs Hstack; simpl.
  - now apply Forall_rev.
  - inversion Hsegs as [|? ? Hseg Hrest]; subst.
    destruct (negb (Js.nonEmpty seg) || NodePath.isDot seg) eqn:E1; [now apply IH|].
    destruct (NodePath.isDotDot seg) eqn:E2.
    + destruct stack as [|top below]; [now apply IH|].
      destruct (NodePath.isDotDot top); [now apply IH|].
      apply IH; [assumption|]. now inversion Hstack.
    + apply IH; [assumption|]. constructor; [|assumption].
      apply orb_false_iff in E1 as [E1 E1']. apply negb_false_iff in E1.
      unfold segment, plainName. now rewrite E1, E1', E2, Hseg.
Qed.

Lemma collect_absolute (cwd : string) (args : list string) (acc : string) :
  NodePath.isAbsolute cwd = true -> snd (NodePath.collect cwd args acc) = true.
Proof.
  intros Hcwd. revert acc. induction args as [|p rest IH]; intros acc; simpl.
  - destruct cwd; [discriminate|]. simpl. exact Hcwd.
  - destruct (Js.nonEmpty p); [|apply IH].
    destruct (NodePath.isAbsolute p); [reflexivity | apply IH].
Qed.

(** With an absolute working directory, every resolved path is ["/"]
    followed by segments joined with single slashes. *)
Lemma resolve_normal (cwd : string) (args : list string) :
  NodePath.isAbsolute cwd = true ->
  exists segs,
    Forall (fun x => segment x = true) segs /\
    NodePath.resolve cwd args = String Js.slash (Js.joinSlash segs).
Proof.
  intros Hcwd. unfold NodePath.resolve.
  pose proof (collect_absolute cwd (rev args) "" Hcwd) as Habs.
  destruct (NodePath.collect cwd (rev args) "") as [resolvedPath resolvedAbsolute].
  simpl in Habs. subst resolvedAbsolute. simpl.
  eexists. split; [|reflexivity].
  apply normalizeSegments_segments; [apply splitSlash_noSlash | constructor].
Qed.

Lemma startsWith_segment (r c X Y : string) :
  noSlash r = true -> noSlash c = true ->
  (Y = "" \/ exists Y', Y = String Js.slash Y') ->
  Js.startsWith (c ++ Y) (r ++ String Js.slash X) = true ->
  r = c /\ exists Y', Y = String Js.slash Y' /\ Js.startsWith Y' X = true.
Proof.
  unfold noSlash. revert c. induction r as [|a r IH]; intros c Hr Hc HY H.
  - destruct c as [|b c]; cbn [String.append Js.startsWith Js.allChars] in *.
    + destruct HY as [-> | [Y' ->]]; [discriminate|].
      cbn [Js.startsWith] in H. apply andb_true_iff in H as [_ H].
      split; [reflexivity|]. exists Y'. split; [reflexivity | exact H].
    + apply andb_true_iff in Hc as [Hb _]. apply negb_true_iff in Hb.
      apply andb_true_iff in H as [H _]. rewrite Ascii.eqb_sym in H. congruence.
  - cbn [Js.allChars] in Hr. apply andb_true_iff in Hr as [Ha Hr].
    apply negb_true_iff in Ha.
    destruct c as [|b c]; cbn [String.append Js.startsWith Js.allChars] in *.
    + destruct HY as [-> | [Y' ->]]; [discriminate|].
      cbn [Js.startsWith] in H. apply andb_true_iff in H as [H _]. congruence.
    + apply andb_true_iff in H as [Hab H]. apply Ascii.eqb_eq in Hab. subst b.
      apply andb_true_iff in Hc as [_ Hc].
      destruct (IH c Hr Hc HY H) as [-> HY']. split; [reflexivity | exact HY'].
Qed.

Lemma joinSlash_then_slash (r : string) (rs : list string) :
  (Js.joinSlash (r :: rs) ++ "/")%string
  = (r ++ String Js.slash
            match rs with [] => "" | _ => (Js.joinSlash rs ++ "/")%string end)%string.
Proof.
  rewrite joinSlash_cons. destruct rs as [|y ys].
  - induction r as [|c r IH]; simpl; [reflexivity | now rewrite IH].
  - induction r as [|c r IH]; simpl; [reflexivity | now rewrite IH].
Qed.

(** A joined path that starts with another joined path and a slash extends
    it by at least one segment. *)
Lemma prefix_segments (rs cs : list string) :
  rs <> [] ->
  Forall (fun x => noSlash x = true) rs ->
  Forall (fun x => noSlash x = true) cs ->
  Js.startsWith (Js.joinSlash cs) (Js.joinSlash rs ++ "/") = true ->
  exists rest, rest <> [] /\ cs = (rs ++ rest)%list.
Proof.
  revert cs. induction rs as [|r rs IH]; intros cs Hne Hrs Hcs H; [congruence|].
  inversion Hrs as [|? ? Hr Hrs']; subst.
  rewrite joinSlash_then_slash in H.
  destruct cs as [|c cs].
  - simpl in H. destruct r; discriminate H.
  - inversion Hcs as [|? ? Hc Hcs']; subst.
    rewrite joinSlash_cons in H.
    apply startsWith_segment in H; try assumption.
    + destruct H as [-> [Y' [HY HX]]].
      destruct cs as [|c' cs]; [discriminate HY|].
      injection HY as <-.
      destruct rs as [|r' rs].
      * exists (c' :: cs). split; [discriminate | reflexivity].
      * destruct (IH (c' :: cs)) as [rest [Hrest Heq]];
          [discriminate | assumption | assumption | exact HX |].
        exists rest. split; [assumption|]. simpl. now rewrite Heq.
    + destruct cs; [left; reflexivity | right; eexists; reflexivity].
Qed.

Lemma segments_noSlash (xs : list string) :
  Forall (fun x => segment x = true) xs -> Forall (fun x => noSlash x = true) xs.
Proof.
  intros H. eapply Forall_impl; [|exact H]. intros a Ha. now apply segment_parts in Ha.
Qed.

Lemma segments_plain (xs : list string) :
  Forall (fun x => segment x = true) xs -> Forall (fun x => plainName x = true) xs.
Proof.
  intros H. eapply Forall_impl; [|exact H]. intros a Ha. now apply segment_parts in Ha.
Qed.

(** The guard of the two handlers: a resolved path that starts with the
    resolved root and a separator is a descendant of the root. *)
Lemma guard_descendant (cwd : string) (rootArgs args : list string) :
  NodePath.isAbsolute cwd = true ->
  Js.startsWith (NodePath.resolve cwd args)
    (NodePath.resolve cwd rootArgs ++ NodePath.sep) = true ->
  descendant (NodePath.resolve cwd rootArgs) (NodePath.resolve cwd args).
Proof.
  intros Hcwd H.
  destruct (resolve_normal cwd rootArgs Hcwd) as [rs [Hrs Er]].
  destruct (resolve_normal cwd args Hcwd) as [cs [Hcs Ec]].
  rewrite Er, Ec in *. unfold descendant.
  rewrite !components_absolute by assumption.
  split; [reflexivity|]. split; [reflexivity|].
  split; [now apply segments_plain|].
  unfold NodePath.sep in H. cbn [String.append Js.startsWith] in H.
  apply andb_true_iff in H as [_ H].
  destruct rs as [|r rs].
  - destruct cs as [|c cs]; [discriminate H|].
    rewrite joinSlash_cons in H. inversion Hcs as [|? ? Hc _]; subst.
    apply segment_parts in Hc as [_ [Hc Hne]].
    destruct c as [|a c]; [discriminate Hne|].
    unfold Js.joinSlash in H. cbn [String.concat String.append Js.startsWith] in H.
    unfold noSlash in Hc. cbn [Js.allChars] in Hc.
    apply andb_true_iff in Hc as [Hc _]. apply negb_true_iff in Hc.
    apply andb_true_iff in H as [H _]. rewrite Ascii.eqb_sym in H.
    unfold Js.slash in Hc. congruence.
  - apply prefix_segments; [discriminate | now apply segments_noSlash
                           | now apply segments_noSlash | exact H].
Qed.

(** The extra case of [deleteObject]: a path equal to the root is inside it. *)
Lemma guard_within (cwd : string) (rootArgs args : list string) :
  NodePath.isAbsolute cwd = true ->
  Js.startsWith (NodePath.resolve cwd args)
    (NodePath.resolve cwd rootArgs ++ NodePath.sep) = true \/
  NodePath.resolve cwd args = NodePath.resolve cwd rootArgs ->
  within (NodePath.resolve cwd rootArgs) (NodePath.resolve cwd args).
Proof.
  intros Hcwd [H|H].
  - destruct (guard_descendant cwd rootArgs args Hcwd H)
      as [Har [Hap [Hp [rest [_ Hrest]]]]].
    repeat (split; [assumption|]). now exists rest.
  - rewrite H. destruct (resolve_normal cwd rootArgs Hcwd) as [rs [Hrs Er]].
    rewrite Er. unfold within. rewrite components_absolute by assumption.
    split; [reflexivity|]. split; [reflexivity|].
    split; [now apply segments_plain|]. exists []. now rewrite app_nil_r.
Qed.

(** Resolved paths are absolute: between two of them, lying inside is a
    matter of components alone. *)
Lemma within_resolved (cwd : string) (rootArgs args : list string) :
  NodePath.isAbsolute cwd = true ->
  let root := NodePath.resolve cwd rootArgs in
  let p := NodePath.resolve cwd args in
  within root p <->
  Forall (fun c => plainName c = true) (components p) /\
  exists rest, components p = (components root ++ rest)%list.
Proof.
  intros Hcwd root p.
  destruct (resolve_normal cwd rootArgs Hcwd) as [rs [_ Er]].
  destruct (resolve_normal cwd args Hcwd) as [cs [_ Ec]].
  fold root in Er. fold p in Ec.
  assert (Hr : NodePath.isAbsolute root = true) by now rewrite Er.
  assert (Hp : NodePath.isAbsolute p = true) by now rewrite Ec.
  unfold within. tauto.
Qed.

(** The root is not a descendant of itself. *)
Lemma descendant_irrefl (root : string) : ~ descendant root root.
Proof.
  intros [_ [_ [_ [rest [Hne H]]]]]. apply Hne.
  apply (f_equal (@length string)) in H. rewrite length_app in H.
  destruct rest; [reflexivity | simpl in H; lia].
Qed.

(** ** Every file access stays under the uploads root *)

Ltac split_guards :=
  repeat match goal with
         | |- context [if ?c then _ else _] => destruct c eqn:?
         | |- context [match ?x with StatFile _ => _ | _ => _ end] => destruct x
         | |- context [match ?x with StreamCompletes => _ | _ => _ end] => destruct x
         | |- context [match ?x with Done => _ | Fails _ => _ end] => destruct x
         end.

Ltac close_paths G :=
  cbn [fst snd fsPaths]; apply negb_false_iff in G;
  repeat (apply Forall_cons; [now apply guard_descendant|]);
  apply Forall_nil.

Lemma upload_serve_paths (cwd storageDir : string) (w : UploadServer.World)
  (req : UploadServer.Request) :
  NodePath.isAbsolute cwd = true ->
  Forall (descendant (NodePath.resolve cwd [storageDir; "uploads"]))
    (fsPaths (fst (UploadServer.serve cwd storageDir w req))).
Proof.
  intros Hcwd. unfold UploadServer.serve.
  destruct (UploadServer.parts (UploadServer.queryPath req)) as [|bucket keyParts];
    [constructor|].
  destruct (negb (Js.nonEmpty bucket) || (length keyParts =? 0)); [constructor|].
  destruct (negb (Js.bucketPattern bucket)); [constructor|].
  destruct (existsb badKeyPart keyParts); [constructor|].
  cbv zeta.
  destruct (negb (Js.startsWith _ _)) eqn:G; [constructor|].
  split_guards; close_paths G.
Qed.

Lemma upload_serve_rejects_escape (cwd storageDir : string)
  (w : UploadServer.World) (req : UploadServer.Request)
  (bucket : string) (keyParts : list string) :
  NodePath.isAbsolute cwd = true ->
  UploadServer.parts (UploadServer.queryPath req) = bucket :: keyParts ->
  ~ descendant (NodePath.resolve cwd [storageDir; "uploads"])
      (NodePath.resolve cwd
         (NodePath.resolve cwd [storageDir; "uploads"] :: bucket :: keyParts)) ->
  exists message, UploadServer.serve cwd storageDir w req = ([], Json 400 message).
Proof.
  intros Hcwd Hparts Hesc. unfold UploadServer.serve. rewrite Hparts.
  destruct (negb (Js.nonEmpty bucket) || (length keyParts =? 0)); [eexists; reflexivity|].
  destruct (negb (Js.bucketPattern bucket)); [eexists; reflexivity|].
  destruct (existsb badKeyPart keyParts); [eexists; reflexivity|].
  cbv zeta.
  destruct (negb (Js.startsWith _ _)) eqn:G; [eexists; reflexivity|].
  exfalso. apply Hesc. apply negb_false_iff in G. now apply guard_descendant.
Qed.

Lemma download_serveLocal_paths (cwd storageDir : string) (w : Downloader.World)
  (parts : list string) :
  NodePath.isAbsolute cwd = true ->
  Forall (descendant (NodePath.resolve cwd [storageDir; "uploads"]))
    (fsPaths (fst (Downloader.serveLocal cwd storageDir w parts))).
Proof.
  intros Hcwd. unfold Downloader.serveLocal.
  destruct parts as [|bucket keyParts]; [constructor|].
  destruct (negb (Js.nonEmpty bucket) || (length keyParts =? 0)); [constructor|].
  destruct (negb (Js.bucketPattern bucket)); [constructor|].
  destruct (existsb badKeyPart keyParts); [constructor|].
  cbv zeta.
  destruct (negb (Js.startsWith _ _)) eqn:G; [constructor|].
  split_guards; close_paths G.
Qed.

Lemma download_serveLocal_rejects_escape (cwd storageDir : string)
  (w : Downloader.World) (bucket : string) (keyParts : list string) :
  NodePath.isAbsolute cwd = true ->
  ~ descendant (NodePath.resolve cwd [storageDir; "uploads"])
      (NodePath.resolve cwd
         (NodePath.resolve cwd [storageDir; "uploads"] :: bucket :: keyParts)) ->
  exists message,
    Downloader.serveLocal cwd storageDir w (bucket :: keyParts)
    = ([], Json 400 message).
Proof.
  intros Hcwd Hesc. unfold Downloader.serveLocal.
  destruct (negb (Js.nonEmpty bucket) || (length keyParts =? 0)); [eexists; reflexivity|].
  destruct (negb (Js.bucketPattern bucket)); [eexists; reflexivity|].
  destruct (existsb badKeyPart keyParts); [eexists; reflexivity|].
  cbv zeta.
  destruct (negb (Js.startsWith _ _)) eqn:G; [eexists; reflexivity|].
  exfalso. apply Hesc. apply negb_false_iff in G. now apply guard_descendant.
Qed.

Lemma fetchUpstream_no_paths (w : Downloader.World) (u : Downloader.Url) :
  fsPaths (fst (Downloader.fetchUpstream w u)) = [].
Proof.
  unfold Downloader.fetchUpstream.
  destruct (Downloader.fetch w u); [reflexivity|].
  split_guards; reflexivity.
Qed.

Lemma upload_handler_paths (cwd : string) (e : Env) (w : UploadServer.World)
  (req : UploadServer.Request) :
  NodePath.isAbsolute cwd = true ->
  Forall (descendant (uploadsRootOf cwd e))
    (fsPaths (fst (UploadServer.handler cwd e w req))).
Proof.
  intros Hcwd. unfold UploadServer.handler, uploadsRootOf.
  destruct (negb _ && negb _); [constructor|].
  destruct (negb _); [constructor|].
  destruct (KAN_STORAGE_DIR e) as [dir|]; [|constructor].
  destruct (Js.nonEmpty dir); [|constructor].
  now apply upload_serve_paths.
Qed.

Section DownloaderPaths.

Variable parseUrl : string -> option Downloader.Url.
Variable decodeURIComponent : string -> option string.

Lemma download_handler_paths (cwd : string) (e : Env) (w : Downloader.World)
  (req : Downloader.Request) :
  NodePath.isAbsolute cwd = true ->
  Forall (descendant (uploadsRootOf cwd e))
    (fsPaths (fst (Downloader.handler parseUrl decodeURIComponent cwd e w req))).
Proof.
  intros Hcwd. unfold Downloader.handler, uploadsRootOf.
  destruct (negb _); [constructor|].
  destruct (Downloader.queryUrl req) as [|url|]; try constructor.
  destruct (negb (Js.nonEmpty url)); [constructor|].
  destruct (parseUrl url) as [parsedUrl|]; [|constructor].
  destruct (negb _ && negb _); [constructor|].
  destruct ((0 <? _) && negb _); [constructor|].
  destruct (String.eqb _ "fs");
    [|rewrite fetchUpstream_no_paths; constructor].
  destruct (KAN_STORAGE_DIR e) as [dir|]; [|constructor].
  destruct (Js.nonEmpty dir); [|constructor].
  destruct (Js.nonEmpty _ && Js.startsWith _ _);
    [|rewrite fetchUpstream_no_paths; constructor].
  destruct (Downloader.decodeAll _ _) as [parts|]; [|constructor].
  now apply download_serveLocal_paths.
Qed.

End DownloaderPaths.

Section DeleteFacts.

Variable unlink : string -> CallResult.
Variable sendDeleteObject : string -> string -> CallResult.

Lemma delete_paths (cwd : string) (e : Env) (bucket key : string) :
  NodePath.isAbsolute cwd = true ->
  Forall (within (uploadsRootOf cwd e))
    (fsPaths (fst (S3Utils.deleteObject unlink sendDeleteObject cwd e bucket key))).
Proof.
  intros Hcwd. unfold S3Utils.deleteObject, uploadsRootOf.
  destruct (S3Utils.getStorageDriver e).
  { destruct (sendDeleteObject bucket key); constructor. }
  destruct (KAN_STORAGE_DIR e) as [dir|]; [|constructor].
  destruct (Js.nonEmpty dir); [|constructor].
  cbv zeta.
  destruct (negb (Js.startsWith _ _) && negb (String.eqb _ _)) eqn:G; [constructor|].
  assert (Hin : within (NodePath.resolve cwd [dir; "uploads"])
                  (NodePath.resolve cwd
                     (NodePath.resolve cwd [dir; "uploads"] :: bucket
                      :: filter Js.nonEmpty (Js.splitSlash key)))).
  { apply guard_within; [assumption|].
    apply andb_false_iff in G as [G|G]; apply negb_false_iff in G;
      [left; exact G | right; now apply String.eqb_eq]. }
  destruct (unlink _) as [|code]; [|destruct (codeIs code "ENOENT")];
    cbn [fst fsPaths]; repeat (apply Forall_cons; [exact Hin|]); apply Forall_nil.
Qed.

Lemma delete_rejects_escape (cwd : string) (e : Env) (dir bucket key : string) :
  NodePath.isAbsolute cwd = true ->
  S3Utils.getStorageDriver e = fs ->
  KAN_STORAGE_DIR e = Some dir -> Js.nonEmpty dir = true ->
  ~ within (NodePath.resolve cwd [dir; "uploads"])
      (NodePath.resolve cwd
         (NodePath.resolve cwd [dir; "uploads"] :: bucket
          :: filter Js.nonEmpty (Js.splitSlash key))) ->
  S3Utils.deleteObject unlink sendDeleteObject cwd e bucket key
  = ([], Raises "Invalid storage key").
Proof.
  intros Hcwd Hd Hdir Hne Hesc. unfold S3Utils.deleteObject.
  rewrite Hd, Hdir, Hne. cbv zeta.
  destruct (negb (Js.startsWith _ _) && negb (String.eqb _ _)) eqn:G; [reflexivity|].
  exfalso. apply Hesc. apply guard_within; [assumption|].
  apply andb_false_iff in G as [G|G]; apply negb_false_iff in G;
    [left; exact G | right; now apply String.eqb_eq].
Qed.

(** After the guard, [deleteObject] ends by the result of [unlink]: a
    success or [ENOENT] returns, any other failure is thrown again. *)
Lemma delete_after_guard (cwd : string) (e : Env) (dir bucket key : string) :
  S3Utils.getStorageDriver e = fs ->
  KAN_STORAGE_DIR e = Some dir -> Js.nonEmpty dir = true ->
  let uploadsRoot := NodePath.resolve cwd [dir; "uploads"] in
  let candidate :=
    NodePath.resolve cwd
      (uploadsRoot :: bucket :: filter Js.nonEmpty (Js.splitSlash key)) in
  Js.startsWith candidate (uploadsRoot ++ NodePath.sep) = true \/
  candidate = uploadsRoot ->
  S3Utils.deleteObject unlink sendDeleteObject cwd e bucket key
  = ([EvUnlink candidate],
     match unlink candidate with
     | Done => Returns
     | Fails code => if codeIs code "ENOENT" then Returns else Rethrows code
     end).
Proof.
  intros Hd Hdir Hne uploadsRoot candidate G. unfold S3Utils.deleteObject.
  rewrite Hd, Hdir, Hne. cbv zeta. fold uploadsRoot. fold candidate.
  assert (G' : negb (Js.startsWith candidate (uploadsRoot ++ NodePath.sep))
               && negb (String.eqb candidate uploadsRoot) = false).
  { destruct G as [G|G]; [rewrite G; reflexivity|].
    rewrite G, String.eqb_refl. apply andb_false_r. }
  rewrite G'. destruct (unlink candidate) as [|code]; [reflexivity|].
  destruct (codeIs code "ENOENT"); reflexivity.
Qed.

End DeleteFacts.

Lemma upload_handler_rejects_escape (cwd : string) (e : Env)
  (w : UploadServer.World) (req : UploadServer.Request)
  (bucket : string) (keyParts : list string) :
  NodePath.isAbsolute cwd = true ->
  UploadServer.method req = "GET" \/ UploadServer.method req = "HEAD" ->
  UploadServer.driver e = "fs" ->
  Js.truthy (KAN_STORAGE_DIR e) = true ->
  UploadServer.parts (UploadServer.queryPath req) = bucket :: keyParts ->
  ~ descendant (uploadsRootOf cwd e)
      (NodePath.resolve cwd (uploadsRootOf cwd e :: bucket :: keyParts)) ->
  fst (UploadServer.handler cwd e w req) = [] /\
  replyStatus (snd (UploadServer.handler cwd e w req)) = Some 400.
Proof.
  intros Hcwd Hm Hd Hdir Hparts Hesc. unfold UploadServer.handler.
  assert (Hm' : negb (UploadServer.method req =? "GET")%string
                && negb (UploadServer.method req =? "HEAD")%string = false).
  { destruct Hm as [-> | ->]; reflexivity. }
  rewrite Hm', Hd. cbn [String.eqb Ascii.eqb Bool.eqb negb].
  unfold uploadsRootOf in Hesc.
  destruct (KAN_STORAGE_DIR e) as [dir|]; [|discriminate Hdir].
  cbn [Js.truthy] in Hdir. rewrite Hdir.
  destruct (upload_serve_rejects_escape cwd dir w req bucket keyParts
              Hcwd Hparts Hesc) as [m ->].
  split; reflexivity.
Qed.

(** C1. With POSIX paths and an absolute working directory, every path
    that the upload file server and the attachment downloader touch on the
    file system is an absolute path and a descendant of the uploads root,
    itself absolute; every path that [deleteObject] touches is such a
    descendant or the root itself.
    A resolution outside of that is rejected before any file access: with
    status 400 by the two handlers, with the error "Invalid storage key" by
    [deleteObject]. *)
Theorem file_accesses_stay_in_uploads_root
  (parseUrl : string -> option Downloader.Url)
  (decodeURIComponent : string -> option string)
  (cwd : string) (e : Env) :
  NodePath.isAbsolute cwd = true ->
  let root := uploadsRootOf cwd e in
  (forall w req,
      Forall (descendant root) (fsPaths (fst (UploadServer.handler cwd e w req)))) /\
  (forall w req,
      Forall (descendant root)
        (fsPaths (fst (Downloader.handler parseUrl decodeURIComponent cwd e w req)))) /\
  (forall unlink send bucket key,
      Forall (within root)
        (fsPaths (fst (S3Utils.deleteObject unlink send cwd e bucket key)))) /\
  (forall w req bucket keyParts,
      UploadServer.method req = "GET" \/ UploadServer.method req = "HEAD" ->
      UploadServer.driver e = "fs" ->
      Js.truthy (KAN_STORAGE_DIR e) = true ->
      UploadServer.parts (UploadServer.queryPath req) = bucket :: keyParts ->
      ~ descendant root (NodePath.resolve cwd (root :: bucket :: keyParts)) ->
      fst (UploadServer.handler cwd e w req) = [] /\
      replyStatus (snd (UploadServer.handler cwd e w req)) = Some 400) /\
  (forall w dir bucket keyParts,
      KAN_STORAGE_DIR e = Some dir ->
      ~ descendant root (NodePath.resolve cwd (root :: bucket :: keyParts)) ->
      exists message,
        Downloader.serveLocal cwd dir w (bucket :: keyParts)
        = ([], Json 400 message)) /\
  (forall unlink send dir bucket key,
      S3Utils.getStorageDriver e = fs ->
      KAN_STORAGE_DIR e = Some dir -> Js.nonEmpty dir = true ->
      ~ within root
          (NodePath.resolve cwd
             (root :: bucket :: filter Js.nonEmpty (Js.splitSlash key))) ->
      S3Utils.deleteObject unlink send cwd e bucket key
      = ([], Raises "Invalid storage key")).
Proof.
  intros Hcwd root. subst root.
  split; [|split; [|split; [|split; [|split]]]].
  - intros w req. now apply upload_handler_paths.
  - intros w req. now apply download_handler_paths.
  - intros unlink send bucket key. now apply delete_paths.
  - intros w req bucket keyParts Hm Hd Hdir Hparts Hesc.
    now apply upload_handler_rejects_escape with (bucket := bucket) (keyParts := keyParts).
  - intros w dir bucket keyParts Hdir Hesc. unfold uploadsRootOf in Hesc.
    rewrite Hdir in Hesc. now apply download_serveLocal_rejects_escape.
  - intros unlink send dir bucket key Hd Hdir Hne Hesc. unfold uploadsRootOf in Hesc.
    rewrite Hdir in Hesc. now apply delete_rejects_escape with (dir := dir).
Qed.

Lemma file_accesses_stay_in_uploads_root_witness :
  NodePath.isAbsolute Sample.cwd = true /\
  uploadsRootOf Sample.cwd Sample.envFs = "/data/uploads" /\
  Forall (descendant "/data/uploads")
    (fsPaths
       (fst (Downloader.handler Sample.parseUrl Sample.decodeURIComponent
               Sample.cwd Sample.envFs (Sample.upstream 200)
               (Downloader.mkRequest "GET"
                  (QString "https://kan.example/uploads/avatars/a.png")
                  QUndefined)))) /\
  S3Utils.deleteObject Sample.unlinkMissing Sample.sendNothing Sample.cwd
    Sample.envFs ".." "secret.txt" = ([], Raises "Invalid storage key").
Proof.
  destruct (file_accesses_stay_in_uploads_root Sample.parseUrl
              Sample.decodeURIComponent Sample.cwd Sample.envFs eq_refl)
    as [_ [Hdown [_ [_ [_ Hdel]]]]].
  split; [reflexivity|]. split; [reflexivity|]. split.
  - apply Hdown.
  - apply (Hdel Sample.unlinkMissing Sample.sendNothing "/data");
      [reflexivity | reflexivity | reflexivity |].
    intros [_ [_ [_ [rest H]]]]. vm_compute in H. discriminate H.
Defined.

(** [deleteObject("", "")] resolves to the uploads root itself, which is
    not a descendant of the root; the path is not rejected but handed to
    [unlink]. *)
Lemma deleteObject_accepts_the_root_itself :
  uploadsRootOf Sample.cwd Sample.envFs = "/data/uploads" /\
  S3Utils.deleteObject Sample.unlinkIsDirectory Sample.sendNothing Sample.cwd
    Sample.envFs "" ""
  = ([EvUnlink "/data/uploads"], Rethrows (Some "EISDIR")) /\
  descendantb (uploadsRootOf Sample.cwd Sample.envFs) "/data/uploads" = false /\
  ~ descendant (uploadsRootOf Sample.cwd Sample.envFs) "/data/uploads".
Proof.
  split; [reflexivity|]. split; [reflexivity|]. split; [reflexivity|].
  change (uploadsRootOf Sample.cwd Sample.envFs) with "/data/uploads".
  apply descendant_irrefl.
Qed.

(** The guards at work on three traversals. *)
Example upload_parent_bucket_rejected :
  UploadServer.handler Sample.cwd Sample.envFs Sample.emptyDisk
    Sample.getParentBucket = ([], Json 400 "Invalid path").
Proof. reflexivity. Qed.

Example download_encoded_traversal_rejected :
  Downloader.handler Sample.parseUrl Sample.decodeURIComponent Sample.cwd
    Sample.envFs (Sample.upstream 200) Sample.getEncodedTraversal
  = ([], Json 400 "Invalid path").
Proof. reflexivity. Qed.

Example download_local_file_served :
  Downloader.handler Sample.parseUrl Sample.decodeURIComponent Sample.cwd
    Sample.envFs
    (Downloader.mkWorld (fun _ => StatFile 10) (fun _ => Done)
       (fun _ => Downloader.FetchThrows) (fun _ => Done) false)
    (Downloader.mkRequest "GET"
       (QString "https://kan.example/uploads/avatars/a.png") QUndefined)
  = ([EvStat "/data/uploads/avatars/a.png";
      EvCreateReadStream "/data/uploads/avatars/a.png"], Streamed 200).
Proof. reflexivity. Qed.

(** ** Public URLs of the file system driver *)

Lemma append_empty_r (s : string) : (s ++ "")%string = s.
Proof. induction s as [|c r IH]; simpl; [reflexivity | now rewrite IH]. Qed.

Lemma append_assoc (a b c : string) :
  ((a ++ b) ++ c)%string = (a ++ (b ++ c))%string.
Proof. induction a as [|x a IH]; simpl; [reflexivity | now rewrite IH]. Qed.

Lemma stripLeading_no_leading (s : string) :
  Js.startsWithSlash (Js.stripLeadingSlashes s) = false.
Proof.
  induction s as [|c r IH]; simpl; [reflexivity|].
  destruct (Ascii.eqb c Js.slash) eqn:E; [exact IH | simpl; exact E].
Qed.

Lemma stripTrailing_no_trailing (s : string) :
  Js.endsWithSlash (Js.stripTrailingSlashes s) = false.
Proof.
  induction s as [|c r IH]; simpl; [reflexivity|].
  destruct (Js.stripTrailingSlashes r) as [|d r'] eqn:E.
  - destruct (Ascii.eqb c Js.slash) eqn:Ec; simpl; [reflexivity | exact Ec].
  - exact IH.
Qed.

Lemma stripTrailing_keeps_head (s : string) :
  Js.startsWithSlash s = false ->
  Js.startsWithSlash (Js.stripTrailingSlashes s) = false.
Proof.
  destruct s as [|c r]; simpl; intros H; [reflexivity|].
  destruct (Js.stripTrailingSlashes r); [rewrite H|]; simpl; [exact H | exact H].
Qed.


(** The URL is the trimmed base followed by a slash and a part, for each
    cleaned part in turn. *)
Lemma joinUrl_shape (base : string) (parts : list string) :
  S3Utils.joinUrl base parts
  = (S3Utils.trimmedBase base
     ++ String.concat "" (map (fun c => String Js.slash c) (S3Utils.cleaned parts)))%string.
Proof.
  unfold S3Utils.joinUrl.
  destruct (S3Utils.cleaned parts) as [|c cs];
    [cbn [map String.concat]; now rewrite append_empty_r|].
  f_equal. change ("/" ++ Js.joinSlash (c :: cs))%string
    with (String Js.slash (Js.joinSlash (c :: cs))).
  revert c. induction cs as [|d cs IH]; intros c.
  - reflexivity.
  - rewrite joinSlash_cons.
    change (String.concat "" (map (fun c0 => String Js.slash c0) (c :: d :: cs)))
      with (String Js.slash c
            ++ String.concat "" (map (fun c0 => String Js.slash c0) (d :: cs)))%string.
    rewrite <- IH. reflexivity.
Qed.

Lemma doubledSlashes_app (a b : string) :
  Js.doubledSlashes (a ++ b)
  = Js.doubledSlashes a + Js.doubledSlashes b
    + (if Js.endsWithSlash a && Js.startsWithSlash b then 1 else 0).
Proof.
  induction a as [|c a IH]; [simpl; lia|].
  destruct a as [|c' a].
  - destruct b as [|d b]; simpl.
    + rewrite andb_false_r. reflexivity.
    + lia.
  - change (String c (String c' a) ++ b)%string
      with (String c (String c' a ++ b)) in *.
    change (String c' a ++ b)%string with (String c' (a ++ b)) in *.
    cbn [Js.doubledSlashes Js.endsWithSlash] in *. lia.
Qed.

Lemma doubledSlashes_slash (b : string) :
  Js.startsWithSlash b = false ->
  Js.doubledSlashes (String Js.slash b) = Js.doubledSlashes b.
Proof.
  destruct b as [|d b]; [reflexivity|].
  cbn [Js.startsWithSlash Js.doubledSlashes]. intros ->.
  rewrite andb_false_r. reflexivity.
Qed.

Lemma doubledSlashes_joined (cs : list string) :
  Forall cleanPart cs ->
  Js.doubledSlashes
    (String.concat "" (map (fun c => String Js.slash c) cs))
  = list_sum (map Js.doubledSlashes cs) /\
  Js.startsWithSlash
    (String.concat "" (map (fun c => String Js.slash c) cs))
  = Js.nonEmpty (String.concat "" (map (fun c => String Js.slash c) cs)).
Proof.
  induction 1 as [|c cs [Hne [Hs He]] _ [IH1 IH2]]; [split; reflexivity|].
  assert (E : String.concat "" (map (fun c0 => String Js.slash c0) (c :: cs))
              = (String Js.slash c
                 ++ String.concat "" (map (fun c0 => String Js.slash c0) cs))%string).
  { destruct cs; simpl; [now rewrite append_empty_r | reflexivity]. }
  rewrite E. split; [|reflexivity].
  rewrite doubledSlashes_app, IH1, doubledSlashes_slash by assumption.
  assert (Hend : Js.endsWithSlash (String Js.slash c) = false).
  { destruct c; [discriminate Hne | exact He]. }
  rewrite Hend. simpl. lia.
Qed.


(** The array pattern binds fifteen names: a sixteenth value changes nothing. *)
Lemma destructure_drops_sixteenth (counts : list nat) (last : nat) :
  length counts = 15 ->
  Health.destructure (counts ++ [last]) = Health.destructure counts.
Proof.
  intros Hlen.
  do 15 (destruct counts as [|? counts]; [discriminate Hlen|]).
  destruct counts; [reflexivity | discriminate Hlen].
Qed.

(** ** The root check accepts every path inside the root *)

Lemma splitSlash_app_slash (q r : string) :
  Js.splitSlash (q ++ String Js.slash r) = (Js.splitSlash q ++ Js.splitSlash r)%list.
Proof.
  induction q as [|c q IH]; [reflexivity|].
  cbn [String.append Js.splitSlash]. rewrite IH.
  destruct (Ascii.eqb c Js.slash); [reflexivity|].
  destruct (Js.splitSlash q) as [|h t] eqn:E; [|reflexivity].
  now apply splitSlash_not_nil in E.
Qed.

Lemma normalizeSegments_app (a : bool) (xs ys stack : list string) :
  NodePath.normalizeSegments a stack (xs ++ ys)
  = NodePath.normalizeSegments a (rev (NodePath.normalizeSegments a stack xs)) ys.
Proof.
  revert stack. induction xs as [|x xs IH]; intros stack.
  - simpl. now rewrite rev_involutive.
  - cbn [app NodePath.normalizeSegments].
    destruct (negb (Js.nonEmpty x) || NodePath.isDot x); [apply IH|].
    destruct (NodePath.isDotDot x); [|apply IH].
    destruct stack as [|top below]; [apply IH|].
    destruct (NodePath.isDotDot top); apply IH.
Qed.

(** What [collect] puts before the accumulator is empty or ends with a
    slash. *)
Lemma collect_prefix (cwd : string) (args : list string) (acc : string) :
  exists p,
    fst (NodePath.collect cwd args acc) = (p ++ acc)%string /\
    (p = "" \/ exists q, p = (q ++ "/")%string).
Proof.
  revert acc. induction args as [|x rest IH]; intros acc; cbn [NodePath.collect].
  - destruct (Js.nonEmpty cwd); cbn [fst].
    + exists (cwd ++ "/")%string. split; [now rewrite append_assoc | right; now exists cwd].
    + exists "". split; [reflexivity | now left].
  - destruct (Js.nonEmpty x); [|apply IH].
    destruct (NodePath.isAbsolute x); cbn [fst].
    + exists (x ++ "/")%string. split; [now rewrite append_assoc | right; now exists x].
    + destruct (IH (x ++ "/" ++ acc)%string) as [p [Hp Hq]].
      exists (p ++ x ++ "/")%string. split.
      * rewrite Hp, !append_assoc. reflexivity.
      * right. exists (p ++ x)%string. now rewrite append_assoc.
Qed.

Lemma resolve_absolute_eq (cwd : string) (args : list string) :
  NodePath.isAbsolute cwd = true ->
  NodePath.resolve cwd args
  = String Js.slash
      (Js.joinSlash
         (NodePath.normalizeSegments false []
            (Js.splitSlash (fst (NodePath.collect cwd (rev args) ""))))).
Proof.
  intros Hcwd. unfold NodePath.resolve.
  pose proof (collect_absolute cwd (rev args) "" Hcwd) as Habs.
  destruct (NodePath.collect cwd (rev args) "") as [resolvedPath resolvedAbsolute].
  simpl in Habs. subst resolvedAbsolute. reflexivity.
Qed.

(** The uploads root is never the file system root: its last segment is
    ["uploads"]. *)
Lemma uploadsRoot_components (cwd storageDir : string) :
  NodePath.isAbsolute cwd = true ->
  components (NodePath.resolve cwd [storageDir; "uploads"]) <> [].
Proof.
  intros Hcwd. rewrite (resolve_absolute_eq cwd _ Hcwd).
  rewrite components_absolute
    by (apply normalizeSegments_segments; [apply splitSlash_noSlash | constructor]).
  change (NodePath.collect cwd (rev [storageDir; "uploads"]) "")
    with (NodePath.collect cwd [storageDir] "uploads/").
  destruct (collect_prefix cwd [storageDir] "uploads/") as [p [Hp Hq]].
  rewrite Hp.
  assert (Hend : forall stack,
             NodePath.normalizeSegments false stack ["uploads"; ""]
             = (rev stack ++ ["uploads"])%list).
  { intros stack. reflexivity. }
  destruct Hq as [-> | [q ->]].
  - cbn. discriminate.
  - rewrite append_assoc.
    change ("/" ++ "uploads/")%string with (String Js.slash "uploads/").
    rewrite splitSlash_app_slash.
    change (Js.splitSlash "uploads/") with ["uploads"; ""].
    rewrite normalizeSegments_app, Hend.
    intros H. apply (f_equal (@length string)) in H.
    rewrite length_app in H. simpl in H. lia.
Qed.

Lemma startsWith_same_prefix (r a b : string) :
  Js.startsWith (r ++ a) (r ++ b) = Js.startsWith a b.
Proof.
  induction r as [|c r IH]; [reflexivity|].
  cbn [String.append Js.startsWith]. now rewrite Ascii.eqb_refl, IH.
Qed.

Lemma startsWith_empty (s : string) : Js.startsWith s "" = true.
Proof. destruct s; reflexivity. Qed.

Lemma extends_prefix (rs rest : list string) :
  rs <> [] -> rest <> [] ->
  Js.startsWith (Js.joinSlash (rs ++ rest)) (Js.joinSlash rs ++ "/") = true.
Proof.
  induction rs as [|r rs IH]; intros Hrs Hrest; [congruence|].
  rewrite joinSlash_then_slash.
  change ((r :: rs) ++ rest)%list with (r :: (rs ++ rest))%list.
  rewrite joinSlash_cons, startsWith_same_prefix.
  destruct rs as [|r' rs].
  - destruct rest as [|x rest]; [congruence|].
    cbn [app]. cbn [Js.startsWith].
    now rewrite Ascii.eqb_refl, startsWith_empty.
  - cbn [app]. cbn [Js.startsWith]. rewrite Ascii.eqb_refl.
    apply IH; [discriminate | assumption].
Qed.

(** The root check of [deleteObject] holds for every resolved path inside
    the uploads root, and the check of the handlers for every descendant. *)
Lemma within_guard (cwd storageDir : string) (args : list string) :
  NodePath.isAbsolute cwd = true ->
  let root := NodePath.resolve cwd [storageDir; "uploads"] in
  within root (NodePath.resolve cwd args) ->
  Js.startsWith (NodePath.resolve cwd args) (root ++ NodePath.sep) = true \/
  NodePath.resolve cwd args = root.
Proof.
  intros Hcwd root [_ [_ [_ [rest Hrest]]]].
  pose proof (uploadsRoot_components cwd storageDir Hcwd) as Hne.
  fold root in Hne.
  destruct (resolve_normal cwd [storageDir; "uploads"] Hcwd) as [rs [Hrs Er]].
  destruct (resolve_normal cwd args Hcwd) as [cs [Hcs Ec]].
  fold root in Er. rewrite Er, Ec in *.
  rewrite !components_absolute in * by assumption. subst cs.
  destruct rest as [|x rest].
  - right. now rewrite app_nil_r.
  - left. unfold NodePath.sep. cbn [String.append Js.startsWith].
    rewrite Ascii.eqb_refl. apply extends_prefix; [assumption | discriminate].
Qed.

Lemma descendant_guard (cwd storageDir : string) (args : list string) :
  NodePath.isAbsolute cwd = true ->
  let root := NodePath.resolve cwd [storageDir; "uploads"] in
  descendant root (NodePath.resolve cwd args) ->
  Js.startsWith (NodePath.resolve cwd args) (root ++ NodePath.sep) = true.
Proof.
  intros Hcwd root [Har [Hap [Hp [rest [Hne Hrest]]]]].
  destruct (within_guard cwd storageDir args Hcwd) as [H|H].
  - repeat (split; [assumption|]). now exists rest.
  - exact H.
  - exfalso. fold root in H. rewrite H in Hrest.
    apply (f_equal (@length string)) in Hrest. rewrite length_app in Hrest.
    destruct rest; [congruence | simpl in Hrest; lia].
Qed.

(** ** Deleting an object of the file system driver *)

Section DeleteOutcome.

Variable unlink : string -> CallResult.
Variable sendDeleteObject : string -> string -> CallResult.

(** C8. In fs mode with [KAN_STORAGE_DIR] set, and for a bucket and key
    whose resolved path lies inside the uploads root (the root itself or a
    descendant), [deleteObject] calls [unlink] once and returns normally
    when the call succeeds or fails with [ENOENT]; any other failure is
    thrown again.  A path resolved outside the root raises "Invalid storage
    key" without a call to [unlink]. *)
Theorem deleteObject_fs_outcome (cwd : string) (e : Env) (dir bucket key : string) :
  NodePath.isAbsolute cwd = true ->
  S3Utils.getStorageDriver e = fs ->
  KAN_STORAGE_DIR e = Some dir -> Js.nonEmpty dir = true ->
  let uploadsRoot := NodePath.resolve cwd [dir; "uploads"] in
  let candidate :=
    NodePath.resolve cwd
      (uploadsRoot :: bucket :: filter Js.nonEmpty (Js.splitSlash key)) in
  let result := S3Utils.deleteObject unlink sendDeleteObject cwd e bucket key in
  (within uploadsRoot candidate ->
   (unlink candidate = Fails (Some "ENOENT") -> result = ([EvUnlink candidate], Returns)) /\
   (unlink candidate = Done -> result = ([EvUnlink candidate], Returns)) /\
   (forall code, unlink candidate = Fails code -> codeIs code "ENOENT" = false ->
                 result = ([EvUnlink candidate], Rethrows code))) /\
  (~ within uploadsRoot candidate -> result = ([], Raises "Invalid storage key")).
Proof.
  intros Hcwd Hd Hdir Hne uploadsRoot candidate result.
  split.
  - intros Hin.
    pose proof (within_guard cwd dir _ Hcwd Hin) as G.
    pose proof (delete_after_guard unlink sendDeleteObject cwd e dir bucket key
                  Hd Hdir Hne G) as Hres.
    fold uploadsRoot candidate result in Hres.
    split; [|split].
    + intros Hu. rewrite Hres, Hu. reflexivity.
    + intros Hu. rewrite Hres, Hu. reflexivity.
    + intros code Hu Hc. rewrite Hres, Hu, Hc. reflexivity.
  - intros Hout. now apply delete_rejects_escape with (dir := dir).
Qed.

End DeleteOutcome.

Lemma deleteObject_fs_outcome_witness :
  within "/data/uploads" "/data/uploads/avatars/a.png" /\
  S3Utils.deleteObject Sample.unlinkMissingAvatar Sample.sendNothing Sample.cwd
    Sample.envFs "avatars" "a.png"
  = ([EvUnlink "/data/uploads/avatars/a.png"], Returns).
Proof.
  assert (Hin : within "/data/uploads" "/data/uploads/avatars/a.png").
  { split; [reflexivity|]. split; [reflexivity|].
    split; [vm_compute; repeat constructor | exists ["avatars"; "a.png"]; reflexivity]. }
  split; [exact Hin|].
  destruct (deleteObject_fs_outcome Sample.unlinkMissingAvatar Sample.sendNothing
              Sample.cwd Sample.envFs "/data" "avatars" "a.png"
              eq_refl eq_refl eq_refl eq_refl) as [Hacc _].
  destruct (Hacc Hin) as [Henoent _].
  exact (Henoent eq_refl).
Defined.

(** No file exists, the key resolves outside the uploads root, and
    [deleteObject] raises instead of returning. *)
Lemma deleteObject_escaping_key_raises :
  Sample.unlinkMissing "/data/secret.txt" = Fails (Some "ENOENT") /\
  S3Utils.getStorageDriver Sample.envFs = fs /\
  NodePath.resolve Sample.cwd ["/data/uploads"; ".."; "secret.txt"]
  = "/data/secret.txt" /\
  S3Utils.deleteObject Sample.unlinkMissing Sample.sendNothing Sample.cwd
    Sample.envFs ".." "secret.txt" = ([], Raises "Invalid storage key").
Proof. repeat split. Qed.

Example deleteObject_rethrows_other_failures :
  S3Utils.deleteObject Sample.unlinkDenied Sample.sendNothing Sample.cwd
    Sample.envFs "avatars" "a.png"
  = ([EvUnlink "/data/uploads/avatars/a.png"], Rethrows (Some "EACCES")).
Proof. reflexivity. Qed.

(** ** [path.resolve] on examples *)

Example resolve_absolute_directory :
  NodePath.resolve "/srv/kan" ["/data"; "uploads"] = "/data/uploads".
Proof. reflexivity. Qed.

Example resolve_relative_directory :
  NodePath.resolve "/srv/kan" ["./data/"; "uploads"] = "/srv/kan/data/uploads".
Proof. reflexivity. Qed.

Example resolve_above_root :
  NodePath.resolve "/srv/kan" ["/data/uploads"; ".."; ".."; ".."; "etc//passwd/"]
  = "/etc/passwd".
Proof. reflexivity. Qed.

Example resolve_absolute_segment :
  NodePath.resolve "/srv/kan" ["/data/uploads"; "/etc"; "passwd"] = "/etc/passwd".
Proof. reflexivity. Qed.

(** ** The models at work *)

Example health_unconfigured_storage :
  Health.health None None Sample.cwd Sample.emptyEnv Sample.allUp
  = Health.mkHealthReport Health.StatusOk Health.StatusOk Health.StorageNotConfigured.
Proof. reflexivity. Qed.

Example health_database_down :
  Health.health None None Sample.cwd Sample.envFs Sample.databaseDown
  = Health.mkHealthReport Health.StatusError Health.StatusError Health.StorageOk.
Proof. reflexivity. Qed.

Example health_storage_down :
  Health.health None None Sample.cwd Sample.envFs Sample.diskDenied
  = Health.mkHealthReport Health.StatusError Health.StatusOk Health.StorageError.
Proof. reflexivity. Qed.

Example normalizePublicPath_default :
  S3Utils.normalizePublicPath None "/uploads" = "/uploads".
Proof. reflexivity. Qed.

Example normalizePublicPath_trims :
  S3Utils.normalizePublicPath (Some "  files/ ") "/uploads" = "/files".
Proof. reflexivity. Qed.

(** A no-break space (U+00A0) and a line separator (U+2028) are white
    space for [trim], and so is a byte 160 on its own; the last byte of an
    accented letter is not. *)
Example trim_unicode_space :
  Js.trim (Sample.noBreakSpace ++ "/files" ++ Sample.lineSeparator) = "/files" /\
  S3Utils.normalizePublicPath (Some (Sample.noBreakSpace ++ "/")) "/uploads" = "" /\
  S3Utils.normalizePublicPath (Some Sample.noBreakSpace) "/uploads" = "/uploads" /\
  Js.trim (Sample.aGrave ++ " ") = Sample.aGrave /\
  Js.trim (String (ascii_of_nat 160) "/files" ++ String (ascii_of_nat 160) " ")
  = "/files".
Proof. repeat split. Qed.

Example normalizePublicPath_root :
  S3Utils.normalizePublicPath (Some "/") "/uploads" = "".
Proof. reflexivity. Qed.

Example joinUrl_cleans_parts :
  S3Utils.joinUrl "https://kan.example/" ["/uploads"; "//avatars/"; ""; "a.png"]
  = "https://kan.example/uploads/avatars/a.png".
Proof. reflexivity. Qed.

Example joinUrl_keeps_inner_slashes :
  S3Utils.joinUrl "https://kan.example" ["/uploads"; "avatars"; "a//b.png"]
  = "https://kan.example/uploads/avatars/a//b.png".
Proof. reflexivity. Qed.

Example getStorageDriver_mixed_case :
  S3Utils.getStorageDriver
    (mkEnv (Some "FS") None (Some "http://minio:9000") None None None None None)
  = fs.
Proof. reflexivity. Qed.

(** * Further properties *)

(** ** The public uploads path *)

Lemma dropLast_keeps_head (c d : ascii) (r : string) :
  Js.dropLast (String c (String d r)) = String c (Js.dropLast (String d r)).
Proof. reflexivity. Qed.

(** A value other than ["/"] is normalised to a path that starts with a
    slash. *)
Lemma normalized_value_starts_with_slash (value : string) :
  Js.nonEmpty value = true -> value <> "/" ->
  let withLeadingSlash :=
    if Js.startsWithSlash value then value else ("/" ++ value)%string in
  Js.startsWithSlash
    (if Js.endsWithSlash withLeadingSlash then Js.dropLast withLeadingSlash
     else withLeadingSlash) = true.
Proof.
  intros Hne Hnot. cbv zeta.
  destruct value as [|c r]; [discriminate Hne|].
  destruct (Js.startsWithSlash (String c r)) eqn:Hs.
  - destruct r as [|d r].
    + simpl in Hs. apply Ascii.eqb_eq in Hs. subst c. now elim Hnot.
    + destruct (Js.endsWithSlash (String c (String d r))); [|exact Hs].
      rewrite dropLast_keeps_head. exact Hs.
  - change ("/" ++ String c r)%string with (String Js.slash (String c r)).
    destruct (Js.endsWithSlash (String Js.slash (String c r))); reflexivity.
Qed.

(** X1. The public uploads path is empty exactly when the configured
    value, trimmed, is ["/"]; in every other case it starts with a slash,
    and an unset or blank value gives ["/uploads"]. *)
Theorem getUploadsPublicPath_shape (e : Env) :
  let trimmed :=
    Js.trim (match NEXT_PUBLIC_UPLOADS_PATH e with Some p => p | None => "" end) in
  (S3Utils.getUploadsPublicPath e = "" <-> trimmed = "/") /\
  (trimmed <> "/" -> Js.startsWithSlash (S3Utils.getUploadsPublicPath e) = true) /\
  (trimmed = "" -> S3Utils.getUploadsPublicPath e = "/uploads").
Proof.
  cbv zeta. unfold S3Utils.getUploadsPublicPath, S3Utils.normalizePublicPath.
  set (trimmed := Js.trim _).
  destruct (Js.nonEmpty trimmed) eqn:Hne.
  - destruct (String.eqb_spec trimmed "/") as [Heq|Hneq].
    + split; [tauto|]. split; [intros H; now elim H|].
      intros H. rewrite H in Heq. discriminate Heq.
    + pose proof (normalized_value_starts_with_slash trimmed Hne Hneq) as Hs.
      cbv zeta in Hs. split; [|split].
      * split; [|intros H; now elim Hneq].
        intros H. rewrite H in Hs. discriminate Hs.
      * intros _. exact Hs.
      * intros H. rewrite H in Hne. discriminate Hne.
  - destruct trimmed; [|discriminate Hne]. cbn.
    split; [split; discriminate|]. split; reflexivity.
Qed.

(** The middleware's copy answers a path exactly where the downloader's
    answers the same, non-empty path. *)
Lemma middleware_path_iff (pathname : option string) (uploadsPath : string) :
  Middleware.normalizeUploadsPath pathname = Some uploadsPath <->
  (Downloader.normalizeUploadsPath pathname = uploadsPath /\ uploadsPath <> "").
Proof.
  unfold Middleware.normalizeUploadsPath, Downloader.normalizeUploadsPath.
  set (trimmed := Js.trim _).
  set (value := if Js.nonEmpty trimmed then trimmed else "/uploads").
  assert (Hne : Js.nonEmpty value = true).
  { subst value. destruct (Js.nonEmpty trimmed) eqn:E; [exact E | reflexivity]. }
  destruct (String.eqb_spec value "/") as [Hv|Hv].
  - split; [discriminate | intros [H1 H2]; congruence].
  - pose proof (normalized_value_starts_with_slash value Hne Hv) as Hs.
    cbv zeta in Hs.
    set (result := if Js.endsWithSlash _ then _ else _) in *.
    split.
    + intros H. injection H as <-. split; [reflexivity|].
      intros E. rewrite E in Hs. discriminate Hs.
    + intros [H _]. now rewrite H.
Qed.

(** X2. The three copies of the normalisation agree: the downloader's
    equals the shared one with the ["/uploads"] fallback, and the
    middleware's answers [null] exactly where they answer the empty path and
    the same path everywhere else. *)
Theorem normalizeUploadsPath_copies_agree (pathname : option string) :
  Downloader.normalizeUploadsPath pathname
  = S3Utils.normalizePublicPath pathname "/uploads" /\
  (Middleware.normalizeUploadsPath pathname = None <->
   Downloader.normalizeUploadsPath pathname = "") /\
  (forall uploadsPath,
      Middleware.normalizeUploadsPath pathname = Some uploadsPath <->
      (Downloader.normalizeUploadsPath pathname = uploadsPath /\ uploadsPath <> "")).
Proof.
  split; [reflexivity|]. split; [|apply middleware_path_iff].
  destruct (Middleware.normalizeUploadsPath pathname) as [u|] eqn:Hm.
  - apply middleware_path_iff in Hm as [Hd Hne].
    split; [discriminate | intros H; congruence].
  - split; [intros _ | reflexivity].
    destruct (Downloader.normalizeUploadsPath pathname) as [|c r] eqn:Hd;
      [reflexivity|].
    assert (H : Middleware.normalizeUploadsPath pathname = Some (String c r))
      by (apply middleware_path_iff; split; [exact Hd | discriminate]).
    congruence.
Qed.

(** ** [joinUrl] and surrounding slashes *)

Lemma stripTrailing_slash (p : string) :
  Js.stripTrailingSlashes (p ++ "/") = Js.stripTrailingSlashes p.
Proof.
  induction p as [|c r IH]; [reflexivity|].
  cbn [String.append Js.stripTrailingSlashes]. now rewrite IH.
Qed.

Lemma strip_slash_after (p : string) :
  Js.stripTrailingSlashes (Js.stripLeadingSlashes (p ++ "/"))
  = Js.stripTrailingSlashes (Js.stripLeadingSlashes p).
Proof.
  induction p as [|c r IH]; [reflexivity|].
  cbn [String.append Js.stripLeadingSlashes].
  destruct (Ascii.eqb c Js.slash); [exact IH|].
  exact (stripTrailing_slash (String c r)).
Qed.

Lemma strip_slashes_after (p : string) (m : nat) :
  Js.stripTrailingSlashes (Js.stripLeadingSlashes (p ++ JsMore.slashes m))
  = Js.stripTrailingSlashes (Js.stripLeadingSlashes p).
Proof.
  revert p. induction m as [|m IH]; intros p; cbn [JsMore.slashes].
  - now rewrite append_empty_r.
  - change (String Js.slash (JsMore.slashes m))
      with ("/" ++ JsMore.slashes m)%string.
    rewrite <- append_assoc, IH. apply strip_slash_after.
Qed.

Lemma stripLeading_slashes_before (n : nat) (q : string) :
  Js.stripLeadingSlashes (JsMore.slashes n ++ q) = Js.stripLeadingSlashes q.
Proof. induction n as [|n IH]; [reflexivity | exact IH]. Qed.

(** Slashes around a part do not survive the cleaning. *)
Lemma strip_wrapped (n m : nat) (p : string) :
  Js.stripTrailingSlashes
    (Js.stripLeadingSlashes (JsMore.slashes n ++ p ++ JsMore.slashes m))
  = Js.stripTrailingSlashes (Js.stripLeadingSlashes p).
Proof. now rewrite stripLeading_slashes_before, strip_slashes_after. Qed.

(** The first filter of [joinUrl] has no effect of its own. *)
Lemma cleaned_unfiltered (parts : list string) :
  S3Utils.cleaned parts
  = filter Js.nonEmpty
      (map (fun p => Js.stripTrailingSlashes (Js.stripLeadingSlashes p)) parts).
Proof.
  unfold S3Utils.cleaned. induction parts as [|p parts IH]; [reflexivity|].
  destruct p as [|c r]; [exact IH|].
  cbn [filter Js.nonEmpty map]. now rewrite IH.
Qed.

Lemma endsWithSlash_snoc (b : string) : Js.endsWithSlash (b ++ "/") = true.
Proof.
  induction b as [|c r IH]; [reflexivity|].
  cbn [String.append]. destruct r as [|d r]; [reflexivity|]. exact IH.
Qed.

Lemma dropLast_snoc (b : string) : Js.dropLast (b ++ "/") = b.
Proof.
  induction b as [|c r IH]; [reflexivity|].
  cbn [String.append]. destruct r as [|d r]; [reflexivity|].
  cbn [String.append] in *. rewrite dropLast_keeps_head. now rewrite IH.
Qed.

(** X3. [joinUrl] ignores the slashes around its parts: parts that differ
    only by leading and trailing slashes give the same URL.  It also
    ignores one slash added to a base that does not end with a slash. *)
Theorem joinUrl_ignores_surrounding_slashes
  (base : string) (parts parts' : list string) :
  Forall2 (fun p p' => exists n m,
               p' = (JsMore.slashes n ++ p ++ JsMore.slashes m)%string)
    parts parts' ->
  S3Utils.joinUrl base parts' = S3Utils.joinUrl base parts /\
  (Js.endsWithSlash base = false ->
   S3Utils.joinUrl (base ++ "/") parts' = S3Utils.joinUrl base parts).
Proof.
  intros H.
  assert (Hc : S3Utils.cleaned parts' = S3Utils.cleaned parts).
  { rewrite !cleaned_unfiltered.
    induction H as [|p p' ps ps' [n [m ->]] _ IH]; [reflexivity|].
    cbn [map filter]. now rewrite strip_wrapped, IH. }
  split.
  - unfold S3Utils.joinUrl. now rewrite Hc.
  - intros Hb. unfold S3Utils.joinUrl. rewrite Hc.
    assert (Ht : S3Utils.trimmedBase (base ++ "/") = S3Utils.trimmedBase base).
    { unfold S3Utils.trimmedBase. now rewrite endsWithSlash_snoc, dropLast_snoc, Hb. }
    now rewrite Ht.
Qed.

Lemma joinUrl_ignores_surrounding_slashes_witness :
  S3Utils.joinUrl "https://kan.example" ["//uploads/"; "avatars///"; "/a.png"]
  = S3Utils.joinUrl "https://kan.example" ["uploads"; "avatars"; "a.png"].
Proof.
  refine (proj1 (joinUrl_ignores_surrounding_slashes "https://kan.example"
                   ["uploads"; "avatars"; "a.png"]
                   ["//uploads/"; "avatars///"; "/a.png"] _)).
  repeat constructor.
  - exists 2, 1. reflexivity.
  - exists 0, 3. reflexivity.
  - exists 1, 0. reflexivity.
Defined.




(** ** Avatar and attachment URLs *)

Section ObjectUrls.

Variable getSignedUrl : Env -> string -> string -> nat -> Result string.

(** X5. For a non-empty key and a configured bucket, the attachment URL
    is the download URL whenever [generateDownloadUrl] succeeds, and [null]
    whenever it throws under the s3 driver.  The avatar URL is the same,
    except that a key starting with ["http://"] or ["https://"] is returned
    as it is, whatever the driver and the configuration. *)
Theorem object_urls_follow_download_url
  (e : Env) (bucket key : string) (expiresIn : nat) :
  Js.nonEmpty key = true -> Js.nonEmpty bucket = true ->
  let external := Js.startsWith key "http://" || Js.startsWith key "https://" in
  let download := S3Utils.generateDownloadUrl getSignedUrl e bucket key expiresIn in
  let attachment :=
    S3Urls.generateAttachmentUrl getSignedUrl (Some bucket) e (Some key) expiresIn in
  let avatar :=
    S3Urls.generateAvatarUrl getSignedUrl (Some bucket) e (Some key) expiresIn in
  (forall url, download = Ok url ->
               attachment = Some url /\
               avatar = Some (if external then key else url)) /\
  (forall message, download = Throw message -> S3Utils.getStorageDriver e = s3 ->
                   attachment = None /\
                   avatar = if external then Some key else None) /\
  (external = true ->
   forall e' bucket',
     S3Urls.generateAvatarUrl getSignedUrl bucket' e' (Some key) expiresIn = Some key).
Proof.
  intros Hkey Hbucket external download attachment avatar.
  subst download attachment avatar.
  unfold S3Urls.generateAttachmentUrl, S3Urls.generateAvatarUrl.
  rewrite Hkey, Hbucket. cbn [negb]. fold external.
  split; [|split].
  - intros url Hd. destruct external.
    + split; [|reflexivity].
      unfold S3Utils.generateDownloadUrl in *.
      destruct (S3Utils.getStorageDriver e).
      * rewrite Hd. reflexivity.
      * destruct (S3Utils.getPublicObjectUrl e bucket key) as [u|]; [|discriminate Hd].
        destruct (Js.nonEmpty u); [|discriminate Hd]. now injection Hd as ->.
    + unfold S3Utils.generateDownloadUrl in *.
      destruct (S3Utils.getStorageDriver e).
      * rewrite Hd. split; reflexivity.
      * destruct (S3Utils.getPublicObjectUrl e bucket key) as [u|]; [|discriminate Hd].
        destruct (Js.nonEmpty u); [|discriminate Hd]. injection Hd as ->.
        split; reflexivity.
  - intros message Hd Hs3. rewrite Hs3, Hd. destruct external; split; reflexivity.
  - intros Hext e' bucket'. subst external. rewrite Hext. reflexivity.
Qed.

End ObjectUrls.

Lemma object_urls_follow_download_url_witness :
  S3Urls.generateAttachmentUrl Sample.noSignedUrl (Some "attachments") Sample.envFs
    (Some "card1/report.pdf") 3600
  = Some "https://kan.example/uploads/attachments/card1/report.pdf" /\
  S3Urls.generateAvatarUrl Sample.noSignedUrl (Some "attachments") Sample.envFs
    (Some "card1/report.pdf") 3600
  = Some "https://kan.example/uploads/attachments/card1/report.pdf".
Proof.
  exact (proj1 (object_urls_follow_download_url Sample.noSignedUrl Sample.envFs
                  "attachments" "card1/report.pdf" 3600 eq_refl eq_refl)
           "https://kan.example/uploads/attachments/card1/report.pdf" eq_refl).
Defined.

(** ** Resolving plain segments under the uploads root *)

Lemma concat_empty_cons (y : string) (ys : list string) :
  String.concat "" (y :: ys) = (y ++ String.concat "" ys)%string.
Proof. destruct ys; cbn; [now rewrite append_empty_r | reflexivity]. Qed.

Lemma concat_empty_snoc (ys : list string) (t : string) :
  String.concat "" (ys ++ [t]) = (String.concat "" ys ++ t)%string.
Proof.
  induction ys as [|y ys IH]; [reflexivity|].
  change ((y :: ys) ++ [t])%list with (y :: (ys ++ [t]))%list.
  now rewrite !concat_empty_cons, IH, append_assoc.
Qed.

Lemma collect_plain (cwd root : string) (xs : list string) (acc : string) :
  NodePath.isAbsolute root = true ->
  Forall (fun x => segment x = true) xs ->
  NodePath.collect cwd (rev xs ++ [root]) acc
  = ((root ++ "/" ++ String.concat "" (map (fun x => x ++ "/") xs) ++ acc)%string, true).
Proof.
  intros Hroot Hxs. revert acc.
  induction xs as [|x xs IH] using rev_ind; intros acc.
  - cbn [rev app NodePath.collect map String.concat String.append].
    assert (Hne : Js.nonEmpty root = true) by (destruct root; [discriminate Hroot | reflexivity]).
    now rewrite Hne, Hroot.
  - apply Forall_app in Hxs as [Hxs Hx]. inversion Hx as [|? ? Hseg _]; subst.
    rewrite rev_app_distr. cbn [rev app NodePath.collect].
    destruct (segment_parts x Hseg) as [_ [Hns Hne]]. rewrite Hne.
    assert (Hrel : NodePath.isAbsolute x = false).
    { destruct x as [|c r]; [reflexivity|]. unfold noSlash in Hns.
      cbn [Js.allChars] in Hns. apply andb_true_iff in Hns as [Hc _].
      apply negb_true_iff in Hc. exact Hc. }
    rewrite Hrel, (IH Hxs). f_equal. f_equal. f_equal.
    rewrite map_app. cbn [map]. now rewrite concat_empty_snoc, !append_assoc.
Qed.

Lemma splitSlash_slashed (xs : list string) :
  Forall (fun x => noSlash x = true) xs ->
  Js.splitSlash (String.concat "" (map (fun x => x ++ "/") xs)) = (xs ++ [""])%list.
Proof.
  induction 1 as [|x xs Hx _ IH]; [reflexivity|].
  assert (E : String.concat "" (map (fun x0 => (x0 ++ "/")%string) (x :: xs))
              = (x ++ String Js.slash
                        (String.concat "" (map (fun x0 => (x0 ++ "/")%string) xs)))%string).
  { cbn [map]. now rewrite concat_empty_cons, append_assoc. }
  rewrite E, splitSlash_app by exact Hx. now rewrite IH.
Qed.

(** Plain segments and empty pieces normalise to the plain segments. *)
Lemma normalizeSegments_plain (segs stack : list string) :
  Forall (fun x => x = "" \/ segment x = true) segs ->
  NodePath.normalizeSegments false stack segs
  = (rev stack ++ filter Js.nonEmpty segs)%list.
Proof.
  revert stack. induction segs as [|x segs IH]; intros stack H.
  - cbn. now rewrite app_nil_r.
  - inversion H as [|? ? Hx Hsegs]; subst. cbn [NodePath.normalizeSegments filter].
    destruct Hx as [-> | Hx]; [cbn; now apply IH|].
    pose proof Hx as Hx'. unfold segment, plainName in Hx'.
    apply andb_true_iff in Hx' as [Hp _]. apply andb_true_iff in Hp as [Hp Hdd].
    apply andb_true_iff in Hp as [Hne Hd].
    apply negb_true_iff in Hd. apply negb_true_iff in Hdd.
    rewrite Hne, Hd, Hdd. cbn [negb orb].
    rewrite (IH (x :: stack) Hsegs). cbn [rev]. now rewrite <- app_assoc.
Qed.

Lemma joinSlash_app (rs xs : list string) :
  rs <> [] -> xs <> [] ->
  Js.joinSlash (rs ++ xs) = (Js.joinSlash rs ++ "/" ++ Js.joinSlash xs)%string.
Proof.
  induction rs as [|r rs IH]; intros Hrs Hxs; [congruence|].
  change ((r :: rs) ++ xs)%list with (r :: (rs ++ xs))%list.
  rewrite !joinSlash_cons. destruct rs as [|r' rs].
  - destruct xs as [|x xs]; [congruence|]. cbn [app].
    now rewrite append_empty_r.
  - cbn [app]. rewrite append_assoc. f_equal.
    change (String Js.slash (Js.joinSlash (r' :: rs)) ++ "/" ++ Js.joinSlash xs)%string
      with (String Js.slash (Js.joinSlash (r' :: rs) ++ "/" ++ Js.joinSlash xs)).
    f_equal. apply IH; [discriminate | assumption].
Qed.

(** Resolving plain segments under the uploads root appends them to it. *)
Lemma resolve_under_root (cwd storageDir : string) (xs : list string) :
  NodePath.isAbsolute cwd = true ->
  xs <> [] -> Forall (fun x => segment x = true) xs ->
  let root := NodePath.resolve cwd [storageDir; "uploads"] in
  NodePath.resolve cwd (root :: xs) = (root ++ "/" ++ Js.joinSlash xs)%string /\
  Js.startsWith (NodePath.resolve cwd (root :: xs)) (root ++ NodePath.sep) = true.
Proof.
  intros Hcwd Hne Hxs root.
  pose proof (uploadsRoot_components cwd storageDir Hcwd) as Hroot.
  destruct (resolve_normal cwd [storageDir; "uploads"] Hcwd) as [rs [Hrs Er]].
  fold root in Hroot, Er. rewrite Er in Hroot.
  rewrite components_absolute in Hroot by assumption.
  assert (E : NodePath.resolve cwd (root :: xs)
              = (root ++ "/" ++ Js.joinSlash xs)%string).
  { unfold NodePath.resolve. cbn [rev].
    rewrite (collect_plain cwd root xs "")
      by first [assumption | rewrite Er; reflexivity].
    cbn [negb]. unfold NodePath.normalizeString.
    rewrite append_empty_r, Er.
    change (String Js.slash (Js.joinSlash rs) ++ "/"
            ++ String.concat "" (map (fun x => (x ++ "/")%string) xs))%string
      with (String Js.slash
              (Js.joinSlash rs
               ++ String Js.slash
                    (String.concat "" (map (fun x => (x ++ "/")%string) xs)))).
    cbn [Js.splitSlash]. rewrite Ascii.eqb_refl.
    rewrite splitSlash_app_slash, splitSlash_joinSlash, splitSlash_slashed
      by (assumption || now apply segments_noSlash).
    rewrite normalizeSegments_plain.
    - cbn [rev app filter Js.nonEmpty]. rewrite !filter_app.
      rewrite !filter_nonEmpty_segments by assumption.
      cbn [filter Js.nonEmpty]. rewrite app_nil_r.
      rewrite joinSlash_app by assumption. reflexivity.

    - constructor; [now left|]. apply Forall_app. split.
      + eapply Forall_impl; [|exact Hrs]. intros a Ha. now right.
      + apply Forall_app. split.
        * eapply Forall_impl; [|exact Hxs]. intros a Ha. now right.
        * constructor; [now left | constructor]. }
  split; [exact E|].
  rewrite E. unfold NodePath.sep. rewrite startsWith_same_prefix.
  cbn [String.append Js.startsWith]. rewrite Ascii.eqb_refl. apply startsWith_empty.
Qed.

(** ** Well-formed requests reach their file *)

Lemma bucketChar_not_slash (c : ascii) :
  Js.bucketChar c = true -> negb (Ascii.eqb c Js.slash) = true.
Proof.
  destruct c as [[] [] [] [] [] [] [] []]; intros H;
    first [reflexivity | discriminate H].
Qed.

Lemma bucketPattern_noSlash (b : string) :
  Js.bucketPattern b = true -> Js.nonEmpty b = true /\ noSlash b = true.
Proof.
  unfold Js.bucketPattern, noSlash. intros H.
  apply andb_true_iff in H as [Hne H]. split; [exact Hne|]. clear Hne.
  induction b as [|c r IH]; [reflexivity|].
  cbn [Js.allChars] in *. apply andb_true_iff in H as [Hc Hr].
  now rewrite (bucketChar_not_slash c Hc), (IH Hr).
Qed.

Lemma segments_not_bad (keyParts : list string) :
  Forall (fun x => segment x = true) keyParts -> existsb badKeyPart keyParts = false.
Proof.
  induction 1 as [|x xs Hx _ IH]; [reflexivity|].
  cbn [existsb]. rewrite IH, orb_false_r.
  unfold segment, plainName in Hx. unfold badKeyPart.
  apply andb_true_iff in Hx as [Hp _]. apply andb_true_iff in Hp as [Hp Hdd].
  apply andb_true_iff in Hp as [Hne Hd].
  apply negb_true_iff in Hd. apply negb_true_iff in Hdd.
  now rewrite Hne, Hd, Hdd.
Qed.

(** X6. A GET or HEAD request in fs mode with a bucket matching the
    pattern, other than ["."] and [".."], and a non-empty key of plain
    segments is never rejected: the handler calls [stat] on exactly
    [<uploads root>/<bucket>/<key>], answers 404 when the file is missing or
    is not a regular file, 200 without a body to HEAD, and streams the file
    to GET. *)
Theorem upload_server_serves_plain_paths
  (cwd : string) (e : Env) (w : UploadServer.World) (req : UploadServer.Request)
  (dir bucket : string) (keyParts : list string) :
  NodePath.isAbsolute cwd = true ->
  UploadServer.method req = "GET" \/ UploadServer.method req = "HEAD" ->
  UploadServer.driver e = "fs" ->
  KAN_STORAGE_DIR e = Some dir -> Js.nonEmpty dir = true ->
  UploadServer.parts (UploadServer.queryPath req) = bucket :: keyParts ->
  Js.bucketPattern bucket = true -> plainName bucket = true ->
  keyParts <> [] -> Forall (fun x => segment x = true) keyParts ->
  let filePath :=
    (NodePath.resolve cwd [dir; "uploads"] ++ "/"
     ++ Js.joinSlash (bucket :: keyParts))%string in
  let result := UploadServer.handler cwd e w req in
  (exists rest, fst result = EvStat filePath :: rest) /\
  (UploadServer.stat w filePath = StatFails (Some "ENOENT") ->
   result = ([EvStat filePath], Json 404 "Not found")) /\
  (UploadServer.stat w filePath = StatOther ->
   result = ([EvStat filePath], Json 404 "Not found")) /\
  (forall size, UploadServer.stat w filePath = StatFile size ->
     (UploadServer.method req = "HEAD" -> result = ([EvStat filePath], Ended 200)) /\
     (UploadServer.method req = "GET" ->
      UploadServer.createReadStream w filePath = StreamCompletes ->
      result = ([EvStat filePath; EvCreateReadStream filePath], Streamed 200))).
Proof.
  intros Hcwd Hm Hd Hdir Hne Hparts Hpat Hplain Hkeys Hsegs filePath result.
  destruct (bucketPattern_noSlash bucket Hpat) as [Hbne Hbns].
  assert (Hall : Forall (fun x => segment x = true) (bucket :: keyParts)).
  { constructor; [|assumption]. unfold segment. now rewrite Hplain, Hbns. }
  destruct (resolve_under_root cwd dir (bucket :: keyParts) Hcwd) as [Epath Hguard];
    [discriminate | exact Hall |].
  fold filePath in Epath.
  assert (Hres : result
                 = match UploadServer.stat w filePath with
                   | StatFile _ =>
                       if String.eqb (UploadServer.method req) "HEAD"
                       then ([EvStat filePath], Ended 200)
                       else
                         match UploadServer.createReadStream w filePath with
                         | StreamCompletes | StreamErrorsAfterHeaders =>
                             ([EvStat filePath; EvCreateReadStream filePath],
                              Streamed 200)
                         | StreamErrorsBeforeHeaders =>
                             ([EvStat filePath; EvCreateReadStream filePath],
                              Json 500 "Failed to read file")
                         end
                   | StatOther => ([EvStat filePath], Json 404 "Not found")
                   | StatFails code =>
                       if codeIs code "ENOENT"
                       then ([EvStat filePath], Json 404 "Not found")
                       else ([EvStat filePath], Json 500 "Internal server error")
                   end).
  { subst result. unfold UploadServer.handler.
    assert (Hm' : negb (UploadServer.method req =? "GET")%string
                  && negb (UploadServer.method req =? "HEAD")%string = false).
    { destruct Hm as [-> | ->]; reflexivity. }
    rewrite Hm', Hd, Hdir, Hne. cbn [String.eqb Ascii.eqb Bool.eqb negb].
    unfold UploadServer.serve. rewrite Hparts, Hbne, Hpat.
    assert (Hlen : (length keyParts =? 0) = false)
      by (destruct keyParts; [congruence | reflexivity]).
    rewrite Hlen, (segments_not_bad keyParts Hsegs). cbn [negb orb]. cbv zeta.
    rewrite Hguard, Epath. reflexivity. }
  split; [|split; [|split]].
  - rewrite Hres. destruct (UploadServer.stat w filePath) as [n| |code].
    + destruct (String.eqb _ "HEAD"); [eexists; reflexivity|].
      destruct (UploadServer.createReadStream w filePath); eexists; reflexivity.
    + eexists; reflexivity.
    + destruct (codeIs code "ENOENT"); eexists; reflexivity.
  - intros Hs. rewrite Hres, Hs. reflexivity.
  - intros Hs. rewrite Hres, Hs. reflexivity.
  - intros size Hs. rewrite Hres, Hs. split.
    + intros ->. reflexivity.
    + intros -> ->. reflexivity.
Qed.

Lemma upload_server_serves_plain_paths_witness :
  UploadServer.handler Sample.cwd Sample.envFs SampleMore.oneFile SampleMore.getAvatar
  = ([EvStat "/data/uploads/avatars/u1/a.png";
      EvCreateReadStream "/data/uploads/avatars/u1/a.png"], Streamed 200).
Proof.
  destruct (upload_server_serves_plain_paths Sample.cwd Sample.envFs
              SampleMore.oneFile SampleMore.getAvatar "/data" "avatars"
              ["u1"; "a.png"] eq_refl (or_introl eq_refl) eq_refl eq_refl eq_refl
              eq_refl eq_refl eq_refl)
    as [_ [_ [_ Hfile]]].
  - discriminate.
  - repeat constructor.
  - exact (proj2 (Hfile 42 eq_refl) eq_refl eq_refl).
Defined.

Section DeleteTarget.

Variable unlink : string -> CallResult.
Variable sendDeleteObject : string -> string -> CallResult.

(** X7. In fs mode, for a bucket that is one plain segment and a key
    without ["."] or [".."] components, [deleteObject] unlinks exactly
    [<uploads root>/<bucket>/<key components joined by single slashes>]:
    it is never rejected, empty components of the key are dropped, and the
    call returns unless [unlink] fails with a code other than [ENOENT]. *)
Theorem deleteObject_unlinks_its_object
  (cwd : string) (e : Env) (dir bucket key : string) :
  NodePath.isAbsolute cwd = true ->
  S3Utils.getStorageDriver e = fs ->
  KAN_STORAGE_DIR e = Some dir -> Js.nonEmpty dir = true ->
  segment bucket = true ->
  Forall (fun c => plainName c = true) (components key) ->
  let target :=
    (NodePath.resolve cwd [dir; "uploads"] ++ "/"
     ++ Js.joinSlash (bucket :: components key))%string in
  let result := S3Utils.deleteObject unlink sendDeleteObject cwd e bucket key in
  fst result = [EvUnlink target] /\
  (unlink target = Done \/ unlink target = Fails (Some "ENOENT") ->
   snd result = Returns) /\
  (forall code, unlink target = Fails code -> codeIs code "ENOENT" = false ->
                snd result = Rethrows code).
Proof.
  intros Hcwd Hd Hdir Hne Hb Hkey target result.
  assert (Hall : Forall (fun x => segment x = true) (bucket :: components key)).
  { constructor; [exact Hb|]. unfold components in *.
    apply Forall_forall. intros x Hx. unfold segment.
    rewrite Forall_forall in Hkey. rewrite (Hkey x Hx).
    apply filter_In in Hx as [Hx _].
    pose proof (splitSlash_noSlash key) as Hns. rewrite Forall_forall in Hns.
    now rewrite (Hns x Hx). }
  destruct (resolve_under_root cwd dir (bucket :: components key) Hcwd)
    as [Epath Hguard]; [discriminate | exact Hall |].
  fold target in Epath.
  pose proof (delete_after_guard unlink sendDeleteObject cwd e dir bucket key
                Hd Hdir Hne (or_introl Hguard)) as Hres.
  fold (components key) in Hres. rewrite Epath in Hres. fold result in Hres.
  rewrite Hres. split; [reflexivity|]. split.
  - intros [-> | ->]; reflexivity.
  - intros code -> ->. reflexivity.
Qed.

End DeleteTarget.

Lemma deleteObject_unlinks_its_object_witness :
  S3Utils.deleteObject SampleMore.unlinkOneFile Sample.sendNothing Sample.cwd
    Sample.envFs "avatars" "/u1//a.png"
  = ([EvUnlink "/data/uploads/avatars/u1/a.png"], Returns).
Proof.
  destruct (deleteObject_unlinks_its_object SampleMore.unlinkOneFile
              Sample.sendNothing Sample.cwd Sample.envFs "/data" "avatars"
              "/u1//a.png" eq_refl eq_refl eq_refl eq_refl eq_refl)
    as [Htrace [Hret _]].
  - vm_compute. repeat constructor.
  - rewrite (surjective_pairing (S3Utils.deleteObject _ _ _ _ _ _)).
    rewrite Htrace, Hret; [reflexivity | left; reflexivity].
Defined.

(** ** What the handlers touch *)

(** X8. The upload file server touches the file system in one of three
    ways only: not at all, one [stat], or one [stat] followed by one open of
    the same path.  It opens a file only after [stat] reported a regular
    file and never for a HEAD request, and it answers 200 only for a regular
    file. *)
Theorem upload_server_trace
  (cwd : string) (e : Env) (w : UploadServer.World) (req : UploadServer.Request) :
  let result := UploadServer.handler cwd e w req in
  match fst result with
  | [] => replyStatus (snd result) <> Some 200
  | [EvStat p] =>
      replyStatus (snd result) = Some 200 ->
      (exists size, UploadServer.stat w p = StatFile size) /\
      UploadServer.method req = "HEAD"
  | [EvStat p; EvCreateReadStream q] =>
      p = q /\ (exists size, UploadServer.stat w p = StatFile size) /\
      UploadServer.method req = "GET"
  | _ => False
  end.
Proof.
  cbv zeta. unfold UploadServer.handler.
  destruct (String.eqb_spec (UploadServer.method req) "GET") as [Hget|Hget];
    destruct (String.eqb_spec (UploadServer.method req) "HEAD") as [Hhead|Hhead];
    cbn [negb andb]; try (cbn; discriminate).
  all: destruct (negb _); [cbn; discriminate|].
  all: destruct (KAN_STORAGE_DIR e) as [dir|]; [|cbn; discriminate].
  all: destruct (Js.nonEmpty dir); [|cbn; discriminate].
  all: unfold UploadServer.serve.
  all: destruct (UploadServer.parts _) as [|bucket keyParts]; [cbn; discriminate|].
  all: destruct (negb _ || _); [cbn; discriminate|].
  all: destruct (negb _); [cbn; discriminate|].
  all: destruct (existsb _ _); [cbn; discriminate|].
  all: cbv zeta; destruct (negb _); [cbn; discriminate|].
  all: destruct (UploadServer.stat w _) as [size| |code] eqn:Hstat.
  all: try (destruct (codeIs code "ENOENT"); cbn; discriminate).
  all: try (cbn; discriminate).
  - rewrite Hget in Hhead. discriminate Hhead.
  - rewrite Hget. cbn [String.eqb Ascii.eqb Bool.eqb].
    destruct (UploadServer.createReadStream w _); cbn;
      (split; [reflexivity | split; [now exists size | reflexivity]]).
  - rewrite Hhead. cbn. intros _. split; [now exists size | reflexivity].
Qed.

Section DownloaderTrace.

Variable parseUrl : string -> option Downloader.Url.
Variable decodeURIComponent : string -> option string.

Lemma serveLocal_trace (cwd storageDir : string) (w : Downloader.World)
  (parts : list string) :
  match fst (Downloader.serveLocal cwd storageDir w parts) with
  | [] => True
  | [EvStat p] => True
  | [EvStat p; EvCreateReadStream q] =>
      p = q /\ exists size, Downloader.stat w p = StatFile size
  | _ => False
  end.
Proof.
  unfold Downloader.serveLocal.
  destruct parts as [|bucket keyParts]; [exact I|].
  destruct (negb _ || _); [exact I|].
  destruct (negb _); [exact I|].
  destruct (existsb _ _); [exact I|].
  cbv zeta. destruct (negb _); [exact I|].
  destruct (Downloader.stat w _) as [size| |code] eqn:Hstat.
  - destruct (Downloader.pipelineFile w _) as [|code];
      [|destruct (Downloader.headersSentOnFailure w);
        [|destruct (codeIs code "ENOENT")]];
      cbn; (split; [reflexivity | now exists size]).
  - exact I.
  - destruct (codeIs code "ENOENT"); exact I.
Qed.

Lemma fetchUpstream_trace (w : Downloader.World) (u : Downloader.Url) :
  fst (Downloader.fetchUpstream w u) = [EvFetch (Downloader.href u)].
Proof.
  unfold Downloader.fetchUpstream.
  destruct (Downloader.fetch w u) as [|status hasBody]; [reflexivity|].
  destruct (negb (Downloader.ok status)); [reflexivity|].
  destruct (negb hasBody); [reflexivity|].
  destruct (Downloader.pipelineUpstream w u); [reflexivity|].
  destruct (Downloader.headersSentOnFailure w); reflexivity.
Qed.

(** X9. The attachment downloader either reads a local file or fetches
    upstream, never both, and at most once.  It fetches nothing but the URL
    of the request, and only when that URL is http or https with an origin
    in the allow-list (or with the allow-list empty); it touches the file
    system only when its driver is ["fs"] and the path of the URL lies under
    the public uploads path. *)
Theorem downloader_trace
  (cwd : string) (e : Env) (w : Downloader.World) (req : Downloader.Request) :
  let allowed := Downloader.getAllowedOrigins parseUrl e in
  let validated (u : Downloader.Url) :=
    Downloader.method req = "GET" /\
    (exists url, Downloader.queryUrl req = QString url /\ parseUrl url = Some u) /\
    (Downloader.protocol u = "http:" \/ Downloader.protocol u = "https:") /\
    (allowed = [] \/ In (Downloader.origin u) allowed) in
  match fst (Downloader.handler parseUrl decodeURIComponent cwd e w req) with
  | [] => True
  | [EvFetch h] => exists u, validated u /\ h = Downloader.href u
  | EvStat p :: rest =>
      (rest = [] \/ rest = [EvCreateReadStream p]) /\
      Downloader.getStorageDriver e = "fs" /\
      exists u, validated u /\
                Js.startsWith (Downloader.pathname u)
                  (Downloader.normalizeUploadsPath (NEXT_PUBLIC_UPLOADS_PATH e) ++ "/")
                = true
  | _ => False
  end.
Proof.
  cbv zeta. unfold Downloader.handler.
  destruct (String.eqb_spec (Downloader.method req) "GET") as [Hget|Hget];
    [|exact I]. cbn [negb].
  destruct (Downloader.queryUrl req) as [|url|] eqn:Hq; try exact I.
  destruct (negb (Js.nonEmpty url)); [exact I|].
  destruct (parseUrl url) as [u|] eqn:Hp; [|exact I].
  destruct (negb _ && negb _) eqn:Hproto; [exact I|].
  destruct ((0 <? _) && negb _) eqn:Horigin; [exact I|].
  assert (Hvalid : Downloader.method req = "GET" /\
                   (exists url0, QString url = QString url0 /\ parseUrl url0 = Some u) /\
                   (Downloader.protocol u = "http:" \/ Downloader.protocol u = "https:") /\
                   (Downloader.getAllowedOrigins parseUrl e = [] \/
                    In (Downloader.origin u) (Downloader.getAllowedOrigins parseUrl e))).
  { split; [exact Hget|]. split; [now exists url|]. split.
    - apply andb_false_iff in Hproto as [H|H]; apply negb_false_iff in H;
        apply String.eqb_eq in H; auto.
    - apply andb_false_iff in Horigin as [H|H].
      + left. destruct (Downloader.getAllowedOrigins parseUrl e); [reflexivity|].
        discriminate H.
      + right. apply negb_false_iff in H. now apply has_In in H. }
  assert (Hfetch : match fst (Downloader.fetchUpstream w u) with
                   | [EvFetch h] =>
                       exists u0, (Downloader.method req = "GET" /\
                         (exists url0, QString url = QString url0
                                       /\ parseUrl url0 = Some u0) /\
                         (Downloader.protocol u0 = "http:"
                          \/ Downloader.protocol u0 = "https:") /\
                         (Downloader.getAllowedOrigins parseUrl e = [] \/
                          In (Downloader.origin u0)
                            (Downloader.getAllowedOrigins parseUrl e)))
                         /\ h = Downloader.href u0
                   | _ => False
                   end).
  { rewrite fetchUpstream_trace. exists u. split; [exact Hvalid | reflexivity]. }
  destruct (String.eqb_spec (Downloader.getStorageDriver e) "fs") as [Hfs|Hfs].
  2: { destruct (fst (Downloader.fetchUpstream w u)) as [|[] [|]]; try contradiction.
       exact Hfetch. }
  destruct (KAN_STORAGE_DIR e) as [dir|]; [|exact I].
  destruct (Js.nonEmpty dir); [|exact I].
  destruct (Js.nonEmpty _ && Js.startsWith _ _) eqn:Hlocal.
  2: { destruct (fst (Downloader.fetchUpstream w u)) as [|[] [|]]; try contradiction.
       exact Hfetch. }
  destruct (Downloader.decodeAll _ _) as [parts|]; [|exact I].
  apply andb_true_iff in Hlocal as [_ Hprefix].
  pose proof (serveLocal_trace cwd dir w parts) as Hloc.
  destruct (fst (Downloader.serveLocal cwd dir w parts)) as [|[p|p|p|h] rest];
    try contradiction; [exact I|].
  destruct rest as [|[q|q|q|h] rest]; try contradiction.
  - split; [now left|]. split; [exact Hfs|]. exists u. split; [exact Hvalid | exact Hprefix].
  - destruct rest; [|contradiction]. destruct Hloc as [-> _].
    split; [now right|]. split; [exact Hfs|]. exists u.
    split; [exact Hvalid | exact Hprefix].
Qed.

End DownloaderTrace.

(** ** Local downloads *)

Lemma sliceFrom_prefix (p r : string) :
  Js.sliceFrom (String.length p) (p ++ r) = r.
Proof. induction p as [|c p IH]; [reflexivity | exact IH]. Qed.

Lemma length_append (a b : string) :
  String.length (a ++ b) = String.length a + String.length b.
Proof. induction a as [|c a IH]; [reflexivity | cbn; now rewrite IH]. Qed.

Lemma sliceFrom_self (p : string) : Js.sliceFrom (String.length p) p = "".
Proof. induction p as [|c p IH]; [reflexivity | exact IH]. Qed.

Lemma sliceFrom_prefix_slash (p r : string) :
  Js.sliceFrom (String.length p + 1) (p ++ "/" ++ r) = r.
Proof.
  replace (String.length p + 1) with (String.length (p ++ "/")).
  - rewrite <- append_assoc. apply sliceFrom_prefix.
  - induction p as [|c p IH]; [reflexivity | cbn; now rewrite IH].
Qed.

Lemma startsWith_prefix_slash (p r : string) :
  Js.startsWith (p ++ "/" ++ r) (p ++ "/") = true.
Proof.
  rewrite startsWith_same_prefix. cbn [String.append Js.startsWith].
  rewrite Ascii.eqb_refl. apply startsWith_empty.
Qed.

Section LocalDownloads.

Variable parseUrl : string -> option Downloader.Url.
Variable decodeURIComponent : string -> option string.

(** X10. In fs mode, a validated URL whose path is the public uploads
    path followed by slash-separated segments that decode to a bucket
    matching the pattern (other than ["."] and [".."]) and a non-empty key of
    plain segments is served from disk and never fetched: the handler calls
    [stat] on exactly [<uploads root>/<bucket>/<key>], answers 404 when the
    file is missing, and streams it when it is a regular file. *)
Theorem downloader_serves_local_urls
  (cwd : string) (e : Env) (w : Downloader.World) (req : Downloader.Request)
  (url dir bucket : string) (u : Downloader.Url) (encoded keyParts : list string) :
  NodePath.isAbsolute cwd = true ->
  Downloader.method req = "GET" ->
  Downloader.queryUrl req = QString url -> Js.nonEmpty url = true ->
  parseUrl url = Some u ->
  Downloader.protocol u = "http:" \/ Downloader.protocol u = "https:" ->
  Downloader.getAllowedOrigins parseUrl e = [] \/
  In (Downloader.origin u) (Downloader.getAllowedOrigins parseUrl e) ->
  Downloader.getStorageDriver e = "fs" ->
  KAN_STORAGE_DIR e = Some dir -> Js.nonEmpty dir = true ->
  let uploadsPath := Downloader.normalizeUploadsPath (NEXT_PUBLIC_UPLOADS_PATH e) in
  Js.nonEmpty uploadsPath = true ->
  Downloader.pathname u = (uploadsPath ++ "/" ++ Js.joinSlash encoded)%string ->
  Forall (fun x => Js.nonEmpty x && noSlash x = true) encoded ->
  Downloader.decodeAll decodeURIComponent encoded = Some (bucket :: keyParts) ->
  Js.bucketPattern bucket = true -> plainName bucket = true ->
  keyParts <> [] -> Forall (fun x => segment x = true) keyParts ->
  let filePath :=
    (NodePath.resolve cwd [dir; "uploads"] ++ "/"
     ++ Js.joinSlash (bucket :: keyParts))%string in
  let result := Downloader.handler parseUrl decodeURIComponent cwd e w req in
  (exists rest, fst result = EvStat filePath :: rest) /\
  (Downloader.stat w filePath = StatFails (Some "ENOENT") ->
   result = ([EvStat filePath], Json 404 "Not found")) /\
  (forall size, Downloader.stat w filePath = StatFile size ->
     Downloader.pipelineFile w filePath = Done ->
     result = ([EvStat filePath; EvCreateReadStream filePath], Streamed 200)).
Proof.
  intros Hcwd Hm Hq Hurl Hp Hproto Horigin Hfs Hdir Hne uploadsPath Hup Hpath
    Henc Hdec Hpat Hplain Hkeys Hsegs filePath result.
  destruct (bucketPattern_noSlash bucket Hpat) as [Hbne Hbns].
  assert (Hall : Forall (fun x => segment x = true) (bucket :: keyParts)).
  { constructor; [|assumption]. unfold segment. now rewrite Hplain, Hbns. }
  destruct (resolve_under_root cwd dir (bucket :: keyParts) Hcwd) as [Epath Hguard];
    [discriminate | exact Hall |].
  fold filePath in Epath.
  assert (Hparts : filter Js.nonEmpty (Js.splitSlash (Js.joinSlash encoded)) = encoded).
  { destruct encoded as [|x xs]; [discriminate Hdec|].
    rewrite splitSlash_joinSlash.
    - clear -Henc. induction Henc as [|y ys Hy _ IH]; [reflexivity|].
      cbn [filter]. apply andb_true_iff in Hy as [-> _]. now rewrite IH.
    - discriminate.
    - eapply Forall_impl; [|exact Henc]. intros a Ha.
      now apply andb_true_iff in Ha. }
  assert (Hres : result
                 = match Downloader.stat w filePath with
                   | StatFile _ =>
                       match Downloader.pipelineFile w filePath with
                       | Done =>
                           ([EvStat filePath; EvCreateReadStream filePath],
                            Streamed 200)
                       | Fails code =>
                           if Downloader.headersSentOnFailure w then
                             ([EvStat filePath; EvCreateReadStream filePath],
                              Thrown Downloader.headersSentError)
                           else if codeIs code "ENOENT" then
                             ([EvStat filePath; EvCreateReadStream filePath],
                              Json 404 "Not found")
                           else
                             ([EvStat filePath; EvCreateReadStream filePath],
                              Json 500 "Failed to download attachment")
                       end
                   | StatOther => ([EvStat filePath], Json 404 "Not found")
                   | StatFails code =>
                       if codeIs code "ENOENT"
                       then ([EvStat filePath], Json 404 "Not found")
                       else ([EvStat filePath], Json 500 "Failed to download attachment")
                   end).
  { subst result. unfold Downloader.handler.
    rewrite Hm, Hq, Hurl, Hp. cbn [String.eqb Ascii.eqb Bool.eqb negb].
    assert (Hpr : negb (Downloader.protocol u =? "http:")%string
                  && negb (Downloader.protocol u =? "https:")%string = false).
    { destruct Hproto as [-> | ->]; reflexivity. }
    rewrite Hpr.
    assert (Hor : (0 <? length (Downloader.getAllowedOrigins parseUrl e))
                  && negb (Downloader.has (Downloader.getAllowedOrigins parseUrl e)
                             (Downloader.origin u)) = false).
    { destruct Horigin as [-> | H]; [reflexivity|].
      apply has_In in H. rewrite H. apply andb_false_r. }
    rewrite Hor, Hfs, Hdir, Hne. cbn [String.eqb Ascii.eqb Bool.eqb].
    fold uploadsPath. rewrite Hup, Hpath, startsWith_prefix_slash.
    cbn [andb]. rewrite sliceFrom_prefix_slash, Hparts, Hdec.
    unfold Downloader.serveLocal. rewrite Hbne, Hpat.
    assert (Hlen : (length keyParts =? 0) = false)
      by (destruct keyParts; [congruence | reflexivity]).
    rewrite Hlen, (segments_not_bad keyParts Hsegs). cbn [negb orb]. cbv zeta.
    rewrite Hguard, Epath. reflexivity. }
  split; [|split].
  - rewrite Hres. destruct (Downloader.stat w filePath) as [n| |code].
    + destruct (Downloader.pipelineFile w filePath) as [|code];
        [|destruct (Downloader.headersSentOnFailure w);
          [|destruct (codeIs code "ENOENT")]]; eexists; reflexivity.
    + eexists; reflexivity.
    + destruct (codeIs code "ENOENT"); eexists; reflexivity.
  - intros Hs. rewrite Hres, Hs. reflexivity.
  - intros size Hs Hpipe. rewrite Hres, Hs, Hpipe. reflexivity.
Qed.

End LocalDownloads.

Lemma downloader_serves_local_urls_witness :
  Downloader.handler Sample.parseUrl Sample.decodeURIComponent Sample.cwd
    Sample.envFs (Sample.upstream 200)
    (Downloader.mkRequest "GET"
       (QString "https://kan.example/uploads/avatars/a.png") QUndefined)
  = ([EvStat "/data/uploads/avatars/a.png"], Json 404 "Not found").
Proof.
  refine (proj1 (proj2 (downloader_serves_local_urls Sample.parseUrl
            Sample.decodeURIComponent Sample.cwd Sample.envFs (Sample.upstream 200)
            (Downloader.mkRequest "GET"
               (QString "https://kan.example/uploads/avatars/a.png") QUndefined)
            "https://kan.example/uploads/avatars/a.png" "/data" "avatars"
            (Downloader.mkUrl "https://kan.example/uploads/avatars/a.png" "https:"
               "https://kan.example" "/uploads/avatars/a.png")
            ["avatars"; "a.png"] ["a.png"]
            eq_refl eq_refl eq_refl eq_refl eq_refl (or_intror eq_refl) _
            eq_refl eq_refl eq_refl eq_refl eq_refl _ eq_refl eq_refl eq_refl _ _))
            eq_refl).
  - right. vm_compute. left. reflexivity.
  - repeat constructor.
  - discriminate.
  - repeat constructor.
Defined.

(** ** The edge middleware *)

Lemma startsWith_split (s p : string) :
  Js.startsWith s p = true -> exists r, s = (p ++ r)%string.
Proof.
  revert s. induction p as [|a p IH]; intros s H.
  - exists s. reflexivity.
  - destruct s as [|b s]; [discriminate H|].
    cbn [Js.startsWith] in H. apply andb_true_iff in H as [Hab H].
    apply Ascii.eqb_eq in Hab. subst b.
    destruct (IH s H) as [r ->]. exists r. reflexivity.
Qed.

Lemma middleware_path_nonEmpty (pathname : option string) (uploadsPath : string) :
  Middleware.normalizeUploadsPath pathname = Some uploadsPath ->
  Js.nonEmpty uploadsPath = true /\
  Downloader.normalizeUploadsPath pathname = uploadsPath.
Proof.
  intros H. apply middleware_path_iff in H.
  destruct H as [H Hne]. split; [|exact H].
  destruct uploadsPath; [congruence | reflexivity].
Qed.

(** Every path below the uploads path is rewritten. *)
Lemma middleware_rewrites_below (e : Env) (kanEnv : option string)
  (uploadsPath rest : string) :
  Middleware.normalizeUploadsPath (NEXT_PUBLIC_UPLOADS_PATH e) = Some uploadsPath ->
  Middleware.middleware e kanEnv (uploadsPath ++ "/" ++ rest)
  = Middleware.Rewrite ("/api/uploads/" ++ rest).
Proof.
  intros Hn. unfold Middleware.middleware. rewrite Hn.
  destruct (middleware_path_nonEmpty _ _ Hn) as [Hne _]. rewrite Hne.
  rewrite startsWith_prefix_slash, orb_true_r, sliceFrom_prefix. reflexivity.
Qed.

(** X11. The middleware rewrites a path only when it is the public
    uploads path or continues it after a slash, and then to [/api/uploads]
    followed by what comes after the uploads path; every path below the
    uploads path is rewritten.  It redirects to [/login] only for the path
    ["/"] outside the cloud environment. *)
Theorem middleware_rewrites_uploads (e : Env) (kanEnv : option string)
  (pathname : string) :
  match Middleware.middleware e kanEnv pathname with
  | Middleware.Rewrite destination =>
      exists uploadsPath remainder,
        Middleware.normalizeUploadsPath (NEXT_PUBLIC_UPLOADS_PATH e) = Some uploadsPath /\
        pathname = (uploadsPath ++ remainder)%string /\
        (remainder = "" \/ Js.startsWithSlash remainder = true) /\
        destination = ("/api/uploads" ++ remainder)%string
  | Middleware.Redirect destination =>
      destination = "/login" /\ pathname = "/" /\ kanEnv <> Some "cloud"
  | Middleware.Next => pathname <> "/" \/ kanEnv = Some "cloud"
  end /\
  (forall uploadsPath rest,
      Middleware.normalizeUploadsPath (NEXT_PUBLIC_UPLOADS_PATH e) = Some uploadsPath ->
      Middleware.middleware e kanEnv (uploadsPath ++ "/" ++ rest)
      = Middleware.Rewrite ("/api/uploads/" ++ rest)).
Proof.
  set (fall := if String.eqb pathname "/" then
                 if negb (match kanEnv with
                          | Some v => String.eqb v "cloud"
                          | None => false
                          end)
                 then Middleware.Redirect "/login" else Middleware.Next
               else Middleware.Next).
  assert (Hfall :
            match fall with
            | Middleware.Rewrite _ => False
            | Middleware.Redirect destination =>
                destination = "/login" /\ pathname = "/" /\ kanEnv <> Some "cloud"
            | Middleware.Next => pathname <> "/" \/ kanEnv = Some "cloud"
            end).
  { subst fall. destruct (String.eqb_spec pathname "/") as [Hp|Hp]; [|now left].
    destruct kanEnv as [v|]; cbn [negb].
    - destruct (String.eqb_spec v "cloud") as [->|Hv]; cbn [negb].
      + now right.
      + split; [reflexivity|]. split; [exact Hp|]. congruence.
    - split; [reflexivity|]. split; [exact Hp | discriminate]. }
  assert (Hdone :
            match fall with
            | Middleware.Rewrite destination =>
                exists uploadsPath remainder,
                  Middleware.normalizeUploadsPath (NEXT_PUBLIC_UPLOADS_PATH e)
                  = Some uploadsPath /\
                  pathname = (uploadsPath ++ remainder)%string /\
                  (remainder = "" \/ Js.startsWithSlash remainder = true) /\
                  destination = ("/api/uploads" ++ remainder)%string
            | Middleware.Redirect destination =>
                destination = "/login" /\ pathname = "/" /\ kanEnv <> Some "cloud"
            | Middleware.Next => pathname <> "/" \/ kanEnv = Some "cloud"
            end).
  { destruct fall; [contradiction | exact Hfall | exact Hfall]. }
  clear Hfall. split.
  - unfold Middleware.middleware. cbv zeta. fold fall.
    destruct (Middleware.normalizeUploadsPath (NEXT_PUBLIC_UPLOADS_PATH e))
      as [uploadsPath|] eqn:Hn; [|exact Hdone].
    destruct (Js.nonEmpty uploadsPath); [|exact Hdone].
    destruct (String.eqb_spec pathname uploadsPath) as [Heq|Hneq]; cbn [orb].
    + exists uploadsPath, "". rewrite Heq, sliceFrom_self, append_empty_r. auto.
    + destruct (Js.startsWith pathname (uploadsPath ++ "/")) eqn:Hs; [|exact Hdone].
      apply startsWith_split in Hs as [r Hs]. rewrite Hs, append_assoc.
      exists uploadsPath, ("/" ++ r)%string.
      rewrite sliceFrom_prefix. split; [reflexivity|]. split; [reflexivity|].
      split; [right; reflexivity | reflexivity].
  - intros uploadsPath rest Hn. now apply middleware_rewrites_below.
Qed.

(** X12. The downloader takes the path of a URL for a local upload
    exactly when the middleware rewrites that path to one below
    [/api/uploads/], and both keep the same remainder of the path. *)
Theorem downloader_and_middleware_agree (e : Env) (kanEnv : option string)
  (pathname : string) :
  let uploadsPath := Downloader.normalizeUploadsPath (NEXT_PUBLIC_UPLOADS_PATH e) in
  let remainder := Js.sliceFrom (String.length uploadsPath + 1) pathname in
  Js.nonEmpty uploadsPath && Js.startsWith pathname (uploadsPath ++ "/") = true <->
  (pathname <> uploadsPath /\
   Middleware.middleware e kanEnv pathname
   = Middleware.Rewrite ("/api/uploads/" ++ remainder)).
Proof.
  intros uploadsPath remainder. subst remainder.
  pose proof (middleware_path_iff (NEXT_PUBLIC_UPLOADS_PATH e)) as Hsome.
  fold uploadsPath in Hsome.
  split.
  - intros H. apply andb_true_iff in H as [Hne Hs].
    assert (Hn : Middleware.normalizeUploadsPath (NEXT_PUBLIC_UPLOADS_PATH e)
                 = Some uploadsPath).
    { apply Hsome. split; [reflexivity|]. intros E. rewrite E in Hne. discriminate Hne. }
    apply startsWith_split in Hs as [r ->]. rewrite append_assoc.
    split.
    + intros E. apply (f_equal String.length) in E.
      rewrite length_append in E. cbn in E. lia.
    + rewrite sliceFrom_prefix_slash.
      exact (middleware_rewrites_below e kanEnv uploadsPath r Hn).
  - intros [Hneq Hrw]. unfold Middleware.middleware in Hrw.
    destruct (Middleware.normalizeUploadsPath (NEXT_PUBLIC_UPLOADS_PATH e))
      as [up|] eqn:Hn.
    + destruct (proj1 (Hsome up) eq_refl) as [Hup _]. subst up.
      destruct (Js.nonEmpty uploadsPath) eqn:Hne.
      * apply String.eqb_neq in Hneq. rewrite Hneq in Hrw. cbn [orb] in Hrw.
        destruct (Js.startsWith pathname (uploadsPath ++ "/")); [reflexivity|].
        destruct (String.eqb pathname "/"); [|discriminate Hrw].
        destruct (negb _); discriminate Hrw.
      * destruct (String.eqb pathname "/"); [|discriminate Hrw].
        destruct (negb _); discriminate Hrw.
    + destruct (String.eqb pathname "/"); [|discriminate Hrw].
      destruct (negb _); discriminate Hrw.
Qed.

(** ** The origin allow-list *)

Section AllowList.

Variable parseUrl : string -> option Downloader.Url.

(** X13. An origin is allowed exactly when it is the origin of
    [NEXT_PUBLIC_STORAGE_URL] or of [NEXT_PUBLIC_BASE_URL], for a value that
    is set, not empty and parses as a URL; so the allow-list is empty exactly
    when neither variable holds a URL that parses. *)
Theorem allowed_origins_are_configured_origins (e : Env) (o : string) :
  let configured (v : option string) :=
    exists s u, v = Some s /\ s <> "" /\ parseUrl s = Some u /\ Downloader.origin u = o in
  (In o (Downloader.getAllowedOrigins parseUrl e) <->
   configured (NEXT_PUBLIC_STORAGE_URL e) \/ configured (NEXT_PUBLIC_BASE_URL e)) /\
  (Downloader.getAllowedOrigins parseUrl e = [] <->
   forall v s, (v = NEXT_PUBLIC_STORAGE_URL e \/ v = NEXT_PUBLIC_BASE_URL e) ->
               v = Some s -> s <> "" -> parseUrl s = None).
Proof.
  cbv zeta.
  assert (Hin : forall o',
             In o' (Downloader.getAllowedOrigins parseUrl e) <->
             exists s u, (NEXT_PUBLIC_STORAGE_URL e = Some s \/
                          NEXT_PUBLIC_BASE_URL e = Some s) /\
                         s <> "" /\ parseUrl s = Some u /\ Downloader.origin u = o').
  { intros o'. unfold Downloader.getAllowedOrigins. rewrite in_flat_map. split.
    - intros [s [Hs Ho]]. apply filter_In in Hs as [Hs Hne].
      apply in_flat_map in Hs as [v [Hv Hs]].
      destruct (parseUrl s) as [u|] eqn:Hp; [|contradiction].
      destruct Ho as [Ho|[]]. exists s, u.
      assert (Hsome : v = Some s)
        by (destruct v as [s'|]; [destruct Hs as [->|[]]; reflexivity | contradiction]).
      subst v. split.
      + destruct Hv as [Hv|[Hv|[]]]; auto.
      + split; [intros E; rewrite E in Hne; discriminate Hne | auto].
    - intros [s [u [Hv [Hne [Hp Ho]]]]]. exists s. split.
      + apply filter_In. split.
        * apply in_flat_map. exists (Some s). split; [|now left].
          destruct Hv as [<-|<-]; [now left | right; now left].
        * destruct s; [congruence | reflexivity].
      + rewrite Hp. now left. }
  split.
  - rewrite Hin. split.
    + intros [s [u [[Hv|Hv] H]]]; [left | right]; exists s, u; tauto.
    + intros [[s [u [Hv H]]]|[s [u [Hv H]]]]; exists s, u; tauto.
  - split.
    + intros Hnil v s Hv Hs Hne.
      destruct (parseUrl s) as [u|] eqn:Hp; [|reflexivity]. exfalso.
      assert (Hi : In (Downloader.origin u) (Downloader.getAllowedOrigins parseUrl e)).
      { apply Hin. exists s, u. subst v.
        split; [destruct Hv as [Hv|Hv]; rewrite <- Hv; auto | auto]. }
      rewrite Hnil in Hi. exact Hi.
    + intros Hall.
      destruct (Downloader.getAllowedOrigins parseUrl e) as [|o' os] eqn:E;
        [reflexivity|]. exfalso.
      assert (Hi : In o' (o' :: os)) by now left.
      apply Hin in Hi as [s [u [Hv [Hne [Hp _]]]]].
      destruct Hv as [Hv|Hv].
      * rewrite (Hall _ s (or_introl eq_refl) Hv Hne) in Hp. discriminate Hp.
      * rewrite (Hall _ s (or_intror eq_refl) Hv Hne) in Hp. discriminate Hp.
Qed.

End AllowList.

(** ** The health report *)

Section HealthReport.

Variables avatarBucketName attachmentsBucketName : option string.

(** X14. The three fields of the health report are tied together:
    [database] is "ok" exactly when the database check succeeds, [storage]
    is "not_configured" exactly when storage is not configured, and [status]
    is "ok" exactly when [database] is "ok" and [storage] is not "error".
    With the s3 driver the storage check fails only when the endpoint and
    both credentials are set and a [HeadBucket] call fails; [storage] is
    then "error". *)
Theorem health_report_fields (cwd : string) (e : Env) (w : Health.World) :
  let r := Health.health avatarBucketName attachmentsBucketName cwd e w in
  (Health.database r = Health.StatusOk <-> Health.checkDatabaseConnection w = true) /\
  (Health.storage r = Health.StorageNotConfigured <->
   Health.storageConfigured e = false) /\
  (Health.status r = Health.StatusOk <->
   Health.database r = Health.StatusOk /\ Health.storage r <> Health.StorageError) /\
  (S3Utils.getStorageDriver e = s3 ->
   Health.checkStorageConnection avatarBucketName attachmentsBucketName cwd e w = false ->
   Health.storage r = Health.StorageError /\
   Js.truthy (S3_ENDPOINT e) = true /\ Js.truthy (S3_ACCESS_KEY_ID e) = true /\
   Js.truthy (S3_SECRET_ACCESS_KEY e) = true /\
   (Health.headBucket w avatarBucketName <> Done \/
    Health.headBucket w attachmentsBucketName <> Done)).
Proof.
  cbv zeta. unfold Health.health. cbn [Health.database Health.storage Health.status].
  split; [|split; [|split]].
  - destruct (Health.checkDatabaseConnection w); split; congruence.
  - destruct (Health.storageConfigured e); cbn [negb];
      [destruct (Health.checkStorageConnection _ _ cwd e w)|]; split; congruence.
  - destruct (Health.checkDatabaseConnection w), (Health.storageConfigured e),
      (Health.checkStorageConnection _ _ cwd e w); cbn;
      split; intros H; try discriminate H; try reflexivity;
      try (split; [reflexivity | discriminate]);
      try (destruct H as [H1 H2]; first [discriminate H1 | now elim H2]).
  - intros Hs3. unfold Health.checkStorageConnection, Health.storageConfigured.
    rewrite Hs3.
    destruct (Js.truthy (S3_ENDPOINT e)), (Js.truthy (S3_ACCESS_KEY_ID e)),
      (Js.truthy (S3_SECRET_ACCESS_KEY e)); cbn [negb orb andb];
      try discriminate.
    unfold Health.succeeded.
    destruct (Health.headBucket w avatarBucketName) eqn:Ha.
    + destruct (Health.headBucket w attachmentsBucketName) eqn:Hb; [discriminate|].
      intros _. repeat split; try reflexivity. right. discriminate.
    + intros _. repeat split; try reflexivity. left. discriminate.
Qed.

End HealthReport.

(** ** The counts of the stats endpoint *)

(** The first rejection at the positions [order], and what precedes it. *)
Lemma firstRejection_some (ps : list (Settled nat)) (order : list nat)
  (reason : Reason) :
  Health.firstRejection ps order = Some reason ->
  exists before i after,
    order = (before ++ i :: after)%list /\
    nth_error ps i = Some (Rejected reason) /\
    forall j r, In j before -> nth_error ps j <> Some (Rejected r).
Proof.
  induction order as [|i order IH]; [discriminate|].
  cbn [Health.firstRejection].
  destruct (nth_error ps i) as [[v|reason']|] eqn:E.
  - intros H. destruct (IH H) as [before [k [after [-> [Hk Hb]]]]].
    exists (i :: before), k, after. split; [reflexivity|]. split; [exact Hk|].
    intros j r [<-|Hj]; [congruence | now apply Hb].
  - intros H. injection H as ->. exists [], i, order.
    split; [reflexivity|]. split; [exact E|]. intros j r [].
  - intros H. destruct (IH H) as [before [k [after [-> [Hk Hb]]]]].
    exists (i :: before), k, after. split; [reflexivity|]. split; [exact Hk|].
    intros j r [<-|Hj]; [congruence | now apply Hb].
Qed.

Lemma firstRejection_nowhere (ps : list (Settled nat)) (order : list nat) :
  Health.firstRejection ps order = None ->
  forall j r, In j order -> nth_error ps j <> Some (Rejected r).
Proof.
  induction order as [|i order IH]; intros H j r Hj; [destruct Hj|].
  cbn [Health.firstRejection] in H.
  destruct (nth_error ps i) as [[v|reason']|] eqn:E; try discriminate H;
    (destruct Hj as [<-|Hj]; [congruence | now apply IH]).
Qed.

(** In the order of the array, the first rejection wins. *)
Lemma allInOrder_rejects (ps : list (Settled nat)) :
  (exists reason, In (Rejected reason) ps) ->
  exists i first,
    Health.allInOrder ps = Rejected first /\
    nth_error ps i = Some (Rejected first) /\
    forall j r, j < i -> nth_error ps j <> Some (Rejected r).
Proof.
  induction ps as [|[v|m0] ps IH]; intros [m Hin].
  - destruct Hin.
  - destruct Hin as [Hin|Hin]; [discriminate Hin|].
    destruct (IH (ex_intro _ m Hin)) as [i [first [Hall [Hi Hb]]]].
    exists (S i), first. split; [cbn; now rewrite Hall|]. split; [exact Hi|].
    intros [|j] r Hj; [discriminate|]. apply Hb. lia.
  - exists 0, m0. split; [reflexivity|]. split; [reflexivity|]. lia.
Qed.

Lemma promiseAll_query (ps : list (Settled nat)) (order : list nat)
  (vs : list nat) (i : nat) (q : Settled nat) :
  Health.promiseAll ps order = Fulfilled vs -> nth_error ps i = Some q ->
  exists v, q = Fulfilled v /\ nth_error vs i = Some v.
Proof.
  intros Hall Hq.
  destruct (nth_error vs i) as [v|] eqn:Hv.
  - exists v. split; [|reflexivity].
    apply (promiseAll_nth ps order vs i v Hall) in Hv. congruence.
  - apply nth_error_None in Hv. rewrite (promiseAll_length ps order vs Hall) in Hv.
    apply nth_error_None in Hv. congruence.
Qed.

Section StatsCounts.

Variable Db : Type.
Variables userRepo_getCount workspaceRepo_getCount boardRepo_getCount
  listRepo_getCount cardRepo_getCount cardCommentRepo_getCount
  checklistRepo_getCountItems checklistRepo_getCount labelRepo_getCount
  cardAttachmentRepo_getCount cardActivityRepo_getCount
  memberRepo_getActiveCount inviteLinkRepo_getActiveCount
  importRepo_getCount : Db -> Settled nat.

(** X15. When the stats query answers, each of its other fields holds
    the count of its own repository query: users, workspaces, boards, lists,
    cards, card comments, checklist items, checklists, labels, card
    attachments, active invite links and imports. *)
Theorem stats_fields_hold_their_counts
  (order : list nat) (db : Db) (r : Health.StatsObject) :
  Health.stats Db userRepo_getCount workspaceRepo_getCount boardRepo_getCount
    listRepo_getCount cardRepo_getCount cardCommentRepo_getCount
    checklistRepo_getCountItems checklistRepo_getCount labelRepo_getCount
    cardAttachmentRepo_getCount cardActivityRepo_getCount
    memberRepo_getActiveCount inviteLinkRepo_getActiveCount
    importRepo_getCount order db = Ok r ->
  let holds (field : option nat) (query : Settled nat) :=
    exists v, query = Fulfilled v /\ field = Some v in
  holds (Health.users r) (userRepo_getCount db) /\
  holds (Health.workspaces r) (workspaceRepo_getCount db) /\
  holds (Health.boards r) (boardRepo_getCount db) /\
  holds (Health.lists r) (listRepo_getCount db) /\
  holds (Health.cards r) (cardRepo_getCount db) /\
  holds (Health.cardComments r) (cardCommentRepo_getCount db) /\
  holds (Health.checklistItems r) (checklistRepo_getCountItems db) /\
  holds (Health.checklists r) (checklistRepo_getCount db) /\
  holds (Health.labels r) (labelRepo_getCount db) /\
  holds (Health.cardAttachments r) (cardAttachmentRepo_getCount db) /\
  holds (Health.activeInviteLinks r) (inviteLinkRepo_getActiveCount db) /\
  holds (Health.imports r) (importRepo_getCount db).
Proof.
  unfold Health.stats.
  match goal with |- context [Health.promiseAll ?ps order] =>
    destruct (Health.promiseAll ps order) as [vs|m] eqn:E end; [|discriminate].
  intros H. injection H as <-. cbv zeta.
  unfold Health.destructure.
  cbn [Health.users Health.workspaces Health.boards Health.lists Health.cards
       Health.cardComments Health.checklistItems Health.checklists Health.labels
       Health.cardAttachments Health.activeInviteLinks Health.imports].
  repeat split;
    match goal with
    | |- exists v, _ = Fulfilled v /\ nth_error vs ?i = Some v =>
        apply (promiseAll_query _ order vs i _ E); reflexivity
    end.
Qed.

(** X16. When a count query is rejected the stats query gives no
    partial result: it throws "Failed to retrieve statistics: " followed by
    the message of the rejection that came first, when that is an [Error],
    and by "Unknown error" when it is another value.  The rejection that
    came first is the first one at the positions of the settlement order
    or, when none of these is rejected, the first one in the array. *)
Theorem stats_rejects_with_a_query
  (order : list nat) (db : Db) (reason : Reason) :
  let queries :=
    Health.countQueries Db userRepo_getCount workspaceRepo_getCount
      boardRepo_getCount listRepo_getCount cardRepo_getCount
      cardCommentRepo_getCount checklistRepo_getCountItems
      checklistRepo_getCount labelRepo_getCount cardAttachmentRepo_getCount
      cardActivityRepo_getCount memberRepo_getActiveCount
      inviteLinkRepo_getActiveCount importRepo_getCount db in
  let rejected (j : nat) := exists r, nth_error queries j = Some (Rejected r) in
  In (Rejected reason) queries ->
  exists i first,
    nth_error queries i = Some (Rejected first) /\
    Health.stats Db userRepo_getCount workspaceRepo_getCount boardRepo_getCount
      listRepo_getCount cardRepo_getCount cardCommentRepo_getCount
      checklistRepo_getCountItems checklistRepo_getCount labelRepo_getCount
      cardAttachmentRepo_getCount cardActivityRepo_getCount
      memberRepo_getActiveCount inviteLinkRepo_getActiveCount
      importRepo_getCount order db
    = Throw ("Failed to retrieve statistics: "
             ++ match first with
                | ErrorWith message => message
                | NotAnError => "Unknown error"
                end) /\
    ((exists before after,
        order = (before ++ i :: after)%list /\
        forall j, In j before -> ~ rejected j) \/
     ((forall j, In j order -> ~ rejected j) /\
      forall j, j < i -> ~ rejected j)).
Proof.
  intros queries rejected Hin. unfold Health.stats, Health.promiseAll.
  fold queries.
  destruct (Health.firstRejection queries order) as [first|] eqn:E.
  - destruct (firstRejection_some queries order first E)
      as [before [i [after [Horder [Hi Hb]]]]].
    exists i, first. split; [exact Hi|]. split; [destruct first; reflexivity|].
    left. exists before, after. split; [exact Horder|].
    intros j Hj [r Hr]. exact (Hb j r Hj Hr).
  - destruct (allInOrder_rejects queries (ex_intro _ reason Hin))
      as [i [first [Hall [Hi Hb]]]].
    exists i, first. split; [exact Hi|]. rewrite Hall.
    split; [destruct first; reflexivity|].
    right. split.
    + intros j Hj [r Hr]. exact (firstRejection_nowhere queries order E j r Hj Hr).
    + intros j Hj [r Hr]. exact (Hb j r Hj Hr).
Qed.

End StatsCounts.

Lemma stats_fields_hold_their_counts_witness :
  let other := fun c : Sample.Counts => Fulfilled (Sample.others c) in
  let members := fun c : Sample.Counts => Fulfilled (Sample.members c) in
  let activities := fun c : Sample.Counts => Fulfilled (Sample.activities c) in
  exists r,
    Health.stats Sample.Counts other other other other other other other other
      other other activities members other other (seq 0 16) Sample.someCounts
    = Ok r /\
    exists v, other Sample.someCounts = Fulfilled v /\ Health.users r = Some v.
Proof.
  intros other members activities.
  eexists. split; [reflexivity|].
  exact (proj1 (stats_fields_hold_their_counts Sample.Counts
                  other other other other other other other other other other
                  activities members other other (seq 0 16) Sample.someCounts
                  _ eq_refl)).
Defined.

(** The imports query is rejected first, with a value that is no [Error];
    the members query with an [Error], later. *)
Lemma stats_rejects_with_a_query_witness :
  let other := fun c : Sample.Counts => Fulfilled (Sample.others c) in
  let broken := fun _ : Sample.Counts =>
                  @Rejected nat (ErrorWith "connection lost") in
  let odd := fun _ : Sample.Counts => @Rejected nat NotAnError in
  Health.stats Sample.Counts other other other other other other other other
    other other other broken other odd [13; 11] Sample.someCounts
  = Throw "Failed to retrieve statistics: Unknown error" /\
  Health.stats Sample.Counts other other other other other other other other
    other other other broken other odd [11; 13] Sample.someCounts
  = Throw "Failed to retrieve statistics: connection lost" /\
  exists i first,
    nth_error
      (Health.countQueries Sample.Counts other other other other other other
         other other other other other broken other odd Sample.someCounts) i
    = Some (Rejected first) /\
    Health.stats Sample.Counts other other other other other other other other
      other other other broken other odd [13; 11] Sample.someCounts
    = Throw ("Failed to retrieve statistics: "
             ++ match first with
                | ErrorWith message => message
                | NotAnError => "Unknown error"
                end).
Proof.
  intros other broken odd. split; [reflexivity|]. split; [reflexivity|].
  destruct (stats_rejects_with_a_query Sample.Counts other other other other other
              other other other other other other broken other odd
              [13; 11] Sample.someCounts NotAnError)
    as [i [first [Hi [Hstats _]]]].
  - cbn. do 13 right. left. reflexivity.
  - exists i, first. split; [exact Hi | exact Hstats].
Defined.

(** ** Forwarded headers *)






















Lemma normalizeKey_get (headers : Trpc.Headers) (key name : string) :
  Trpc.get (Trpc.normalizeKey headers key) name
  = if String.eqb name key then option_map firstForwarded (Trpc.get headers key)
    else Trpc.get headers name.
Proof.
  unfold Trpc.normalizeKey, Trpc.get, firstForwarded.
  destruct (String.eqb_spec name key) as [->|Hneq].
  - destruct (headers key) as [raw|] eqn:Hraw; [|now rewrite ?Hraw].
    destruct raw as [|c r]; [now rewrite ?Hraw|]. cbn [Js.nonEmpty negb].
    set (first := Js.trim _).
    destruct (Js.nonEmpty first) eqn:Hne; cbn [andb option_map].
    + destruct (String.eqb_spec first (String c r)) as [Heq|Hdiff]; cbn [negb].
      * rewrite ?Hraw. fold first. rewrite Hne. congruence.
      * unfold Trpc.set. rewrite String.eqb_refl. fold first. now rewrite Hne.
    + rewrite ?Hraw. fold first. now rewrite Hne.
  - destruct (headers key) as [raw|]; [|reflexivity].
    destruct (negb (Js.nonEmpty raw)); [reflexivity|].
    destruct (_ && _); [|reflexivity].
    unfold Trpc.set. apply String.eqb_neq in Hneq. now rewrite Hneq.
Qed.

Lemma normalizeForwardedHeaders_get (headers : Trpc.Headers) (name : string) :
  Trpc.get (Trpc.normalizeForwardedHeaders headers) name
  = if existsb (String.eqb name) Trpc.forwardedKeys
    then option_map firstForwarded (Trpc.get headers name)
    else Trpc.get headers name.
Proof.
  unfold Trpc.normalizeForwardedHeaders, Trpc.forwardedKeys.
  cbn [fold_left existsb]. rewrite !normalizeKey_get.
  destruct (String.eqb_spec name "x-forwarded-port") as [->|H3]; [reflexivity|].
  destruct (String.eqb_spec name "x-forwarded-host") as [->|H2]; [reflexivity|].
  destruct (String.eqb_spec name "x-forwarded-proto") as [->|H1]; reflexivity.
Qed.


(** X18. The admin guard lets a request through exactly when the
    [x-admin-api-key] header is present and equal to a configured
    [KAN_ADMIN_API_KEY]: with the variable unset every request is refused,
    with or without the header.  The normalisation of the forwarded headers
    does not change the decision. *)
Theorem admin_guard_requires_the_key {A : Type} (headers : Trpc.Headers)
  (adminApiKey : option string) (next : A) :
  (Trpc.enforceUserIsAdmin headers adminApiKey next = Trpc.Proceeds next <->
   exists key, Trpc.get headers "x-admin-api-key" = Some key /\
               adminApiKey = Some key) /\
  (adminApiKey = None ->
   Trpc.enforceUserIsAdmin headers adminApiKey next = Trpc.Unauthorized) /\
  Trpc.enforceUserIsAdmin (Trpc.normalizeForwardedHeaders headers) adminApiKey next
  = Trpc.enforceUserIsAdmin headers adminApiKey next.
Proof.
  split; [|split].
  - unfold Trpc.enforceUserIsAdmin, Trpc.adminKeyDiffers.
    destruct (Trpc.get headers "x-admin-api-key") as [given|];
      destruct adminApiKey as [expected|]; cbn.
    + destruct (String.eqb_spec given expected) as [->|Hneq]; cbn.
      * split; [intros _; now exists expected | reflexivity].
      * split; [discriminate|]. intros [k [H1 H2]]. congruence.
    + split; [discriminate | intros [k [_ H]]; discriminate H].
    + split; [discriminate | intros [k [H _]]; discriminate H].
    + split; [discriminate | intros [k [H _]]; discriminate H].
  - intros ->. unfold Trpc.enforceUserIsAdmin, Trpc.adminKeyDiffers.
    destruct (Trpc.get headers "x-admin-api-key"); reflexivity.
  - unfold Trpc.enforceUserIsAdmin, Trpc.adminKeyDiffers.
    now rewrite normalizeForwardedHeaders_get.
Qed.

Example proxied_headers_normalized :
  Trpc.get (Trpc.normalizeForwardedHeaders proxiedHeaders) "x-forwarded-proto"
  = Some "http" /\
  Trpc.get (Trpc.normalizeForwardedHeaders proxiedHeaders) "x-forwarded-host"
  = Some "kan.example" /\
  Trpc.get (Trpc.normalizeForwardedHeaders proxiedHeaders) "x-admin-api-key"
  = Some "s3cret".
Proof. repeat split. Qed.

(** ** Content types *)

Section ContentTypes.

Variable extname : string -> string.

(** X19. The two handlers give a file the same content type, except for
    the extension [.json] (in any letter case): the attachment downloader
    answers text/plain where the upload file server answers
    application/octet-stream. *)
Theorem content_types_differ_on_json (filePath : string) :
  let ext := Js.toLowerCase (extname filePath) in
  (ext <> ".json" ->
   ContentType.downloadGetContentType extname filePath
   = ContentType.uploadGetContentType extname filePath) /\
  (ext = ".json" ->
   ContentType.downloadGetContentType extname filePath = "text/plain; charset=utf-8" /\
   ContentType.uploadGetContentType extname filePath = "application/octet-stream").
Proof.
  cbv zeta. unfold ContentType.downloadGetContentType, ContentType.uploadGetContentType.
  set (ext := Js.toLowerCase (extname filePath)).
  split.
  - intros Hjson. apply String.eqb_neq in Hjson. rewrite Hjson.
    repeat match goal with
           | |- context [String.eqb ext ?s] => destruct (String.eqb ext s)
           end; reflexivity.
  - intros ->. split; reflexivity.
Qed.

End ContentTypes.

(** ** Answers of the downloader *)

Section DownloaderAnswers.

Variable parseUrl : string -> option Downloader.Url.
Variable decodeURIComponent : string -> option string.

Lemma decodeAll_fails (xs : list string) :
  Downloader.decodeAll decodeURIComponent xs = None ->
  exists x, In x xs /\ decodeURIComponent x = None.
Proof.
  induction xs as [|x xs IH]; [discriminate|]. cbn [Downloader.decodeAll].
  destruct (decodeURIComponent x) as [d|] eqn:Hx.
  - destruct (Downloader.decodeAll decodeURIComponent xs); [discriminate|].
    intros _. destruct (IH eq_refl) as [y [Hin Hy]]. exists y. split; [now right | exact Hy].
  - intros _. exists x. split; [now left | exact Hx].
Qed.

(** X20. An exception leaves the downloader in two cases only: a segment
    of the path of the requested URL, below the public uploads path, cannot
    be percent-decoded (fs driver, nothing touched); or a pipeline failed
    after the response headers were sent, so that the [catch] block cannot
    answer.  Every other answer has status 200, 400, 404, 405, 500 or 502,
    or the status of the response, not OK, that upstream gave for the
    requested URL. *)
Theorem downloader_answers
  (cwd : string) (e : Env) (w : Downloader.World) (req : Downloader.Request) :
  let result := Downloader.handler parseUrl decodeURIComponent cwd e w req in
  let uploadsPath := Downloader.normalizeUploadsPath (NEXT_PUBLIC_UPLOADS_PATH e) in
  let requested (u : Downloader.Url) :=
    exists url, Downloader.queryUrl req = QString url /\ parseUrl url = Some u in
  match snd result with
  | Thrown _ =>
      (Downloader.getStorageDriver e = "fs" /\ fst result = [] /\
       exists u remainder segment,
         requested u /\
         Downloader.pathname u = (uploadsPath ++ "/" ++ remainder)%string /\
         In segment (Js.splitSlash remainder) /\
         decodeURIComponent segment = None)
      \/
      (Downloader.headersSentOnFailure w = true /\
       ((exists p code,
           fst result = [EvStat p; EvCreateReadStream p] /\
           Downloader.pipelineFile w p = Fails code) \/
        (exists u code,
           requested u /\ fst result = [EvFetch (Downloader.href u)] /\
           Downloader.pipelineUpstream w u = Fails code)))
  | reply =>
      exists status,
        replyStatus reply = Some status /\
        (In status [200; 400; 404; 405; 500; 502] \/
         exists u hasBody,
           requested u /\
           Downloader.fetch w u = Downloader.FetchResponse status hasBody /\
           Downloader.ok status = false)
  end.
Proof.
  intros result uploadsPath requested. subst result.
  set (P := fun r : list Event * Reply =>
              match snd r with
              | Thrown _ =>
                  (Downloader.getStorageDriver e = "fs" /\ fst r = [] /\
                   exists u remainder segment,
                     requested u /\
                     Downloader.pathname u = (uploadsPath ++ "/" ++ remainder)%string /\
                     In segment (Js.splitSlash remainder) /\
                     decodeURIComponent segment = None)
                  \/
                  (Downloader.headersSentOnFailure w = true /\
                   ((exists p code,
                       fst r = [EvStat p; EvCreateReadStream p] /\
                       Downloader.pipelineFile w p = Fails code) \/
                    (exists u code,
                       requested u /\ fst r = [EvFetch (Downloader.href u)] /\
                       Downloader.pipelineUpstream w u = Fails code)))
              | reply =>
                  exists status,
                    replyStatus reply = Some status /\
                    (In status [200; 400; 404; 405; 500; 502] \/
                     exists u hasBody,
                       requested u /\
                       Downloader.fetch w u = Downloader.FetchResponse status hasBody /\
                       Downloader.ok status = false)
              end).
  change (P (Downloader.handler parseUrl decodeURIComponent cwd e w req)).
  assert (Hfixed : forall trace status message,
             In status [200; 400; 404; 405; 500; 502] ->
             P (trace, Json status message)).
  { intros trace status message Hin. exists status. split; [reflexivity | now left]. }
  assert (Hstream : forall trace, P (trace, Streamed 200)).
  { intros trace. exists 200. split; [reflexivity | left; now left]. }
  assert (Hup : forall u, requested u -> P (Downloader.fetchUpstream w u)).
  { intros u Hu. unfold Downloader.fetchUpstream.
    destruct (Downloader.fetch w u) as [|status hasBody] eqn:Hf.
    - apply Hfixed. cbn. tauto.
    - destruct (negb (Downloader.ok status)) eqn:Hok.
      + exists status. split; [reflexivity|]. right. exists u, hasBody.
        split; [exact Hu|]. split; [exact Hf | now apply negb_true_iff in Hok].
      + destruct (negb hasBody); [apply Hfixed; cbn; tauto|].
        destruct (Downloader.pipelineUpstream w u) as [|code] eqn:Hpipe;
          [apply Hstream|].
        destruct (Downloader.headersSentOnFailure w) eqn:Hsent;
          [|apply Hfixed; cbn; tauto].
        right. split; [reflexivity|]. right. exists u, code.
        split; [exact Hu|]. split; [reflexivity | exact Hpipe]. }
  assert (Hloc : forall dir parts, P (Downloader.serveLocal cwd dir w parts)).
  { intros dir parts. unfold Downloader.serveLocal.
    destruct parts as [|bucket keyParts]; [apply Hfixed; cbn; tauto|].
    destruct (negb _ || _); [apply Hfixed; cbn; tauto|].
    destruct (negb _); [apply Hfixed; cbn; tauto|].
    destruct (existsb _ _); [apply Hfixed; cbn; tauto|].
    cbv zeta. destruct (negb _); [apply Hfixed; cbn; tauto|].
    destruct (Downloader.stat w _) as [size| |code].
    - destruct (Downloader.pipelineFile w _) as [|code] eqn:Hpipe;
        [apply Hstream|].
      destruct (Downloader.headersSentOnFailure w) eqn:Hsent.
      + right. split; [reflexivity|]. left. eexists. exists code.
        split; [reflexivity | exact Hpipe].
      + destruct (codeIs code "ENOENT"); apply Hfixed; cbn; tauto.
    - apply Hfixed; cbn; tauto.
    - destruct (codeIs code "ENOENT"); apply Hfixed; cbn; tauto. }
  unfold Downloader.handler.
  destruct (negb _); [apply Hfixed; cbn; tauto|].
  destruct (Downloader.queryUrl req) as [|url|] eqn:Hq;
    try (apply Hfixed; cbn; tauto).
  destruct (negb (Js.nonEmpty url)); [apply Hfixed; cbn; tauto|].
  destruct (parseUrl url) as [u|] eqn:Hparse; [|apply Hfixed; cbn; tauto].
  assert (Hu : requested u) by (exists url; split; [reflexivity | exact Hparse]).
  destruct (negb _ && negb _); [apply Hfixed; cbn; tauto|].
  destruct ((0 <? _) && negb _); [apply Hfixed; cbn; tauto|].
  destruct (String.eqb_spec (Downloader.getStorageDriver e) "fs") as [Hfs|Hfs];
    [|now apply Hup].
  destruct (KAN_STORAGE_DIR e) as [dir|]; [|apply Hfixed; cbn; tauto].
  destruct (Js.nonEmpty dir); [|apply Hfixed; cbn; tauto].
  fold uploadsPath.
  destruct (Js.nonEmpty uploadsPath && Js.startsWith _ _) eqn:Hunder;
    [|now apply Hup].
  destruct (Downloader.decodeAll _ _) as [parts|] eqn:Hdec; [apply Hloc|].
  left. split; [exact Hfs|]. split; [reflexivity|].
  destruct (decodeAll_fails _ Hdec) as [x [Hin Hx]].
  apply filter_In in Hin as [Hin _].
  apply andb_true_iff in Hunder as [_ Hunder].
  destruct (startsWith_split _ _ Hunder) as [r Hr].
  rewrite append_assoc in Hr.
  exists u, r, x. split; [exact Hu|]. split; [exact Hr|]. split; [|exact Hx].
  rewrite Hr in Hin. now rewrite sliceFrom_prefix_slash in Hin.
Qed.

End DownloaderAnswers.

(** ** The shared driver, once more *)

Lemma lowerChar_idem (c : ascii) : Js.lowerChar (Js.lowerChar c) = Js.lowerChar c.
Proof. destruct c as [[] [] [] [] [] [] [] []]; reflexivity. Qed.

(** X21. [KAN_STORAGE_DRIVER] is read without regard to letter case, an
    explicit ["fs"] or ["s3"] wins over the endpoint and the directory, and
    any other value is ignored as if the variable were unset. *)
Theorem explicit_driver_wins
  (d : string) (dir endpoint k1 k2 u1 u2 u3 : option string) :
  let e := mkEnv (Some d) dir endpoint k1 k2 u1 u2 u3 in
  let unset := mkEnv None dir endpoint k1 k2 u1 u2 u3 in
  (Js.toLowerCase d = "fs" -> S3Utils.getStorageDriver e = fs) /\
  (Js.toLowerCase d = "s3" -> S3Utils.getStorageDriver e = s3) /\
  (Js.toLowerCase d <> "fs" -> Js.toLowerCase d <> "s3" ->
   S3Utils.getStorageDriver e = S3Utils.getStorageDriver unset) /\
  S3Utils.getStorageDriver
    (mkEnv (Some (Js.toLowerCase d)) dir endpoint k1 k2 u1 u2 u3)
  = S3Utils.getStorageDriver e.
Proof.
  cbv zeta. unfold S3Utils.getStorageDriver.
  cbn [KAN_STORAGE_DRIVER S3_ENDPOINT KAN_STORAGE_DIR option_map].
  assert (Hidem : Js.toLowerCase (Js.toLowerCase d) = Js.toLowerCase d).
  { induction d as [|c r IH]; [reflexivity|].
    cbn [Js.toLowerCase]. now rewrite lowerChar_idem, IH. }
  rewrite Hidem. split; [|split; [|split]].
  - intros ->. reflexivity.
  - intros ->. reflexivity.
  - intros H1 H2. apply String.eqb_neq in H1, H2. now rewrite H1, H2.
  - reflexivity.
Qed.

(** ** The two copies of the local file branch *)

(** X22. On the same path segments the upload file server and the local
    branch of the downloader decide alike, whatever their worlds: both
    reject with status 400 and touch nothing, or both call [stat] first, and
    on the same path. *)
Theorem local_branches_agree
  (cwd storageDir : string) (wu : UploadServer.World) (wd : Downloader.World)
  (req : UploadServer.Request) :
  let upload := UploadServer.serve cwd storageDir wu req in
  let download :=
    Downloader.serveLocal cwd storageDir wd
      (UploadServer.parts (UploadServer.queryPath req)) in
  match fst upload, fst download with
  | [], [] =>
      replyStatus (snd upload) = Some 400 /\ replyStatus (snd download) = Some 400
  | EvStat p :: _, EvStat q :: _ => p = q
  | _, _ => False
  end.
Proof.
  cbv zeta. unfold UploadServer.serve, Downloader.serveLocal.
  destruct (UploadServer.parts _) as [|bucket keyParts]; [split; reflexivity|].
  destruct (negb _ || _); [split; reflexivity|].
  destruct (negb _); [split; reflexivity|].
  destruct (existsb _ _); [split; reflexivity|].
  cbv zeta. destruct (negb _); [split; reflexivity|].
  destruct (UploadServer.stat wu _) as [n| |code];
    [destruct (String.eqb _ "HEAD"); [|destruct (UploadServer.createReadStream wu _)]
    | | destruct (codeIs code "ENOENT")];
    (destruct (Downloader.stat wd _) as [n'| |code'];
     [destruct (Downloader.pipelineFile wd _) as [|code''];
      [|destruct (Downloader.headersSentOnFailure wd);
        [|destruct (codeIs code'' "ENOENT")]]
     | | destruct (codeIs code' "ENOENT")]); reflexivity.
Qed.

(** ** The file system driver signs nothing *)

(** X23. Under the fs driver no URL is ever signed: [generateUploadUrl]
    throws, and the download, avatar and attachment URLs are the same
    whatever the signer would answer. *)
Theorem fs_driver_never_signs
  (put : Env -> string -> string -> string -> nat -> Result string)
  (signer signer' : Env -> string -> string -> nat -> Result string)
  (e : Env) (bucket key contentType : string)
  (bucketName imageKey : option string) (expiresIn : nat) :
  S3Utils.getStorageDriver e = fs ->
  S3Urls.generateUploadUrl put e bucket key contentType expiresIn
  = Throw "generateUploadUrl is not supported for fs storage" /\
  S3Utils.generateDownloadUrl signer e bucket key expiresIn
  = S3Utils.generateDownloadUrl signer' e bucket key expiresIn /\
  S3Urls.generateAvatarUrl signer bucketName e imageKey expiresIn
  = S3Urls.generateAvatarUrl signer' bucketName e imageKey expiresIn /\
  S3Urls.generateAttachmentUrl signer bucketName e imageKey expiresIn
  = S3Urls.generateAttachmentUrl signer' bucketName e imageKey expiresIn.
Proof.
  intros Hfs.
  unfold S3Urls.generateUploadUrl, S3Utils.generateDownloadUrl,
    S3Urls.generateAvatarUrl, S3Urls.generateAttachmentUrl.
  rewrite Hfs. repeat split.
Qed.

Lemma fs_driver_never_signs_witness :
  S3Urls.generateUploadUrl (fun _ _ _ _ _ => Ok "https://s3.example/signed")
    Sample.envFs "avatars" "a.png" "image/png" 3600
  = Throw "generateUploadUrl is not supported for fs storage".
Proof.
  exact (proj1 (fs_driver_never_signs
                  (fun _ _ _ _ _ => Ok "https://s3.example/signed")
                  Sample.noSignedUrl Sample.noSignedUrl Sample.envFs
                  "avatars" "a.png" "image/png" None None 3600 eq_refl)).
Defined.

(** ** From a download URL to the uploads route *)

Lemma stripLeading_fixed (c : string) :
  Js.startsWithSlash c = false -> Js.stripLeadingSlashes c = c.
Proof. destruct c as [|a r]; [reflexivity|]. cbn. now intros ->. Qed.

Lemma stripTrailing_fixed (c : string) :
  Js.endsWithSlash c = false -> Js.stripTrailingSlashes c = c.
Proof.
  induction c as [|a r IH]; [reflexivity|]. intros H.
  cbn [Js.stripTrailingSlashes]. destruct r as [|b r].
  - cbn in *. now rewrite H.
  - rewrite IH by exact H. reflexivity.
Qed.



Section UrlRoundTrip.

Variable getSignedUrl : Env -> string -> string -> nat -> Result string.


End UrlRoundTrip.


(** ** The download URL of the file system driver *)

(** Every string is a bare string between two runs of slashes. *)
Lemma stripLeading_run (s : string) :
  exists n, s = (JsMore.slashes n ++ Js.stripLeadingSlashes s)%string.
Proof.
  induction s as [|c r [n IH]]; [now exists 0|].
  cbn [Js.stripLeadingSlashes].
  destruct (Ascii.eqb c Js.slash) eqn:E; [|now exists 0].
  apply Ascii.eqb_eq in E. subst c. exists (S n).
  cbn [JsMore.slashes String.append]. now rewrite <- IH.
Qed.

Lemma stripTrailing_run (s : string) :
  exists m, s = (Js.stripTrailingSlashes s ++ JsMore.slashes m)%string.
Proof.
  induction s as [|c r [m IH]]; [now exists 0|].
  cbn [Js.stripTrailingSlashes].
  destruct (Js.stripTrailingSlashes r) as [|d r'] eqn:Er.
  - cbn [String.append] in IH. destruct (Ascii.eqb c Js.slash) eqn:E.
    + apply Ascii.eqb_eq in E. subst c. exists (S m).
      cbn [JsMore.slashes String.append]. now rewrite <- IH.
    + exists m. cbn [String.append]. now rewrite <- IH.
  - exists m. cbn [String.append] in *. now rewrite <- IH.
Qed.

Lemma bare_between_slashes (s : string) :
  exists n m c,
    s = (JsMore.slashes n ++ c ++ JsMore.slashes m)%string /\ bare c.
Proof.
  destruct (stripLeading_run s) as [n Hn].
  destruct (stripTrailing_run (Js.stripLeadingSlashes s)) as [m Hm].
  exists n, m, (Js.stripTrailingSlashes (Js.stripLeadingSlashes s)).
  split; [now rewrite <- Hm|]. split.
  - apply stripTrailing_keeps_head, stripLeading_no_leading.
  - apply stripTrailing_no_trailing.
Qed.

Lemma strip_bare_wrapped (n m : nat) (c : string) :
  bare c ->
  Js.stripTrailingSlashes
    (Js.stripLeadingSlashes (JsMore.slashes n ++ c ++ JsMore.slashes m)) = c.
Proof.
  intros [Hs He].
  now rewrite strip_wrapped, stripLeading_fixed, stripTrailing_fixed.
Qed.

Section DownloadUrl.

Variable getSignedUrl : Env -> string -> string -> nat -> Result string.

(** C6. With the fs driver and a storage URL, [generateDownloadUrl]
    answers the storage URL without its last character when that is a
    slash, followed, for each of the uploads path, the bucket and the key in
    this order, by one slash and what is left of it between its leading and
    its trailing slashes, unless nothing is left; an empty URL is an error.
    The slashes doubled in the result are those inside the shortened
    storage URL and inside the three parts, plus one at the first join when
    the shortened storage URL still ends with a slash. *)
Theorem generateDownloadUrl_fs_url
  (e : Env) (bucket key base : string) (expiresIn : nat)
  (trimmed cu cb ck : string) (nu mu nb mb nk mk : nat) :
  S3Utils.getStorageDriver e = fs ->
  NEXT_PUBLIC_STORAGE_URL e = Some base -> Js.nonEmpty base = true ->
  base = (trimmed ++ "/")%string \/ (base = trimmed /\ Js.endsWithSlash base = false) ->
  S3Utils.getUploadsPublicPath e
  = (JsMore.slashes nu ++ cu ++ JsMore.slashes mu)%string ->
  bucket = (JsMore.slashes nb ++ cb ++ JsMore.slashes mb)%string ->
  key = (JsMore.slashes nk ++ ck ++ JsMore.slashes mk)%string ->
  bare cu -> bare cb -> bare ck ->
  let piece := fun c : string => if Js.nonEmpty c then ("/" ++ c)%string else "" in
  let url := (trimmed ++ piece cu ++ piece cb ++ piece ck)%string in
  S3Utils.generateDownloadUrl getSignedUrl e bucket key expiresIn
  = (if Js.nonEmpty url then Ok url else Throw "Storage URL not configured") /\
  Js.doubledSlashes url
  = Js.doubledSlashes trimmed + Js.doubledSlashes cu + Js.doubledSlashes cb
    + Js.doubledSlashes ck
    + (if Js.endsWithSlash trimmed
          && (Js.nonEmpty cu || Js.nonEmpty cb || Js.nonEmpty ck)
       then 1 else 0).
Proof.
  intros Hd Hbase Hne Htrim Hu Hb Hk Bu Bb Bk piece url.
  set (cs := filter Js.nonEmpty [cu; cb; ck]).
  set (joined := String.concat "" (map (fun c => String Js.slash c) cs)).
  assert (Hcleaned : S3Utils.cleaned [S3Utils.getUploadsPublicPath e; bucket; key] = cs).
  { rewrite cleaned_unfiltered, Hu, Hb, Hk. cbn [map].
    now rewrite !strip_bare_wrapped by assumption. }
  assert (Hbase' : S3Utils.trimmedBase base = trimmed).
  { unfold S3Utils.trimmedBase. destruct Htrim as [-> | [-> ->]]; [|reflexivity].
    now rewrite endsWithSlash_snoc, dropLast_snoc. }
  assert (Hjoined : joined = (piece cu ++ piece cb ++ piece ck)%string).
  { subst joined cs piece. cbv beta.
    destruct cu, cb, ck; cbn [filter Js.nonEmpty map String.concat String.append];
      rewrite ?append_empty_r; reflexivity. }
  assert (Hurl : S3Utils.joinUrl base [S3Utils.getUploadsPublicPath e; bucket; key]
                 = url).
  { rewrite joinUrl_shape, Hcleaned, Hbase'. fold joined. now rewrite Hjoined. }
  split.
  - unfold S3Utils.generateDownloadUrl, S3Utils.getPublicObjectUrl.
    rewrite Hd, Hbase, Hne, Hurl. reflexivity.
  - assert (Hclean : Forall cleanPart cs).
    { subst cs. apply Forall_forall. intros c Hc.
      apply filter_In in Hc as [Hin Hc]. split; [exact Hc|].
      destruct Hin as [<-|[<-|[<-|[]]]]; assumption. }
    destruct (doubledSlashes_joined cs Hclean) as [Hcount Hstart].
    fold joined in Hcount, Hstart.
    subst url. rewrite <- Hjoined, doubledSlashes_app, Hcount, Hstart.
    assert (Hsum : list_sum (map Js.doubledSlashes cs)
                   = Js.doubledSlashes cu + Js.doubledSlashes cb + Js.doubledSlashes ck).
    { subst cs. unfold list_sum.
      destruct cu, cb, ck; cbn [filter Js.nonEmpty map fold_right];
        change (Js.doubledSlashes "") with 0; lia. }
    assert (Hsome : Js.nonEmpty joined
                    = Js.nonEmpty cu || Js.nonEmpty cb || Js.nonEmpty ck).
    { rewrite Hjoined. subst piece. cbv beta. destruct cu, cb, ck; reflexivity. }
    rewrite Hsum, Hsome. lia.
Qed.

End DownloadUrl.

Lemma generateDownloadUrl_fs_url_witness :
  S3Utils.generateDownloadUrl Sample.noSignedUrl Sample.envFs "avatars" "a.png" 3600
  = Ok "https://kan.example/uploads/avatars/a.png".
Proof.
  exact (proj1 (generateDownloadUrl_fs_url Sample.noSignedUrl Sample.envFs
                  "avatars" "a.png" "https://kan.example" 3600
                  "https://kan.example" "uploads" "avatars" "a.png" 1 0 0 0 0 0
                  eq_refl eq_refl eq_refl (or_intror (conj eq_refl eq_refl))
                  eq_refl eq_refl eq_refl
                  (conj eq_refl eq_refl) (conj eq_refl eq_refl)
                  (conj eq_refl eq_refl))).
Defined.

(** A storage URL that ends with two slashes leaves a doubled slash at the
    join with the uploads path; and the ["//"] of the scheme is in every
    result. *)
Lemma download_url_with_doubled_slashes :
  S3Utils.getStorageDriver (Sample.envFsUrl "https://kan.example//") = fs /\
  S3Utils.generateDownloadUrl Sample.noSignedUrl
    (Sample.envFsUrl "https://kan.example//") "avatars" "a.png" 3600
  = Ok "https://kan.example//uploads/avatars/a.png" /\
  Js.doubledSlashes "https://kan.example//uploads/avatars/a.png" = 2 /\
  S3Utils.generateDownloadUrl Sample.noSignedUrl
    (Sample.envFsUrl "https://kan.example") "avatars" "a.png" 3600
  = Ok "https://kan.example/uploads/avatars/a.png" /\
  Js.doubledSlashes "https://kan.example/uploads/avatars/a.png" = 1.
Proof. repeat split. Qed.

